(** * MCC portfolio agent: extraction and reconciliation engine

    A shallow embedding of the two Python programs of the repository,

      - [azure-function-email-ingestion.py]  (classes [CompanyMatcher],
        [PortfolioDataExtractor], [DataPersister]), and
      - [csv-parser-backfill.py]             (class [RobustCSVParser]),

    together with the parts of the Python run-time they rely on: [str]
    methods, the backtracking matcher of module [re], [decimal.Decimal] in
    its default context, and the [float] to [str] conversion.

    Conventions.
      - A Python [str] is a list of characters.  Characters range over the
        code points U+0000 to U+00FF; the predicates below follow Python's
        classification of these code points.
      - A Python call that may raise is a value of [result]; the exception
        classes that matter are listed in [exn].
      - Binary floating point confidences are kept as exact rationals. *)

From Stdlib Require Import Ascii String ZArith NArith QArith Lqa Lia Bool Arith Sorted List.
Import ListNotations.

Set Implicit Arguments.
Close Scope Q_scope.
Open Scope nat_scope.
Open Scope bool_scope.

(* ===================================================================== *)
(** * Part I.  Python run-time                                            *)
(* ===================================================================== *)

(** ** Text *)

Definition text := list ascii.

(** String literals are written [txt "..."]. *)
Definition txt (s : string) : text := list_ascii_of_string s.

Definition newline : ascii := "010"%char.

(** A literal of several lines. *)
Definition lines (l : list string) : text :=
  txt (String.concat (String newline EmptyString) l).

Definition code (c : ascii) : N := N_of_ascii c.

Definition in_range (lo hi : N) (c : ascii) : bool :=
  (N.leb lo (code c) && N.leb (code c) hi).

(** [str.isspace], which is also [\s] of module [re]. *)
Definition is_space (c : ascii) : bool :=
  in_range 9 13 c || in_range 28 32 c
  || N.eqb (code c) 133 || N.eqb (code c) 160.

(** [[0-9]], which on this range is also [\d]. *)
Definition is_digit (c : ascii) : bool := in_range 48 57 c.

(** [\w] of module [re] for [str] patterns: alphanumeric or underscore. *)
Definition is_word (c : ascii) : bool :=
  in_range 48 57 c || in_range 65 90 c || N.eqb (code c) 95
  || in_range 97 122 c
  || N.eqb (code c) 170 || in_range 178 179 c || N.eqb (code c) 181
  || in_range 185 186 c || in_range 188 190 c
  || in_range 192 214 c || in_range 216 246 c || in_range 248 255 c.

(** [str.lower] on one character. *)
Definition lower_char (c : ascii) : ascii :=
  if in_range 65 90 c || in_range 192 214 c || in_range 216 222 c
  then ascii_of_N (code c + 32) else c.

Definition lower (s : text) : text := map lower_char s.

Definition ascii_eqb (a b : ascii) : bool := Ascii.eqb a b.

Fixpoint text_eqb (a b : text) : bool :=
  match a, b with
  | [], [] => true
  | x :: a', y :: b' => ascii_eqb x y && text_eqb a' b'
  | _, _ => false
  end.

(** [s.startswith(p)] *)
Fixpoint startswith (p s : text) : bool :=
  match p, s with
  | [], _ => true
  | x :: p', y :: s' => ascii_eqb x y && startswith p' s'
  | _ :: _, [] => false
  end.

(** [s.endswith(p)] *)
Definition endswith (p s : text) : bool := startswith (rev p) (rev s).

(** [needle in hay] *)
Fixpoint contains (needle hay : text) : bool :=
  startswith needle hay
  || match hay with
     | [] => false
     | _ :: hay' => contains needle hay'
     end.

(** [any(kw in s for kw in kws)] *)
Definition contains_any (kws : list text) (s : text) : bool :=
  existsb (fun kw => contains kw s) kws.

(** [s[i:j]] for [0 <= i] and [0 <= j]. *)
Definition slice (i j : nat) (s : text) : text := firstn (j - i) (skipn i s).

(** [s[:-1]] *)
Definition drop_last (s : text) : text := removelast s.

(** [s[-1]], defined on a non-empty string. *)
Definition last_char (s : text) : option ascii :=
  match rev s with
  | [] => None
  | c :: _ => Some c
  end.

(** [s.replace(c, '')] for a one-character [c]. *)
Definition remove_char (c : ascii) (s : text) : text :=
  filter (fun x => negb (ascii_eqb x c)) s.

Fixpoint lstrip_by (p : ascii -> bool) (s : text) : text :=
  match s with
  | [] => []
  | c :: s' => if p c then lstrip_by p s' else s
  end.

Definition strip_by (p : ascii -> bool) (s : text) : text :=
  rev (lstrip_by p (rev (lstrip_by p s))).

(** [s.strip()] *)
Definition strip (s : text) : text := strip_by is_space s.

(** [s.split()]: the maximal runs of characters that are not white space.
    [cur] is the run being read, reversed. *)
Fixpoint split_go (cur : text) (s : text) : list text :=
  match s with
  | [] => match cur with [] => [] | _ => [rev cur] end
  | c :: s' =>
      if is_space c
      then match cur with
           | [] => split_go [] s'
           | _ => rev cur :: split_go [] s'
           end
      else split_go (c :: cur) s'
  end.

Definition split (s : text) : list text := split_go [] s.

(** [sep.join(parts)] *)
Fixpoint join (sep : text) (parts : list text) : text :=
  match parts with
  | [] => []
  | [p] => p
  | p :: rest => p ++ sep ++ join sep rest
  end.

(** ** Exceptions *)

Inductive exn : Type :=
| ValueError
| TypeError
| NameError
| IndexError
| OverflowError
| InvalidOperation     (* decimal.InvalidOperation *)
| DecimalOverflow      (* decimal.Overflow *)
| ParserError          (* raised by dateutil.parser.parse *)
| KeyError
| AttributeError
| DatabaseError.

Inductive result (A : Type) : Type :=
| Ok (a : A)
| Raise (e : exn).
Arguments Ok {A} a.
Arguments Raise {A} e.

Definition bind {A B : Type} (m : result A) (f : A -> result B) : result B :=
  match m with
  | Ok a => f a
  | Raise e => Raise e
  end.

Declare Scope py_scope.
Delimit Scope py_scope with py.
Notation "x <- m ;; f" := (bind m (fun x => f))
  (at level 61, m at next level, right associativity) : py_scope.
Notation "' pat <- m ;; f" := (bind m (fun x => match x with pat => f end))
  (at level 61, pat pattern, m at next level, right associativity) : py_scope.

(** ** Module [re]: a backtracking matcher

    Patterns are built from the constructors below; each pattern of the
    program is given next to its source text.  Alternatives are tried left
    to right and repetitions are greedy, as in Python. *)

Inductive regex : Type :=
| Eps                                   (* the empty pattern *)
| Chr (p : ascii -> bool)               (* one character in a class *)
| Seq (r1 r2 : regex)
| Alt (r1 r2 : regex)                   (* r1|r2 *)
| Star (r : regex)                      (* r*, greedy *)
| Grp (i : nat) (r : regex)             (* capturing group number i *)
| WordB.                                (* \b *)

(** Captured groups, most recent first. *)
Definition caps := list (nat * text).

Fixpoint group (i : nat) (cs : caps) : option text :=
  match cs with
  | [] => None
  | (j, t) :: cs' => if Nat.eqb i j then Some t else group i cs'
  end.

Definition next_is_word (s : text) : bool :=
  match s with
  | c :: _ => is_word c
  | [] => false
  end.

Section Run.
Variable A : Type.

(** The continuation receives whether the character just before the
    current position is a word character, the rest of the subject, and
    the groups captured so far. *)
Definition kont := bool -> text -> caps -> option A.

Fixpoint run (r : regex) (pw : bool) (s : text) (cs : caps) (k : kont)
  {struct r} : option A :=
  match r with
  | Eps => k pw s cs
  | Chr p =>
      match s with
      | c :: s' => if p c then k (is_word c) s' cs else None
      | [] => None
      end
  | Seq r1 r2 => run r1 pw s cs (fun pw' s' cs' => run r2 pw' s' cs' k)
  | Alt r1 r2 =>
      match run r1 pw s cs k with
      | Some a => Some a
      | None => run r2 pw s cs k
      end
  | Star r1 =>
      (fix loop (n : nat) (pw : bool) (s : text) (cs : caps) : option A :=
         match n with
         | O => k pw s cs
         | S n' =>
             match run r1 pw s cs
                     (fun pw' s' cs' =>
                        if Nat.ltb (length s') (length s)
                        then loop n' pw' s' cs' else None) with
             | Some a => Some a
             | None => k pw s cs
             end
         end) (S (length s)) pw s cs
  | Grp i r1 =>
      run r1 pw s cs
        (fun pw' s' cs' =>
           k pw' s' ((i, firstn (length s - length s') s) :: cs'))
  | WordB => if xorb pw (next_is_word s) then k pw s cs else None
  end.
End Run.

(** A match anchored at the current position: the state after the match
    and the captured groups. *)
Definition match_here (r : regex) (pw : bool) (s : text)
  : option (bool * text * caps) :=
  run r pw s [] (fun pw' s' cs' => Some (pw', s', cs')).

(** A match object: [m.start()], [m.end()], [m.group(0)], other groups. *)
Record rmatch : Type := {
  m_start : nat;
  m_end : nat;
  m_group0 : text;
  m_groups : caps
}.

Definition m_group (i : nat) (m : rmatch) : text :=
  match group i (m_groups m) with
  | Some t => t
  | None => []
  end.

(** [finditer]: the leftmost match from each position on, not overlapping.
    While [skip] is positive the scan is inside the previous match. *)
Fixpoint finditer_go (r : regex) (skip pos : nat) (pw : bool) (s : text)
  : list rmatch :=
  match skip with
  | S n =>
      match s with
      | c :: s' => finditer_go r n (S pos) (is_word c) s'
      | [] => []
      end
  | O =>
      match match_here r pw s with
      | Some (_, s', cs) =>
          let len := length s - length s' in
          {| m_start := pos; m_end := pos + len;
             m_group0 := firstn len s; m_groups := cs |}
          :: match s with
             | c :: t => finditer_go r (pred len) (S pos) (is_word c) t
             | [] => []
             end
      | None =>
          match s with
          | c :: t => finditer_go r 0 (S pos) (is_word c) t
          | [] => []
          end
      end
  end.

(** [re.finditer(r, s)] *)
Definition finditer (r : regex) (s : text) : list rmatch :=
  finditer_go r 0 0 false s.

(** [re.search(r, s)] *)
Definition search (r : regex) (s : text) : option rmatch :=
  match finditer r s with
  | m :: _ => Some m
  | [] => None
  end.

(** [re.sub(r, repl, s)] for a replacement without group references. *)
Fixpoint sub_go (r : regex) (repl : text) (skip : nat) (pw : bool) (s : text)
  : text :=
  match skip with
  | S n =>
      match s with
      | c :: s' => sub_go r repl n (is_word c) s'
      | [] => []
      end
  | O =>
      match match_here r pw s with
      | Some (_, s', _) =>
          let len := length s - length s' in
          repl ++ match s with
                  | c :: t =>
                      match len with
                      | O => c :: sub_go r repl 0 (is_word c) t
                      | S n => sub_go r repl n (is_word c) t
                      end
                  | [] => []
                  end
      | None =>
          match s with
          | c :: t => c :: sub_go r repl 0 (is_word c) t
          | [] => []
          end
      end
  end.

Definition sub (r : regex) (repl : text) (s : text) : text :=
  sub_go r repl 0 false s.

(** *** Pattern notation *)

(** A literal character; under [re.IGNORECASE] ([ic = true]) it is compared
    after lower-casing. *)
Definition lit (ic : bool) (c : ascii) : regex :=
  Chr (fun x => if ic then ascii_eqb (lower_char x) (lower_char c)
                else ascii_eqb x c).

(** A literal string. *)
Fixpoint lits (ic : bool) (s : text) : regex :=
  match s with
  | [] => Eps
  | [c] => lit ic c
  | c :: s' => Seq (lit ic c) (lits ic s')
  end.

Definition word (ic : bool) (s : string) : regex := lits ic (txt s).

(** [r?], [r+], [r{n}], [r{lo,hi}] *)
Definition opt (r : regex) : regex := Alt r Eps.
Definition plus (r : regex) : regex := Seq r (Star r).

Fixpoint rep (n : nat) (r : regex) : regex :=
  match n with
  | O => Eps
  | 1 => r
  | S n' => Seq r (rep n' r)
  end.

Fixpoint rep_upto (n : nat) (r : regex) : regex :=
  match n with
  | O => Eps
  | S n' => opt (Seq r (rep_upto n' r))
  end.

Definition rep_range (lo hi : nat) (r : regex) : regex :=
  Seq (rep lo r) (rep_upto (hi - lo) r).

(** [r1|r2|...] *)
Fixpoint alts (rs : list regex) : regex :=
  match rs with
  | [] => Eps
  | [r] => r
  | r :: rs' => Alt r (alts rs')
  end.

(** [r1 r2 ...] *)
Fixpoint seqs (rs : list regex) : regex :=
  match rs with
  | [] => Eps
  | [r] => r
  | r :: rs' => Seq r (seqs rs')
  end.

(** Character classes. *)
Definition digit : regex := Chr is_digit.                     (* [0-9], \d *)
Definition space : regex := Chr is_space.                     (* \s *)
Definition one_of (s : string) : regex :=                     (* [...] *)
  Chr (fun x => existsb (ascii_eqb x) (txt s)).

(** ** Decimal numerals *)

Definition digit_val (c : ascii) : N := code c - 48.

(** [int(s)] for a string of digits. *)
Definition nat_of_digits (s : text) : N :=
  fold_left (fun acc c => (10 * acc + digit_val c)%N) s 0%N.

Definition all_digits (s : text) : bool := forallb is_digit s.

(** The longest prefix of [s] made of characters in [p], and the rest. *)
Fixpoint span (p : ascii -> bool) (s : text) : text * text :=
  match s with
  | [] => ([], [])
  | c :: s' =>
      if p c then let (a, b) := span p s' in (c :: a, b) else ([], s)
  end.

Definition digit_char (d : N) : ascii := ascii_of_N (48 + d).

Fixpoint digits_of_go (fuel : nat) (n : N) (acc : text) : text :=
  match fuel with
  | O => digit_char (n mod 10) :: acc
  | S f =>
      if (n <? 10)%N then digit_char n :: acc
      else digits_of_go f (n / 10)%N (digit_char (n mod 10) :: acc)
  end.

(** [str(n)] for a natural number. *)
Definition digits_of (n : N) : text :=
  digits_of_go (N.to_nat (N.log2 n)) n [].

(** [len(str(n))] *)
Definition ndigits (n : N) : Z := Z.of_nat (length (digits_of n)).

(** [str(z)] for an integer. *)
Definition str_of_Z (z : Z) : text :=
  match z with
  | Zneg p => "-"%char :: digits_of (Npos p)
  | _ => digits_of (Z.to_N z)
  end.

Definition zeros (n : Z) : text := repeat "0"%char (Z.to_nat n).

(** ** [decimal.Decimal] in the default context

    [prec=28], [rounding=ROUND_HALF_EVEN], [Emin=-999999], [Emax=999999],
    traps on [InvalidOperation], [DivisionByZero] and [Overflow]. *)

Inductive dec : Type :=
| DFin (neg : bool) (coef : N) (exp : Z)     (* (-1)^neg * coef * 10^exp *)
| DInf (neg : bool)
| DNaN (neg : bool) (signaling : bool) (payload : N).

Local Open Scope Z_scope.

Definition dec_prec : Z := 28.
Definition dec_Emax : Z := 999999.
Definition dec_Emin : Z := -999999.
Definition dec_Etiny : Z := dec_Emin - dec_prec + 1.
Definition dec_Etop : Z := dec_Emax - dec_prec + 1.

(** Bounds of the exact constructor. *)
Definition MAX_EMAX : Z := 999999999999999999.
Definition MIN_ETINY : Z := -1999999999999999997.

Definition dec_of_Z (z : Z) : dec := DFin (z <? 0) (Z.abs_N z) 0.

(** [coef / 10^drop] rounded half to even. *)
Definition round_half_even (coef : N) (drop : Z) : N :=
  let p := (10 ^ Z.to_N drop)%N in
  let q := (coef / p)%N in
  let r := (coef mod p)%N in
  match (2 * r ?= p)%N with
  | Gt => (q + 1)%N
  | Eq => if N.odd q then (q + 1)%N else q
  | Lt => q
  end.

(** Rounding of an exact result into the context ([Decimal._fix]). *)
Definition dec_fix (neg : bool) (coef : N) (exp : Z) : result dec :=
  if (coef =? 0)%N then
    Ok (DFin neg 0 (Z.min (Z.max exp dec_Etiny) dec_Emax))
  else
    let len := ndigits coef in
    let exp_min := len + exp - dec_prec in
    if exp_min >? dec_Etop then Raise DecimalOverflow
    else
      let exp_min := Z.max exp_min dec_Etiny in
      if exp <? exp_min then
        let kept := len + exp - exp_min in
        let q := if kept <? 0 then round_half_even 1 1
                 else round_half_even coef (exp_min - exp) in
        let '(q, exp_min) :=
          if ndigits q >? dec_prec then ((q / 10)%N, exp_min + 1)
          else (q, exp_min) in
        if exp_min >? dec_Etop then Raise DecimalOverflow
        else Ok (DFin neg q exp_min)
      else Ok (DFin neg coef exp).

(** A quiet NaN operand is returned with its payload cut to the precision. *)
Definition dec_fix_nan (neg : bool) (payload : N) : dec :=
  DNaN neg false (payload mod 10 ^ Z.to_N dec_prec)%N.

Definition dec_is_zero (d : dec) : bool :=
  match d with
  | DFin _ c _ => (c =? 0)%N
  | _ => false
  end.

(** [a * b] *)
Definition dec_mul (a b : dec) : result dec :=
  match a, b with
  | DNaN _ true _, _ => Raise InvalidOperation
  | _, DNaN _ true _ => Raise InvalidOperation
  | DNaN n false p, _ => Ok (dec_fix_nan n p)
  | _, DNaN n false p => Ok (dec_fix_nan n p)
  | DInf n, DInf n' => Ok (DInf (xorb n n'))
  | DInf n, DFin n' _ _ =>
      if dec_is_zero b then Raise InvalidOperation else Ok (DInf (xorb n n'))
  | DFin n _ _, DInf n' =>
      if dec_is_zero a then Raise InvalidOperation else Ok (DInf (xorb n n'))
  | DFin n c e, DFin n' c' e' => dec_fix (xorb n n') (c * c')%N (e + e')
  end.

(** [a * k] for an [int] [k] *)
Definition dec_mul_int (a : dec) (k : Z) : result dec := dec_mul a (dec_of_Z k).

(** [bool(d)] *)
Definition dec_bool (d : dec) : bool := negb (dec_is_zero d).

Definition sign_cmp (neg : bool) (c : comparison) : comparison :=
  if neg then CompOpp c else c.

(** Three-way comparison of two numbers ([Decimal._cmp]); NaNs excluded. *)
Definition dec_cmp_num (a b : dec) : comparison :=
  match a, b with
  | DFin n c e, DFin n' c' e' =>
      if (c =? 0)%N then
        if (c' =? 0)%N then Eq else sign_cmp n' Lt
      else if (c' =? 0)%N then sign_cmp n Gt
      else if andb n (negb n') then Lt
      else if andb (negb n) n' then Gt
      else
        let adj := e + ndigits c - 1 in
        let adj' := e' + ndigits c' - 1 in
        match adj ?= adj' with
        | Gt => sign_cmp n Gt
        | Lt => sign_cmp n Lt
        | Eq =>
            let m := Z.min e e' in
            sign_cmp n
              ((Z.of_N c * 10 ^ (e - m)) ?= (Z.of_N c' * 10 ^ (e' - m)))
        end
  | DInf n, DInf n' =>
      if Bool.eqb n n' then Eq else if n then Lt else Gt
  | DInf n, _ => if n then Lt else Gt
  | _, DInf n' => if n' then Gt else Lt
  | _, _ => Eq
  end.

Definition dec_is_nan (d : dec) : bool :=
  match d with
  | DNaN _ _ _ => true
  | _ => false
  end.

(** The ordering operators signal [InvalidOperation] on a NaN. *)
Definition dec_cmp (a b : dec) : result comparison :=
  if dec_is_nan a || dec_is_nan b then Raise InvalidOperation
  else Ok (dec_cmp_num a b).

(** [a <= b], [a > b], [a < b] *)
Definition dec_le (a b : dec) : result bool :=
  bind (dec_cmp a b) (fun c => Ok (match c with Gt => false | _ => true end)).
Definition dec_gt (a b : dec) : result bool :=
  bind (dec_cmp a b) (fun c => Ok (match c with Gt => true | _ => false end)).
Definition dec_lt (a b : dec) : result bool :=
  bind (dec_cmp a b) (fun c => Ok (match c with Lt => true | _ => false end)).

(** The rational value of a finite decimal. *)
Definition dec_value (d : dec) : option Q :=
  match d with
  | DFin n c e =>
      let a := if n then - Z.of_N c else Z.of_N c in
      Some (if 0 <=? e then inject_Z (a * 10 ^ e)
            else Qmake a (Z.to_pos (10 ^ (- e))))
  | _ => None
  end.

(** *** [Decimal(s)] *)

Definition take_sign (s : text) : bool * text :=
  match s with
  | "-"%char :: s' => (true, s')
  | "+"%char :: s' => (false, s')
  | _ => (false, s)
  end.

(** The exponent part: [[eE][+-]?[0-9]+] or nothing. *)
Definition parse_exponent (s : text) : option Z :=
  match s with
  | [] => Some 0
  | c :: s' =>
      if ascii_eqb (lower_char c) "e"%char then
        let (neg, ds) := take_sign s' in
        match ds with
        | [] => None
        | _ => if all_digits ds
               then Some (let v := Z.of_N (nat_of_digits ds) in
                          if neg then - v else v)
               else None
        end
      else None
  end.

Definition dec_in_exact_range (coef : N) (exp : Z) : bool :=
  (MIN_ETINY <=? exp)
  && (if (coef =? 0)%N then exp <=? MAX_EMAX
      else exp + ndigits coef - 1 <=? MAX_EMAX).

Definition parse_number (neg : bool) (s : text) : option dec :=
  let (ip, r1) := span is_digit s in
  let (fp, r2) :=
    match r1 with
    | "."%char :: r => span is_digit r
    | _ => ([], r1)
    end in
  match ip ++ fp with
  | [] => None
  | ds =>
      match parse_exponent r2 with
      | None => None
      | Some e =>
          let coef := nat_of_digits ds in
          let exp := e - Z.of_nat (length fp) in
          if dec_in_exact_range coef exp then Some (DFin neg coef exp)
          else None
      end
  end.

Definition parse_special (neg : bool) (s : text) : option dec :=
  let l := lower s in
  if text_eqb l (txt "inf") || text_eqb l (txt "infinity") then Some (DInf neg)
  else if startswith (txt "nan") l then
    let ds := skipn 3 l in
    if all_digits ds then Some (DNaN neg false (nat_of_digits ds)) else None
  else if startswith (txt "snan") l then
    let ds := skipn 4 l in
    if all_digits ds then Some (DNaN neg true (nat_of_digits ds)) else None
  else None.

(** [Decimal(s)]: white space around the numeral and every underscore are
    dropped; [None] stands for [InvalidOperation]. *)
Definition dec_of_text (s : text) : option dec :=
  let (neg, r) := take_sign (remove_char "_"%char (strip s)) in
  match parse_special neg r with
  | Some d => Some d
  | None => parse_number neg r
  end.

(** *** [str(d)] *)

Definition dec_sign_text (neg : bool) : text := if neg then txt "-" else [].

Definition dec_to_text (d : dec) : text :=
  match d with
  | DInf n => dec_sign_text n ++ txt "Infinity"
  | DNaN n sg p =>
      dec_sign_text n ++ (if sg then txt "sNaN" else txt "NaN")
      ++ (if (p =? 0)%N then [] else digits_of p)
  | DFin n c e =>
      let ds := digits_of c in
      let len := Z.of_nat (length ds) in
      let leftdigits := e + len in
      let dotplace := if (e <=? 0) && (-6 <? leftdigits) then leftdigits else 1 in
      let intpart :=
        if dotplace <=? 0 then txt "0"
        else if len <=? dotplace then ds ++ zeros (dotplace - len)
        else firstn (Z.to_nat dotplace) ds in
      let fracpart :=
        if dotplace <=? 0 then txt "." ++ zeros (- dotplace) ++ ds
        else if len <=? dotplace then []
        else txt "." ++ skipn (Z.to_nat dotplace) ds in
      let exp :=
        if leftdigits =? dotplace then []
        else txt "E" ++ (if 0 <=? leftdigits - dotplace then txt "+" else [])
             ++ str_of_Z (leftdigits - dotplace) in
      dec_sign_text n ++ intpart ++ fracpart ++ exp
  end.

Local Close Scope Z_scope.

(** ** [float]: IEEE 754 binary64, round half to even *)

Inductive float : Type :=
| FFin (neg : bool) (m : N) (e : Z)      (* (-1)^neg * m * 2^e *)
| FInf (neg : bool)
| FNaN.

Local Open Scope Z_scope.

(** The binary64 number nearest to [num/den], for [0 <= num], [0 < den].
    A finite result has [2^52 <= m < 2^53] and [-1074 <= e <= 971], or
    [m < 2^52] and [e = -1074]; zero is [FFin _ 0 0]. *)
Definition b64_round (neg : bool) (num den : Z) : float :=
  if num =? 0 then FFin neg 0 0
  else
    let e0 := Z.log2 num - Z.log2 den - 52 in
    let quo e := if 0 <=? e then num / (den * 2 ^ e)
                 else (num * 2 ^ (- e)) / den in
    let e1 := if quo e0 <? 2 ^ 52 then e0 - 1 else e0 in
    let e := Z.max e1 (-1074) in
    let '(n, d) := if 0 <=? e then (num, den * 2 ^ e)
                   else (num * 2 ^ (- e), den) in
    let q := n / d in
    let r := n mod d in
    let m := match 2 * r ?= d with
             | Gt => q + 1
             | Eq => if Z.odd q then q + 1 else q
             | Lt => q
             end in
    let '(m, e) := if m =? 2 ^ 53 then (2 ^ 52, e + 1) else (m, e) in
    if m =? 0 then FFin neg 0 0
    else if 971 <? e then FInf neg
    else FFin neg (Z.to_N m) e.

(** [float(k)] for an [int] [k] *)
Definition float_of_Z (k : Z) : float := b64_round (k <? 0) (Z.abs k) 1.

Definition float_is_zero (x : float) : bool :=
  match x with
  | FFin _ m _ => (m =? 0)%N
  | _ => false
  end.

(** [a * b] *)
Definition float_mul (a b : float) : float :=
  match a, b with
  | FNaN, _ | _, FNaN => FNaN
  | FInf n, FInf n' => FInf (xorb n n')
  | FInf n, FFin n' _ _ => if float_is_zero b then FNaN else FInf (xorb n n')
  | FFin n _ _, FInf n' => if float_is_zero a then FNaN else FInf (xorb n n')
  | FFin n m e, FFin n' m' e' =>
      let p := Z.of_N m * Z.of_N m' in
      let x := e + e' in
      if 0 <=? x then b64_round (xorb n n') (p * 2 ^ x) 1
      else b64_round (xorb n n') p (2 ^ (- x))
  end.

(** [float(s)] for an unsigned numeral without exponent, [digits[.digits]]
    with at least one digit, which is every string the program converts;
    anything else is reported as [ValueError]. *)
Definition float_of_numeral (s : text) : result float :=
  let (ip, r1) := span is_digit s in
  let '(fp, r2) :=
    match r1 with
    | "."%char :: r => span is_digit r
    | _ => ([], r1)
    end in
  match ip ++ fp, r2 with
  | (_ :: _) as ds, [] =>
      Ok (b64_round false (Z.of_N (nat_of_digits ds))
            (10 ^ Z.of_nat (length fp)))
  | _, _ => Raise ValueError
  end.

(** [m * 2^e / 10^j] as a fraction. *)
Definition scaled (m e j : Z) : Z * Z :=
  (m * 2 ^ Z.max e 0 * 10 ^ Z.max (- j) 0, 2 ^ Z.max (- e) 0 * 10 ^ Z.max j 0).

(** [floor(log10(m * 2^e))] for [0 < m]. *)
Definition ilog10 (m e : Z) : Z :=
  let est := (Z.log2 m + e) * 30103 / 100000 in
  let ge j := let (n, d) := scaled m e j in d <=? n in
  if ge (est + 1) then est + 1 else if ge est then est else est - 1.

Definition float_eqb_fin (x : float) (m : N) (e : Z) : bool :=
  match x with
  | FFin _ m' e' => (m =? m')%N && (e =? e')
  | _ => false
  end.

(** Does the decimal [D * 10^j] read back as [m * 2^e]? *)
Definition reads_back (m : N) (e : Z) (D j : Z) : bool :=
  float_eqb_fin
    (if 0 <=? j then b64_round false (D * 10 ^ j) 1
     else b64_round false D (10 ^ (- j))) m e.

(** The shortest decimal that reads back as [m * 2^e], and among these the
    nearest: its digits as a number together with its exponent.  [k] is the
    number of digits tried. *)
Fixpoint shortest_go (fuel : nat) (m : N) (e n10 : Z) (k : Z) : Z * Z :=
  let j := n10 + 1 - k in
  let (n, d) := scaled (Z.of_N m) e j in
  let lo := n / d in
  let r := n mod d in
  let hi := lo + 1 in
  let nearest := match 2 * r ?= d with
                 | Lt => lo
                 | Gt => hi
                 | Eq => if Z.odd lo then hi else lo
                 end in
  match fuel with
  | O => (nearest, j)
  | S f =>
      if reads_back m e lo j then
        if reads_back m e hi j then (nearest, j) else (lo, j)
      else if reads_back m e hi j then (hi, j)
      else shortest_go f m e n10 (k + 1)
  end.

Fixpoint strip_zeros_go (fuel : nat) (D j : Z) : Z * Z :=
  match fuel with
  | O => (D, j)
  | S f => if (D mod 10 =? 0) && negb (D =? 0)
           then strip_zeros_go f (D / 10) (j + 1) else (D, j)
  end.

(** The digits of [repr] and the position of the decimal point. *)
Definition float_digits (m : N) (e : Z) : text * Z :=
  let n10 := ilog10 (Z.of_N m) e in
  let (D, j) := shortest_go 16 m e n10 1 in
  let (D, j) := strip_zeros_go 20 D j in
  let ds := digits_of (Z.to_N D) in
  (ds, Z.of_nat (length ds) + j).

Definition pad2 (s : text) : text :=
  match s with
  | [c] => "0"%char :: s
  | _ => s
  end.

(** [str(x)], which is [repr(x)] *)
Definition float_repr (x : float) : text :=
  match x with
  | FNaN => txt "nan"
  | FInf n => dec_sign_text n ++ txt "inf"
  | FFin n m e =>
      dec_sign_text n ++
      if (m =? 0)%N then txt "0.0"
      else
        let (ds, decpt) := float_digits m e in
        let len := Z.of_nat (length ds) in
        if (-4 <? decpt) && (decpt <=? 16) then
          if decpt <=? 0 then txt "0." ++ zeros (- decpt) ++ ds
          else if len <=? decpt then ds ++ zeros (decpt - len) ++ txt ".0"
          else firstn (Z.to_nat decpt) ds ++ txt "."
               ++ skipn (Z.to_nat decpt) ds
        else
          firstn 1 ds
          ++ (match skipn 1 ds with [] => [] | rest => txt "." ++ rest end)
          ++ txt "e" ++ (if 0 <=? decpt - 1 then txt "+" else txt "-")
          ++ pad2 (digits_of (Z.abs_N (decpt - 1)))
  end.

(** [int(x)]: truncation; infinities raise [OverflowError], NaN
    [ValueError]. *)
Definition float_to_Z (x : float) : result Z :=
  match x with
  | FNaN => Raise ValueError
  | FInf _ => Raise OverflowError
  | FFin n m e =>
      let a := if 0 <=? e then Z.of_N m * 2 ^ e else Z.of_N m / 2 ^ (- e) in
      Ok (if n then - a else a)
  end.

Local Close Scope Z_scope.

(** ** Dictionaries with [str] keys, in insertion order *)

Fixpoint dict_get {V : Type} (k : text) (d : list (text * V)) : option V :=
  match d with
  | [] => None
  | (k', v) :: d' => if text_eqb k k' then Some v else dict_get k d'
  end.

(** [d[k] = v] *)
Fixpoint dict_set {V : Type} (k : text) (v : V) (d : list (text * V))
  : list (text * V) :=
  match d with
  | [] => [(k, v)]
  | (k', v') :: d' =>
      if text_eqb k k' then (k, v) :: d' else (k', v') :: dict_set k v d'
  end.

Definition dict_keys {V : Type} (d : list (text * V)) : list text := map fst d.
Definition dict_values {V : Type} (d : list (text * V)) : list V := map snd d.

(** ** [datetime] and [dateutil]

    Dates are produced by [dateutil.parser.parse] and by the clock, and are
    only moved, compared and printed.  These operations are a parameter of
    the development. *)

Class DateLib : Type := {
  datetime : Type;
  (** [dateutil.parser.parse(s)]; [None] when it raises *)
  date_parse : text -> option datetime;
  (** [datetime.now()] *)
  now : datetime;
  (** [d - timedelta(days=n)]; [None] for [OverflowError] *)
  minus_days : datetime -> Z -> option datetime;
  (** [datetime(1900, 1, 1) + timedelta(days=n)]; [None] for [OverflowError] *)
  from_1900 : Z -> option datetime;
  (** [datetime(1990, 1, 1)] *)
  jan_1990 : datetime;
  (** [a > b] and [a < b]; [None] for the [TypeError] raised on comparing
      a naive and an aware datetime *)
  dt_gt : datetime -> datetime -> option bool;
  dt_lt : datetime -> datetime -> option bool;
  (** [d.isoformat()] *)
  isoformat : datetime -> text;
  (** [d.strftime("%Y-%m")] *)
  strftime_Y_m : datetime -> text
}.

(* ===================================================================== *)
(** * Part II.  azure-function-email-ingestion.py                         *)
(* ===================================================================== *)

(** ** class PortfolioDataExtractor *)

(** A literal character, written as a one-character string. *)
Definition ch (c : string) : regex :=
  match txt c with
  | [a] => lit false a
  | _ => Eps
  end.

(** [[0-9]{1,3}(?:,[0-9]{3})*(?:\.[0-9]{2})?] *)
Definition grouped_number : regex :=
  seqs [rep_range 1 3 digit;
        Star (Seq (ch ",") (rep 3 digit));
        opt (Seq (ch ".") (rep 2 digit))].

(** [(?:USD|dollars?)] *)
Definition currency_word (ic : bool) : regex :=
  Alt (word ic "USD") (Seq (word ic "dollar") (opt (lit ic "s"))).

(** [[0-9]+(?:\.[0-9]+)?] *)
Definition plain_number : regex :=
  Seq (plus digit) (opt (Seq (ch ".") (plus digit))).

Definition AMOUNT_PATTERNS : list regex :=
  [ (* \$([0-9]{1,3}(?:,[0-9]{3})*(?:\.[0-9]{2})?) *)
    Seq (ch "$") (Grp 1 grouped_number);
    (* ([0-9]{1,3}(?:,[0-9]{3})*(?:\.[0-9]{2})?)\s*(?:USD|dollars?) *)
    seqs [Grp 1 grouped_number; Star space; currency_word false];
    (* ([0-9]+(?:\.[0-9]+)?)[kKmMbB](?:\s*(?:USD|dollars?))? *)
    seqs [Grp 1 plain_number; one_of "kKmMbB";
          opt (Seq (Star space) (currency_word false))] ].

Definition DATE_KEYWORDS_close_date : list string :=
  ["closed"; "closing date"; "close date"; "completed on"]%string.
Definition DATE_KEYWORDS_as_of_date : list string :=
  ["as of"; "as at"; "ownership as of"; "cap table dated"]%string.
Definition DATE_KEYWORDS_period : list string :=
  ["for the period"; "quarter ending"; "month ending"; "YTD through"]%string.

(** [multipliers = {'k': 1000, 'm': 1000000, 'b': 1000000000}] *)
Definition multipliers (c : ascii) : option Z :=
  if ascii_eqb c "k" then Some 1000%Z
  else if ascii_eqb c "m" then Some 1000000%Z
  else if ascii_eqb c "b" then Some 1000000000%Z
  else None.

(** [Decimal(s)] as a call that may raise. *)
Definition Decimal (s : text) : result dec :=
  match dec_of_text s with
  | Some d => Ok d
  | None => Raise InvalidOperation
  end.

(** The last character of [m.group(0)], lower-cased. *)
Definition last_lower (s : text) : ascii :=
  match last_char s with
  | Some c => lower_char c
  | None => "000"%char
  end.

(** The confidence of one match from the 50 characters around it. *)
Definition amount_confidence (t : text) (m : rmatch) : Z :=
  let context :=
    lower (slice (m_start m - 50) (Nat.min (length t) (m_end m + 50)) t) in
  let confidence := 90%Z in
  let confidence :=
    if contains_any [txt "invested"; txt "investment"; txt "amount"] context
    then 95%Z else confidence in
  if contains_any [txt "pre-money"; txt "post-money"; txt "valuation"] context
  then 85%Z else confidence.

(** The body of the inner loop of [extract_amounts]. *)
Definition amount_of_match (t : text) (m : rmatch) : result (dec * Z) :=
  let amount_str := remove_char "," (m_group 1 m) in
  let c := last_lower (m_group0 m) in
  bind (match multipliers c with
        | Some k => bind (Decimal amount_str) (fun d => dec_mul_int d k)
        | None => Decimal amount_str
        end)
       (fun amount => Ok (amount, amount_confidence t m)).

Fixpoint mapM {A B : Type} (f : A -> result B) (l : list A) : result (list B) :=
  match l with
  | [] => Ok []
  | a :: l' =>
      bind (f a) (fun b => bind (mapM f l') (fun bs => Ok (b :: bs)))
  end.

(** [extract_amounts(text)]: the patterns in order, and for each pattern
    its matches from left to right. *)
Definition extract_amounts (t : text) : result (list (dec * Z)) :=
  mapM (amount_of_match t)
       (flat_map (fun pattern => finditer pattern t) AMOUNT_PATTERNS).

(** [[:\s]*] *)
Definition colon_space : regex :=
  Star (Chr (fun x => ascii_eqb x ":" || is_space x)).

(** [[A-Za-z]] under [re.IGNORECASE] *)
Definition letter : regex :=
  Chr (fun x => in_range 65 90 x || in_range 97 122 x).

(** [([A-Za-z]+ \d{1,2},? \d{4}|\d{1,2}[/-]\d{1,2}[/-]\d{2,4})] *)
Definition date_text : regex :=
  Grp 1 (Alt (seqs [plus letter; ch " "; rep_range 1 2 digit; opt (ch ",");
                    ch " "; rep 4 digit])
             (seqs [rep_range 1 2 digit; one_of "/-"; rep_range 1 2 digit;
                    one_of "/-"; rep_range 2 4 digit])).

(** [rf"{keyword}[:\s]*(...)"], compiled with [re.IGNORECASE] *)
Definition date_pattern (keyword : string) : regex :=
  seqs [word true keyword; colon_space; date_text].

Section Dates.
Context {L : DateLib}.

(** The first match whose text [dateutil] can parse. *)
Fixpoint first_parsed (ms : list rmatch) : option datetime :=
  match ms with
  | [] => None
  | m :: ms' =>
      match date_parse (m_group 1 m) with
      | Some d => Some d
      | None => first_parsed ms'
      end
  end.

(** The first keyword that is followed by a date that parses. *)
Fixpoint first_keyword (t : text) (keywords : list string)
  : option datetime :=
  match keywords with
  | [] => None
  | keyword :: rest =>
      match first_parsed (finditer (date_pattern keyword) t) with
      | Some d => Some d
      | None => first_keyword t rest
      end
  end.

(** The dictionary returned by [extract_dates]. *)
Record dates : Type := {
  close_date : option datetime;
  as_of_date : option datetime;
  period : option datetime
}.

Definition extract_dates (t : text) : dates :=
  {| close_date := first_keyword t DATE_KEYWORDS_close_date;
     as_of_date := first_keyword t DATE_KEYWORDS_as_of_date;
     period := first_keyword t DATE_KEYWORDS_period |}.
End Dates.

(** [[0-9]+(?:\.[0-9]+)?] is [plain_number]; the three ownership patterns
    are compiled with [re.IGNORECASE]. *)
Definition percent_sign : regex := ch "%".

Definition ownership_patterns : list regex :=
  [ (* ([0-9]+(?:\.[0-9]+)?)\s*%\s*(?:ownership|equity|stake) *)
    seqs [Grp 1 plain_number; Star space; percent_sign; Star space;
          alts [word true "ownership"; word true "equity"; word true "stake"]];
    (* (?:owns?|holding?)\s*([0-9]+(?:\.[0-9]+)?)\s*% *)
    seqs [Alt (Seq (word true "own") (opt (lit true "s")))
              (Seq (word true "holdin") (opt (lit true "g")));
          Star space; Grp 1 plain_number; Star space; percent_sign];
    (* fully[\s-]diluted\s*(?:ownership|basis)?\s*(?:of\s* )?([0-9]+(?:\.[0-9]+)?)\s*%
       (the source has no blank in the group [(?:of\s* )]) *)
    seqs [word true "fully"; Chr (fun x => is_space x || ascii_eqb x "-");
          word true "diluted"; Star space;
          opt (Alt (word true "ownership") (word true "basis")); Star space;
          opt (Seq (word true "of") (Star space));
          Grp 1 plain_number; Star space; percent_sign] ].

(** The first pattern, in order, that is found anywhere in the text. *)
Fixpoint first_search (ps : list regex) (t : text) : option rmatch :=
  match ps with
  | [] => None
  | p :: ps' =>
      match search p t with
      | Some m => Some m
      | None => first_search ps' t
      end
  end.

(** [extract_ownership(text)]: [fully_diluted_pct]; the confidence is the
    constant 0.85. *)
Definition extract_ownership (t : text) : result (option dec) :=
  match first_search ownership_patterns t with
  | Some m => bind (Decimal (m_group 1 m)) (fun d => Ok (Some d))
  | None => Ok None
  end.

(** [[0-9,]+(?:\.[0-9]+)?[kKmM]?] *)
Definition metric_number : regex :=
  seqs [plus (Chr (fun x => is_digit x || ascii_eqb x ","));
        opt (Seq (ch ".") (plus digit));
        opt (one_of "kKmM")].

Definition metric_patterns : list (string * regex) :=
  [ (* ARR[:\s]*\$?([0-9,]+(?:\.[0-9]+)?[kKmM]?) *)
    ("ARR", seqs [word true "ARR"; colon_space; opt (ch "$");
                  Grp 1 metric_number]);
    (* revenue[:\s]*\$?([0-9,]+(?:\.[0-9]+)?[kKmM]?) *)
    ("revenue", seqs [word true "revenue"; colon_space; opt (ch "$");
                      Grp 1 metric_number]);
    (* runway[:\s]*([0-9]+)\s*months? *)
    ("runway_months", seqs [word true "runway"; colon_space;
                            Grp 1 (plus digit); Star space;
                            word true "month"; opt (lit true "s")]);
    (* (?:headcount|employees?|team size)[:\s]*([0-9]+) *)
    ("headcount", seqs [alts [word true "headcount";
                              Seq (word true "employee") (opt (lit true "s"));
                              word true "team size"];
                        colon_space; Grp 1 (plus digit)]);
    (* burn\s*(?:rate)?[:\s]*\$?([0-9,]+(?:\.[0-9]+)?[kKmM]?) *)
    ("burn_rate", seqs [word true "burn"; Star space; opt (word true "rate");
                        colon_space; opt (ch "$"); Grp 1 metric_number]);
    (* cash\s*(?:balance)?[:\s]*\$?([0-9,]+(?:\.[0-9]+)?[kKmM]?) *)
    ("cash", seqs [word true "cash"; Star space; opt (word true "balance");
                   colon_space; opt (ch "$"); Grp 1 metric_number]);
    (* churn[:\s]*([0-9]+(?:\.[0-9]+)?)\s*% *)
    ("churn", seqs [word true "churn"; colon_space; Grp 1 plain_number;
                    Star space; percent_sign]) ]%string.

(** The normalisation of one metric value: a trailing [k] or [m] multiplies
    through [float], anything else only loses its commas. *)
Definition normalize_metric (value : text) : result text :=
  let c := last_lower value in
  if ascii_eqb c "k" || ascii_eqb c "m" then
    bind (float_of_numeral (remove_char "," (drop_last value)))
         (fun x =>
            let k := if ascii_eqb c "k" then 1000%Z else 1000000%Z in
            Ok (float_repr (float_mul x (float_of_Z k))))
  else Ok (remove_char "," value).

Fixpoint extract_metrics_go (ps : list (string * regex)) (t : text)
  (metrics : list (text * text)) : result (list (text * text)) :=
  match ps with
  | [] => Ok metrics
  | (metric, pattern) :: ps' =>
      match search pattern t with
      | Some m =>
          bind (normalize_metric (m_group 1 m))
               (fun value =>
                  extract_metrics_go ps' t (dict_set (txt metric) value metrics))
      | None => extract_metrics_go ps' t metrics
      end
  end.

(** [extract_metrics(text)] *)
Definition extract_metrics (t : text) : result (list (text * text)) :=
  extract_metrics_go metric_patterns t [].

(** [Q([1-4])\s*(\d{4})] *)
Definition quarter_pattern : regex :=
  seqs [ch "Q"; Grp 1 (one_of "1234"); Star space; Grp 2 (rep 4 digit)].

(** ** Extraction envelopes *)

(** The values stored in a fact. *)
Inductive value : Type :=
| VNone
| VStr (s : text)
| VNum (q : Q)
| VMap (m : list (text * text)).

(** A fact is a dictionary; [facts] maps a fact kind to a list of facts,
    except for ['company'], which is itself a dictionary. *)
Definition fact := list (text * value).

Inductive fact_value : Type :=
| FDict (d : fact)
| FList (items : list fact).

Definition facts_map := list (text * fact_value).

Record source_ptr_t : Type := {
  source_type : text;
  source_id : text;
  storage_url : text
}.

Record envelope : Type := {
  company_id : option text;
  source_ptr : source_ptr_t;
  facts : facts_map;
  confidence_overall : Q;
  spans : list text;
  anomalies : list text;
  assumptions : list text
}.

Definition set_facts (f : facts_map) (r : envelope) : envelope :=
  {| company_id := company_id r; source_ptr := source_ptr r; facts := f;
     confidence_overall := confidence_overall r; spans := spans r;
     anomalies := anomalies r; assumptions := assumptions r |}.

Definition set_confidence_overall (q : Q) (r : envelope) : envelope :=
  {| company_id := company_id r; source_ptr := source_ptr r;
     facts := facts r; confidence_overall := q; spans := spans r;
     anomalies := anomalies r; assumptions := assumptions r |}.

Definition set_company_id (c : option text) (r : envelope) : envelope :=
  {| company_id := c; source_ptr := source_ptr r;
     facts := facts r; confidence_overall := confidence_overall r;
     spans := spans r; anomalies := anomalies r;
     assumptions := assumptions r |}.

(** [result['facts'][kind].append(item)]; [KeyError] when the kind is
    missing, [AttributeError] when it is not a list. *)
Definition facts_append (kind : string) (item : fact) (r : envelope)
  : result envelope :=
  match dict_get (txt kind) (facts r) with
  | Some (FList items) =>
      Ok (set_facts (dict_set (txt kind) (FList (items ++ [item])) (facts r)) r)
  | Some (FDict _) => Raise AttributeError
  | None => Raise KeyError
  end.

(** The email message as the Graph API returns it: [subject], [body],
    [from.emailAddress.address], [id], [receivedDateTime].  A missing key
    reads as the empty string. *)
Record email : Type := {
  subject : text;
  body : text;
  from_address : text;
  message_id : text;
  receivedDateTime : text
}.

Inductive email_type : Type :=
| UPDATE | FINANCIALS | BOARD | NOTEBOOKLM | CAPTABLE | GENERAL.

(** [_classify_email(subject, body)] *)
Definition _classify_email (subject body : text) : email_type :=
  let subject_lower := lower subject in
  if contains (txt "[update]") subject_lower
     || contains (txt "monthly update") subject_lower then UPDATE
  else if contains (txt "[financials]") subject_lower
          || contains (txt "financial statements") (lower body) then FINANCIALS
  else if contains (txt "[board]") subject_lower
          || contains (txt "board deck") (lower body) then BOARD
  else if contains (txt "[notebooklm]") subject_lower
          || contains (txt "notebook lm") (lower body) then NOTEBOOKLM
  else if contains (txt "[captable]") subject_lower
          || contains (txt "cap table") (lower body) then CAPTABLE
  else GENERAL.

Definition or_else {A : Type} (o : option A) (d : A) : A :=
  match o with
  | Some a => a
  | None => d
  end.

(** [int(s)] printed again, for a string of digits. *)
Definition int_text (s : text) : text := digits_of (nat_of_digits s).

Section Extractor.
Context {L : DateLib}.

(** [_extract_update(text, result, received_date)] *)
Definition _extract_update (t : text) (r : envelope) (received_date : text)
  : result envelope :=
  (metrics <- extract_metrics t ;;
   let dates := extract_dates t in
   (* the default of [dates.get] is evaluated before the lookup *)
   received <- match date_parse received_date with
               | Some d => Ok d
               | None => Raise ParserError
               end ;;
   let period_end := or_else (period dates) received in
   period_start <- match minus_days period_end 30 with
                   | Some d => Ok d
                   | None => Raise OverflowError
                   end ;;
   let report_period :=
     match search quarter_pattern t with
     | Some quarter_match =>
         let quarter := int_text (m_group 1 quarter_match) in
         let year := int_text (m_group 2 quarter_match) in
         year ++ txt "-Q" ++ quarter
     | None => strftime_Y_m period_end
     end in
   facts_append "updates"
     [(txt "period_start", VStr (isoformat period_start));
      (txt "period_end", VStr (isoformat period_end));
      (txt "report_period", VStr report_period);
      (txt "metrics", VMap metrics);
      (txt "qualitative_summary", VStr (firstn 500 t));
      (txt "confidence", VNum (8 # 10))] r)%py.

(** [_extract_financials] and [_extract_board_materials] are [pass]. *)
Definition _extract_financials (t : text) (r : envelope) : result envelope :=
  Ok r.
Definition _extract_board_materials (t : text) (r : envelope)
  : result envelope := Ok r.

(** [_extract_notebook_lm(text, result)] *)
Definition _extract_notebook_lm (t : text) (r : envelope) : result envelope :=
  let occurred_at := isoformat now in
  (extracted_fields <- extract_metrics t ;;
   Ok (set_facts
         (dict_set (txt "comm")
            (FList [[(txt "source", VStr (txt "notebook_lm"));
                     (txt "occurred_at", VStr occurred_at);
                     (txt "summary", VStr (firstn 1000 t));
                     (txt "extracted_fields", VMap extracted_fields);
                     (txt "confidence", VNum (7 # 10))]])
            (facts r)) r))%py.

(** [_extract_cap_table(text, result)] *)
Definition _extract_cap_table (t : text) (r : envelope) : result envelope :=
  (ownership <- extract_ownership t ;;
   match ownership with
   | Some pct =>
       facts_append "ownerships"
         [(txt "as_of_date", VStr (isoformat now));
          (txt "fully_diluted_pct", VStr (dec_to_text pct));
          (txt "confidence", VNum (85 # 100))] r
   | None => Ok r
   end)%py.

(** The cash flows appended for the amounts found. *)
Fixpoint add_cashflows (full_text : text) (dates : dates)
  (amounts : list (dec * Z)) (r : envelope) : result envelope :=
  match amounts with
  | [] => Ok r
  | (amount, confidence) :: rest =>
      (r' <- (if contains (txt "invested") (lower full_text) then
                facts_append "cashflows"
                  [(txt "date",
                    VStr (isoformat (or_else (close_date dates) now)));
                   (txt "kind", VStr (txt "Investment"));
                   (txt "amount", VStr (dec_to_text amount));
                   (txt "confidence", VNum (inject_Z confidence / 100)%Q)] r
              else Ok r) ;;
       add_cashflows full_text dates rest r')%py
  end.

(** The confidence of an item that has one. *)
Definition item_confidence (item : fact) : option value :=
  dict_get (txt "confidence") item.

(** The [confidences] list: every list among the values of [facts], every
    item of it that has a ['confidence']. *)
Definition confidences (f : facts_map) : list value :=
  flat_map (fun fact_type =>
              match fact_type with
              | FList items =>
                  flat_map (fun item =>
                              match item_confidence item with
                              | Some c => [c]
                              | None => []
                              end) items
              | FDict _ => []
              end) (dict_values f).

(** [sum(confidences)]; adding a value that is not a number raises. *)
Fixpoint sum_values (l : list value) (acc : Q) : result Q :=
  match l with
  | [] => Ok acc
  | VNum q :: l' => sum_values l' (acc + q)%Q
  | _ :: _ => Raise TypeError
  end.

(** [sum(confidences) / len(confidences) if confidences else 0.5] *)
Definition overall_confidence (f : facts_map) : result Q :=
  match confidences f with
  | [] => Ok (1 # 2)%Q
  | cs => (total <- sum_values cs 0%Q ;;
           Ok (total / inject_Z (Z.of_nat (length cs)))%Q)%py
  end.

(** [full_text = f"{subject}\n{body}"] *)
Definition full_text (email_data : email) : text :=
  subject email_data ++ [newline] ++ body email_data.

(** The extraction result as it is initialised. *)
Definition initial_result (message_id : text) : envelope :=
  {| company_id := None;
     source_ptr :=
       {| source_type := txt "email";
          source_id := message_id;
          storage_url := txt "graph://messages/" ++ message_id |};
     facts := [(txt "company", FDict []);
               (txt "rounds", FList []);
               (txt "ownerships", FList []);
               (txt "cashflows", FList []);
               (txt "updates", FList []);
               (txt "contacts", FList []);
               (txt "documents", FList [])];
     confidence_overall := 0%Q;
     spans := [];
     anomalies := [];
     assumptions := [txt "currency defaulted to USD"] |}.

(** The extraction by email type. *)
Definition extract_by_type (email_type : email_type) (t : text)
  (r : envelope) (received_date : text) : result envelope :=
  match email_type with
  | UPDATE => _extract_update t r received_date
  | FINANCIALS => _extract_financials t r
  | BOARD => _extract_board_materials t r
  | NOTEBOOKLM => _extract_notebook_lm t r
  | CAPTABLE => _extract_cap_table t r
  | GENERAL => Ok r
  end.

(** The ownership appended when a percentage was found. *)
Definition add_ownership (dates : dates) (ownership : option dec)
  (r : envelope) : result envelope :=
  match ownership with
  | Some pct =>
      facts_append "ownerships"
        [(txt "as_of_date",
          VStr (isoformat (or_else (as_of_date dates) now)));
         (txt "fully_diluted_pct", VStr (dec_to_text pct));
         (txt "confidence", VNum (85 # 100))] r
  | None => Ok r
  end.

(** [extract_from_email(email_data)] *)
Definition extract_from_email (email_data : email) : result envelope :=
  let t := full_text email_data in
  let email_type := _classify_email (subject email_data) (body email_data) in
  let result := initial_result (message_id email_data) in
  (result <- extract_by_type email_type t result
               (receivedDateTime email_data) ;;
   amounts <- extract_amounts t ;;
   let dates := extract_dates t in
   ownership <- extract_ownership t ;;
   result <- add_cashflows t dates amounts result ;;
   result <- add_ownership dates ownership result ;;
   overall <- overall_confidence (facts result) ;;
   Ok (set_confidence_overall overall result))%py.
End Extractor.


(** ** class DataPersister

    The PostgreSQL tables are kept as lists of rows, oldest first.  A
    column holds the value passed for it, [None] for SQL [NULL]. *)

Definition value_eqb (a b : value) : bool :=
  match a, b with
  | VNone, VNone => true
  | VStr s, VStr s' => text_eqb s s'
  | VNum q, VNum q' => Qeq_bool q q'
  | VMap m, VMap m' =>
      (fix eq (x y : list (text * text)) : bool :=
         match x, y with
         | [], [] => true
         | (k, v) :: x', (k', v') :: y' =>
             text_eqb k k' && text_eqb v v' && eq x' y'
         | _, _ => false
         end) m m'
  | _, _ => false
  end.

Definition column := option value.

Definition column_eqb (a b : column) : bool :=
  match a, b with
  | None, None => true
  | Some x, Some y => value_eqb x y
  | _, _ => false
  end.

(** portfolio.cashflow *)
Record cashflow_row : Type := {
  cf_company_id : text;
  cf_date : column;
  cf_kind : column;
  cf_amount : column;
  cf_source_type : text;
  cf_source_id : text;
  cf_extraction_confidence : column
}.

(** portfolio.ownership *)
Record ownership_row : Type := {
  own_company_id : text;
  own_as_of_date : column;
  own_fully_diluted_pct : column;
  own_source_type : text;
  own_source_id : text;
  own_extraction_confidence : column
}.

(** portfolio.update *)
Record update_row : Type := {
  up_company_id : text;
  up_period_start : column;
  up_period_end : column;
  up_report_period : column;
  up_metrics : column;
  up_qualitative_summary : column;
  up_confidence : column;
  up_source_type : text;
  up_source_id : text;
  up_extraction_confidence : column
}.

(** portfolio.ingestion_log *)
Record log_row : Type := {
  log_source_type : text;
  log_source_id : text;
  log_company_id : text;
  log_records_created : list (text * Z);
  log_confidence_overall : Q;
  log_anomalies : list text;
  log_assumptions : list text;
  log_status : text
}.

Record store : Type := {
  cashflow_table : list cashflow_row;
  ownership_table : list ownership_row;
  update_table : list update_row;
  ingestion_log : list log_row
}.

(** Modelled from the spec: the unique constraints of the tables, whose
    declaration (the SQL schema) is not part of the sources.  The spec
    gives the natural keys as company + date + amount for a cash flow and
    company + as-of-date for an ownership; the remaining column of each
    [ON CONFLICT] target ([wire_ref], [security_class]) is never written by
    this program and is taken to hold one fixed value. *)
Definition cashflow_conflict (a b : cashflow_row) : bool :=
  text_eqb (cf_company_id a) (cf_company_id b)
  && column_eqb (cf_date a) (cf_date b)
  && column_eqb (cf_amount a) (cf_amount b).

Definition ownership_conflict (a b : ownership_row) : bool :=
  text_eqb (own_company_id a) (own_company_id b)
  && column_eqb (own_as_of_date a) (own_as_of_date b).

(** [INSERT ... ON CONFLICT (...) DO NOTHING RETURNING cashflow_id]: the
    table afterwards, and whether a row is returned. *)
Definition insert_cashflow (row : cashflow_row) (t : list cashflow_row)
  : list cashflow_row * bool :=
  if existsb (cashflow_conflict row) t then (t, false) else (t ++ [row], true).

(** [INSERT ... ON CONFLICT (...) DO UPDATE SET fully_diluted_pct = ...,
    extraction_confidence = ... RETURNING ownership_id]: a row is returned
    for an insert and for an update alike. *)
Fixpoint upsert_ownership (row : ownership_row) (t : list ownership_row)
  : list ownership_row :=
  match t with
  | [] => [row]
  | old :: t' =>
      if ownership_conflict row old
      then {| own_company_id := own_company_id old;
              own_as_of_date := own_as_of_date old;
              own_fully_diluted_pct := own_fully_diluted_pct row;
              own_source_type := own_source_type old;
              own_source_id := own_source_id old;
              own_extraction_confidence := own_extraction_confidence row |}
           :: t'
      else old :: upsert_ownership row t'
  end.

(** [INSERT ... RETURNING update_id], without a conflict clause. *)
Definition insert_update (row : update_row) (t : list update_row)
  : list update_row := t ++ [row].

(** [facts.get(kind, [])], iterated: a list gives its items; a dictionary
    gives its keys, on which [.get] fails. *)
Definition facts_items (kind : string) (f : facts_map) : result (list fact) :=
  match dict_get (txt kind) f with
  | None => Ok []
  | Some (FList items) => Ok items
  | Some (FDict []) => Ok []
  | Some (FDict (_ :: _)) => Raise AttributeError
  end.

(** [d.get(k, 0.5)] *)
Definition get_or_half (k : string) (d : fact) : column :=
  match dict_get (txt k) d with
  | Some v => Some v
  | None => Some (VNum (1 # 2))
  end.

Definition incr (k : string) (counts : list (text * Z)) : list (text * Z) :=
  match dict_get (txt k) counts with
  | Some n => dict_set (txt k) (n + 1)%Z counts
  | None => counts
  end.

Inductive persist_status : Type :=
| Skipped                                   (* status 'skipped', reason 'no_company_id' *)
| Success (records_created : list (text * Z)).

(** [not s] for a string or a list *)
Definition is_empty {A : Type} (s : list A) : bool :=
  match s with
  | [] => true
  | _ => false
  end.

Section Persist.
Variable r : envelope.
Variable cid : text.

Definition cashflow_row_of (cf : fact) : cashflow_row :=
  {| cf_company_id := cid;
     cf_date := dict_get (txt "date") cf;
     cf_kind := dict_get (txt "kind") cf;
     cf_amount := dict_get (txt "amount") cf;
     cf_source_type := source_type (source_ptr r);
     cf_source_id := source_id (source_ptr r);
     cf_extraction_confidence := get_or_half "confidence" cf |}.

Definition ownership_row_of (own : fact) : ownership_row :=
  {| own_company_id := cid;
     own_as_of_date := dict_get (txt "as_of_date") own;
     own_fully_diluted_pct := dict_get (txt "fully_diluted_pct") own;
     own_source_type := source_type (source_ptr r);
     own_source_id := source_id (source_ptr r);
     own_extraction_confidence := get_or_half "confidence" own |}.

Definition update_row_of (update : fact) : update_row :=
  {| up_company_id := cid;
     up_period_start := dict_get (txt "period_start") update;
     up_period_end := dict_get (txt "period_end") update;
     up_report_period := dict_get (txt "report_period") update;
     up_metrics := Some (or_else (dict_get (txt "metrics") update) (VMap []));
     up_qualitative_summary := dict_get (txt "qualitative_summary") update;
     up_confidence := get_or_half "confidence" update;
     up_source_type := source_type (source_ptr r);
     up_source_id := source_id (source_ptr r);
     up_extraction_confidence := get_or_half "confidence" update |}.

(** The three loops; each threads the table and the counters. *)
Fixpoint persist_cashflows (cfs : list fact) (t : list cashflow_row)
  (counts : list (text * Z)) : list cashflow_row * list (text * Z) :=
  match cfs with
  | [] => (t, counts)
  | cf :: rest =>
      let (t', returned) := insert_cashflow (cashflow_row_of cf) t in
      persist_cashflows rest t'
        (if returned then incr "cashflows" counts else counts)
  end.

Fixpoint persist_ownerships (owns : list fact) (t : list ownership_row)
  (counts : list (text * Z)) : list ownership_row * list (text * Z) :=
  match owns with
  | [] => (t, counts)
  | own :: rest =>
      persist_ownerships rest (upsert_ownership (ownership_row_of own) t)
        (incr "ownerships" counts)
  end.

Fixpoint persist_updates (ups : list fact) (t : list update_row)
  (counts : list (text * Z)) : list update_row * list (text * Z) :=
  match ups with
  | [] => (t, counts)
  | update :: rest =>
      persist_updates rest (insert_update (update_row_of update) t)
        (incr "updates" counts)
  end.
End Persist.

(** [persist_extraction(extraction_result)] on the database [db]: the
    database after the commit and the dictionary returned.  When the call
    raises, the transaction is rolled back and [db] is left as it was. *)
Definition persist_extraction (db : store) (extraction_result : envelope)
  : result (store * persist_status) :=
  match company_id extraction_result with
  | None => Ok (db, Skipped)
  | Some cid =>
      if is_empty cid then Ok (db, Skipped)
      else
        let records_created :=
          [(txt "company", 0); (txt "rounds", 0); (txt "ownerships", 0);
           (txt "cashflows", 0); (txt "updates", 0); (txt "contacts", 0);
           (txt "documents", 0)]%Z in
        let facts := facts extraction_result in
        (cfs <- facts_items "cashflows" facts ;;
         let (cft, records_created) :=
           persist_cashflows extraction_result cid cfs (cashflow_table db)
             records_created in
         owns <- facts_items "ownerships" facts ;;
         let (owt, records_created) :=
           persist_ownerships extraction_result cid owns (ownership_table db)
             records_created in
         ups <- facts_items "updates" facts ;;
         let (upt, records_created) :=
           persist_updates extraction_result cid ups (update_table db)
             records_created in
         let log :=
           {| log_source_type := source_type (source_ptr extraction_result);
              log_source_id := source_id (source_ptr extraction_result);
              log_company_id := cid;
              log_records_created := records_created;
              log_confidence_overall := confidence_overall extraction_result;
              log_anomalies := anomalies extraction_result;
              log_assumptions := assumptions extraction_result;
              log_status := txt "success" |} in
         Ok ({| cashflow_table := cft; ownership_table := owt;
                update_table := upt;
                ingestion_log := ingestion_log db ++ [log] |},
             Success records_created))%py
  end.


(* ===================================================================== *)
(** * Part III.  csv-parser-backfill.py                                   *)
(* ===================================================================== *)

(** ** class RobustCSVParser *)

Definition COLUMN_MAPPINGS : list (string * list string) :=
  [ ("company",
     ["Name of Company"; "Company Name"; "Company"; "Portfolio Company";
      "Legal Name"; "Entity"; "Investment Name"; "Name"]);
    ("amount_invested",
     ["Total Amount Invested"; "Investment Amount"; "Amount Invested";
      "Total Investment"; "MCC Investment"; "Amount"; "Investment";
      "Total $ Invested"; "Investment ($)"; "Amount (USD)"]);
    ("date",
     ["Earliest Date of Investment"; "Investment Date"; "Close Date";
      "First Investment Date"; "Initial Investment"; "Date"; "Closing Date";
      "Transaction Date"; "Earliest Date"]);
    ("ownership",
     ["Equity %"; "Ownership %"; "Ownership Percentage"; "Equity Percentage";
      "MCC Ownership"; "% Ownership"; "Equity"; "Stake"; "Ownership"]);
    ("round_type",
     ["Round Type"; "Investment Type"; "Type"; "Round"; "Series";
      "Investment Round"; "Stage"]);
    ("valuation",
     ["Pre-Money Valuation"; "Pre Money"; "Valuation"; "Pre-Money";
      "Company Valuation"; "Val"]);
    ("status",
     ["Status"; "Company Status"; "Current Status"; "Investment Status";
      "Active/Inactive"; "State"]);
    ("distributions",
     ["Distributions"; "Total Distributions"; "Distribution Amount";
      "Distributions to Date"; "Cash Distributed"; "Returns"]) ]%string.

(** [\b(LLC|Inc|Corp|Corporation|Ltd|Limited|Co|Company)\b], compiled with
    [re.IGNORECASE] *)
Definition suffix_pattern : regex :=
  seqs [WordB;
        Grp 1 (alts [word true "LLC"; word true "Inc"; word true "Corp";
                     word true "Corporation"; word true "Ltd";
                     word true "Limited"; word true "Co";
                     word true "Company"]);
        WordB].

(** [[^\w\s]] *)
Definition punctuation : regex :=
  Chr (fun x => negb (is_word x || is_space x)).

(** [_normalize_company_name(name)] *)
Definition _normalize_company_name (name : text) : text :=
  if is_empty name then []
  else
    let name := sub suffix_pattern [] name in
    let name := sub punctuation [] name in
    let name := join (txt " ") (split name) in
    strip (lower name).

(** A cell of the data frame: a missing value ([NaN], [None]), a string, or
    a number. *)
Inductive cell : Type :=
| CNaN
| CStr (s : text)
| CInt (z : Z)
| CFloat (x : float).

(** [pd.isna(value)] *)
Definition isna (c : cell) : bool :=
  match c with
  | CNaN | CFloat FNaN => true
  | _ => false
  end.

(** [str(value)] *)
Definition str (c : cell) : text :=
  match c with
  | CNaN => txt "nan"
  | CStr s => s
  | CInt z => str_of_Z z
  | CFloat x => float_repr x
  end.

(** [pd.isna(value) or value == '' or value is None] *)
Definition is_missing (c : cell) : bool :=
  isna c || match c with CStr [] => true | _ => false end.

(** [find_header_row(df)] *)
Definition row_str (row : list cell) : text :=
  join (txt " ") (map str (filter (fun c => negb (isna c)) row)).

Definition header_matches (row : list cell) : nat :=
  length (filter (fun column_list : string * list string =>
                    existsb (fun col => contains (txt col) (row_str row))
                            (snd column_list))
                 COLUMN_MAPPINGS).

Fixpoint find_header_row_go (rows : list (list cell)) (idx : nat) : nat :=
  match rows with
  | [] => 0
  | row :: rest =>
      if Nat.ltb 20 idx then 0
      else if Nat.leb 3 (header_matches row) then idx
      else find_header_row_go rest (S idx)
  end.

Definition find_header_row (df : list (list cell)) : nat :=
  find_header_row_go df 0.

(** [map_columns(df_columns)].  Only a string can contain a variation, so
    the keys of the mapping are strings; equal column names share one
    entry. *)
Definition canonical_name (col : text) : option string :=
  let col_clean := strip col in
  option_map fst
    (find (fun m : string * list string =>
             existsb (fun variation =>
                        contains (lower (txt variation)) (lower col_clean))
                     (snd m))
          COLUMN_MAPPINGS).

Fixpoint map_columns (df_columns : list cell) : list (text * string) :=
  match df_columns with
  | [] => []
  | col :: rest =>
      let mapping := map_columns rest in
      match canonical_name (str col) with
      | Some canonical_name =>
          (str col, canonical_name)
          :: filter (fun p => negb (text_eqb (fst p) (str col))) mapping
      | None => mapping
      end
  end.

(** [[$,\s]] *)
Definition is_noise (x : ascii) : bool :=
  ascii_eqb x "$" || ascii_eqb x "," || is_space x.

Definition currency_noise : regex := Chr is_noise.

Definition ends_with_any (cs : string) (s : text) : bool :=
  match last_char s with
  | Some c => existsb (ascii_eqb c) (txt cs)
  | None => false
  end.

(** The three rewritings of [value_str] in [clean_currency]: currency
    symbols and white space are removed, parentheses become a minus sign,
    and a K/M/B suffix becomes a multiplier. *)
Definition strip_noise (value_str : text) : text :=
  sub currency_noise [] value_str.

Definition unparenthesize (value_str : text) : text :=
  if startswith (txt "(") value_str && endswith (txt ")") value_str
  then txt "-" ++ drop_last (skipn 1 value_str) else value_str.

Definition split_suffix (value_str : text) : Z * text :=
  if ends_with_any "kK" value_str then (1000%Z, drop_last value_str)
  else if ends_with_any "mM" value_str then (1000000%Z, drop_last value_str)
  else if ends_with_any "bB" value_str
       then (1000000000%Z, drop_last value_str)
  else (1%Z, value_str).

(** The text [clean_percentage] parses: the cell without surrounding white
    space, ['%'] and commas. *)
Definition percentage_text (value : cell) : text :=
  let value_str := strip (str value) in
  remove_char "," (remove_char "%" value_str).

Section Cleaning.
(** Whether the file runs as a script: [decimal] and [timedelta] are
    imported under [if __name__ == "__main__":] only, and are unbound
    names when the module is imported. *)
Variable run_as_main : bool.

(** [except (ValueError, TypeError, decimal.InvalidOperation):] the tuple
    is evaluated when an exception reaches the clause. *)
Definition except_decimal {A : Type} (e : exn) (handler : result A)
  : result A :=
  if run_as_main then
    match e with
    | ValueError | TypeError | InvalidOperation => handler
    | _ => Raise e
    end
  else Raise NameError.

Definition try_decimal {A : Type} (body handler : result A) : result A :=
  match body with
  | Ok a => Ok a
  | Raise e => except_decimal e handler
  end.

(** [clean_currency(value)] *)
Definition clean_currency (value : cell) : result (option dec) :=
  if is_missing value then Ok None
  else
    let value_str := str value in
    let value_str := strip_noise value_str in
    let value_str := unparenthesize value_str in
    let '(multiplier, value_str) := split_suffix value_str in
    try_decimal
      (d <- Decimal value_str ;;
       p <- dec_mul_int d multiplier ;;
       Ok (Some p))%py
      (Ok None).

(** [clean_percentage(value)] *)
Definition clean_percentage (value : cell) : result (option dec) :=
  if is_missing value then Ok None
  else
    let value_str := percentage_text value in
    try_decimal
      (pct <- Decimal value_str ;;
       small <- dec_le pct (dec_of_Z 1) ;;
       pct <- (if small then dec_mul_int pct 100 else Ok pct) ;;
       Ok (Some pct))%py
      (Ok None).

Context {L : DateLib}.

(** [parse_date(value)]; both [except:] clauses catch everything. *)
Definition parse_date (value : cell) : option datetime :=
  if is_missing value then None
  else
    let serial :=
      match value with
      | CInt z => if run_as_main then from_1900 (z - 2) else None
      | CFloat x =>
          match float_to_Z x with
          | Ok z => if run_as_main then from_1900 (z - 2) else None
          | Raise _ => None
          end
      | _ => None
      end in
    match serial with
    | Some d => Some d
    | None => date_parse (str value)
    end.
End Cleaning.


(** [[^\w\s-]] and [[-\s]+], the two patterns of the generated slug *)
Definition slug_noise : regex :=
  Chr (fun x => negb (is_word x || is_space x || ascii_eqb x "-")).
Definition slug_separators : regex :=
  plus (Chr (fun x => ascii_eqb x "-" || is_space x)).

(** [Total|Summary|Grand], searched with [case=False] *)
Definition aggregate_pattern : regex :=
  alts [word true "Total"; word true "Summary"; word true "Grand"].

(** [df.iloc[:, 0].astype(str).str.contains(...)] for one row; a short row
    reads as missing values. *)
Definition is_aggregate (row : list cell) : bool :=
  match search aggregate_pattern (str (nth 0 row CNaN)) with
  | Some _ => true
  | None => false
  end.

(** [row[col]]: the cell under a column name, or a [Series] of cells when
    several columns carry that name. *)
Inductive access : Type :=
| One (c : cell)
| Many.

Definition has_name (col : text) (c : cell) : bool :=
  match c with
  | CStr s => text_eqb s col
  | _ => false
  end.

Fixpoint cells_named (col : text) (columns row : list cell) : list cell :=
  match columns with
  | [] => []
  | c :: columns' =>
      (if has_name col c then [nth 0 row CNaN] else [])
      ++ cells_named col columns' (skipn 1 row)
  end.

Definition row_at (columns row : list cell) (col : text) : access :=
  match cells_named col columns row with
  | [c] => One c
  | _ => Many
  end.

(** [pd.isna(x)] used as a condition: the truth value of a [Series] is
    ambiguous. *)
Definition truth_isna (a : access) : result bool :=
  match a with
  | One c => Ok (isna c)
  | Many => Raise ValueError
  end.

Section ParseFile.
Variable run_as_main : bool.
Context {L : DateLib}.

(** [self.company_lookup], in the order it was built *)
Variable company_lookup : list (text * text).

(** The values of a record. *)
Inductive rec_value : Type :=
| RNone
| RText (s : text)
| RInt (z : Z)
| RDec (d : dec)
| RDate (d : datetime).

Definition record := list (text * rec_value).

(** An entry of [self.reconciliation_log]. *)
Inductive log_entry : Type :=
| NotFound (row : Z) (company_name suggested_id : text)
    (* issue: 'Company not found in database' *)
| Issues (row : Z) (company_name issue : text) (data : record)
| RowError (row : Z) (error : exn).

Definition of_dec (o : option dec) : rec_value :=
  match o with
  | Some d => RDec d
  | None => RNone
  end.

(** [record.get(k)] used as a condition *)
Definition truthy (k : string) (rec : record) : bool :=
  match dict_get (txt k) rec with
  | Some (RDec d) => dec_bool d
  | Some (RDate _) => true
  | Some (RText s) => negb (is_empty s)
  | Some (RInt z) => negb (Z.eqb z 0)
  | Some RNone | None => false
  end.

(** The company name read from the row, or [None] when the row is
    skipped: the first mapped column is missing, or no company name. *)
Definition read_company_name (columns : list cell)
  (column_mapping : list (text * string)) (row : list cell)
  : result (option text) :=
  match column_mapping with
  | [] => Ok None
  | (first, _) :: _ =>
      (blank <- truth_isna (row_at columns row first) ;;
       if blank then Ok None
       else
         match find (fun p => String.eqb (snd p) "company") column_mapping with
         | None => Ok None
         | Some (col, _) =>
             blank <- truth_isna (row_at columns row col) ;;
             match row_at columns row col with
             | One c =>
                 let company_name := strip (str c) in
                 if blank || is_empty company_name then Ok None
                 else Ok (Some company_name)
             | Many => Raise ValueError
             end
         end)%py
  end.

(** The first entry of the directory that contains the name or is
    contained in it. *)
Definition fuzzy_match (normalized_name : text) : option text :=
  option_map snd
    (find (fun p => contains normalized_name (fst p)
                    || contains (fst p) normalized_name) company_lookup).

Definition generate_slug (company_name : text) : text :=
  let company_id := sub slug_noise [] (lower company_name) in
  strip_by (fun x => ascii_eqb x "-") (sub slug_separators (txt "-") company_id).

Definition falsy (o : option text) : bool :=
  match o with
  | None => true
  | Some s => is_empty s
  end.

(** The company id of a row and the log entry it causes, if any. *)
Definition resolve_company (rownum : Z) (company_name : text)
  : text * list log_entry :=
  let normalized_name := _normalize_company_name company_name in
  let company_id := dict_get normalized_name company_lookup in
  let company_id :=
    if falsy company_id then
      match fuzzy_match normalized_name with
      | Some lookup_id => Some lookup_id
      | None => company_id
      end
    else company_id in
  if falsy company_id then
    let slug := generate_slug company_name in
    (slug, [NotFound rownum company_name slug])
  else (or_else company_id [], []).

(** [record[k] = f(value)]; every [f] tests [pd.isna(value)] or
    [pd.notna(value)] first. *)
Definition set_cleaned (value : access) (rec : record)
  (f : cell -> result rec_value) (k : string) : result record :=
  match value with
  | One c => bind (f c) (fun v => Ok (dict_set (txt k) v rec))
  | Many => Raise ValueError
  end.

(** One step of the loop over the mapped columns. *)
Definition clean_field (columns row : list cell) (rec : record)
  (m : text * string) : result record :=
  let (col, mapped) := m in
  let cleaned := set_cleaned (row_at columns row col) rec in
  if String.eqb mapped "amount_invested" then
    cleaned (fun c => bind (clean_currency run_as_main c)
                        (fun d => Ok (of_dec d))) "amount_invested"%string
  else if String.eqb mapped "distributions" then
    cleaned (fun c => bind (clean_currency run_as_main c)
                        (fun d => Ok (of_dec d))) "distributions"%string
  else if String.eqb mapped "ownership" then
    cleaned (fun c => bind (clean_percentage run_as_main c)
                        (fun d => Ok (of_dec d))) "ownership_pct"%string
  else if String.eqb mapped "date" then
    cleaned (fun c => Ok (match parse_date run_as_main c with
                          | Some d => RDate d
                          | None => RNone
                          end)) "investment_date"%string
  else if String.eqb mapped "round_type" then
    cleaned (fun c => Ok (if isna c then RNone else RText (strip (str c))))
            "round_type"%string
  else if String.eqb mapped "valuation" then
    cleaned (fun c => bind (clean_currency run_as_main c)
                        (fun d => Ok (of_dec d))) "pre_money_valuation"%string
  else if String.eqb mapped "status" then
    cleaned (fun c => Ok (if isna c then RText (txt "active")
                          else RText (lower (strip (str c))))) "status"%string
  else Ok rec.

Fixpoint clean_fields (columns row : list cell) (rec : record)
  (column_mapping : list (text * string)) : result record :=
  match column_mapping with
  | [] => Ok rec
  | m :: rest =>
      bind (clean_field columns row rec m)
           (fun rec' => clean_fields columns row rec' rest)
  end.

Definition get_dec (k : string) (rec : record) : dec :=
  match dict_get (txt k) rec with
  | Some (RDec d) => d
  | _ => DFin false 0 0
  end.

Definition of_option {A : Type} (e : exn) (o : option A) : result A :=
  match o with
  | Some a => Ok a
  | None => Raise e
  end.

(** The validation rules; the list of issues found. *)
Definition validate (rec : record) : result (list text) :=
  (issues1 <-
     (if truthy "amount_invested" rec && truthy "distributions" rec then
        limit <- dec_mul_int (get_dec "amount_invested" rec) 10 ;;
        over <- dec_gt (get_dec "distributions" rec) limit ;;
        Ok (if over then [txt "Distributions exceed 10x investment"] else [])
      else Ok []) ;;
   issues2 <-
     (if truthy "ownership_pct" rec then
        let pct := get_dec "ownership_pct" rec in
        over <- dec_gt pct (dec_of_Z 100) ;;
        if over then Ok [txt "Ownership > 100%: " ++ dec_to_text pct]
        else
          under <- dec_lt pct (dec_of_Z 0) ;;
          Ok (if under then [txt "Negative ownership: " ++ dec_to_text pct]
              else [])
      else Ok []) ;;
   issues3 <-
     match dict_get (txt "investment_date") rec with
     | Some (RDate d) =>
         future <- of_option TypeError (dt_gt d now) ;;
         if future then Ok [txt "Future investment date"]
         else
           old <- of_option TypeError (dt_lt d jan_1990) ;;
           Ok (if old then [txt "Investment date before 1990"] else [])
     | _ => Ok []
     end ;;
   Ok (issues1 ++ issues2 ++ issues3))%py.

(** What becomes of one data row. *)
Inductive outcome : Type :=
| Skipped_row                 (* [continue]: a blank row *)
| Emitted (rec : record)      (* appended to [extracted_data] *)
| Failed (e : exn).           (* caught by [except Exception] *)

(** The body of the loop over the rows: the entries added to the
    reconciliation log and the outcome.  [idx] is the index of the row
    below the header, from 0. *)
Definition process_row (columns : list cell)
  (column_mapping : list (text * string)) (header_row : nat)
  (idx : nat) (row : list cell) : list log_entry * outcome :=
  let rownum := (Z.of_nat idx + Z.of_nat header_row + 2)%Z in
  match read_company_name columns column_mapping row with
  | Raise e => ([RowError rownum e], Failed e)
  | Ok None => ([], Skipped_row)
  | Ok (Some company_name) =>
      let (company_id, not_found) := resolve_company rownum company_name in
      let rec :=
        [(txt "company_id", RText company_id);
         (txt "company_name", RText company_name);
         (txt "source_row", RInt rownum)] in
      match (rec <- clean_fields columns row rec column_mapping ;;
             issues <- validate rec ;;
             Ok (rec, issues))%py with
      | Raise e => (not_found ++ [RowError rownum e], Failed e)
      | Ok (rec, issues) =>
          (not_found ++
           (if is_empty issues then []
            else [Issues rownum company_name (join (txt "; ") issues) rec]),
           Emitted rec)
      end
  end.

(** The data rows below the header with their index, after the
    aggregate rows were removed. *)
Definition data_rows (df : list (list cell)) (header_row : nat)
  : list (list cell) := skipn (header_row + 1) df.

Definition indexed {A : Type} (l : list A) : list (nat * A) :=
  combine (seq 0 (length l)) l.

Definition kept_rows (df : list (list cell)) (header_row : nat)
  : list (nat * list cell) :=
  filter (fun p => negb (is_aggregate (snd p)))
         (indexed (data_rows df header_row)).

(** The outcomes of the kept rows, in order. *)
Definition outcomes (df : list (list cell)) (header_row : nat)
  (columns : list cell) : list (list log_entry * outcome) :=
  map (fun p => process_row columns (map_columns columns) header_row
                  (fst p) (snd p))
      (kept_rows df header_row).

Definition emitted (o : list log_entry * outcome) : list record :=
  match snd o with
  | Emitted rec => [rec]
  | _ => []
  end.

(** [parse_file(file_path)] on the data frame read from the file, with
    [self.reconciliation_log] as it stands: [extracted_data] and the
    log.  An empty frame has no header row to index. *)
Definition parse_file (df : list (list cell))
  (reconciliation_log : list log_entry)
  : result (list record * list log_entry) :=
  let header_row := find_header_row df in
  match nth_error df header_row with
  | None => Raise IndexError
  | Some columns =>
      let os := outcomes df header_row columns in
      Ok (flat_map emitted os, reconciliation_log ++ flat_map fst os)
  end.
End ParseFile.


(* ===================================================================== *)
(** * Test data of test-suite.py                                          *)
(* ===================================================================== *)

(** [TestData.SAMPLE_EMAILS], entry [update_email] *)
Definition update_email : email :=
  {| subject := txt "[UPDATE] BrightWheel - January 2025 Update";
     body := lines [
       "";
       "            Hi MCC Team,";
       "            ";
       "            Here's our January 2025 update:";
       "            ";
       "            Metrics:";
       "            - ARR: $15.5M (up from $14.2M last month)";
       "            - Cash: $8.2M";
       "            - Runway: 18 months";
       "            - Headcount: 52 (added 3 engineers)";
       "            - Monthly burn: $455k";
       "            ";
       "            Highlights:";
       "            - Closed 3 enterprise deals worth $2.1M in ARR";
       "            - Launched new billing module";
       "            - Featured in EdTech Magazine as top startup";
       "            ";
       "            Challenges:";
       "            - Sales cycle lengthening for enterprise deals";
       "            - Need to hire senior VP of Sales";
       "            ";
       "            Asks:";
       "            - Introduction to other portfolio companies in EdTech";
       "            - Advice on sales compensation structure";
       "            ";
       "            Best,";
       "            Dave";
       "            "
     ]%string;
     from_address := txt "dave@brightwheel.com";
     message_id := txt "AAMkAGI2TG93AAA=";
     receivedDateTime := txt "2025-01-31T10:30:00Z" |}.

(** [TestData.SAMPLE_EMAILS], entry [investment_email] *)
Definition investment_email : email :=
  {| subject := txt "Chapul Series A Closing - MCC Investment Confirmation";
     body := lines [
       "";
       "            Mark and Team,";
       "            ";
       "            Confirming MCC's $750,000 investment in our Series A round.";
       "            ";
       "            Round Details:";
       "            - Total Round Size: $5M";
       "            - Pre-money valuation: $15M";
       "            - Post-money: $20M";
       "            - MCC ownership: 3.75% on a fully diluted basis";
       "            - Lead Investor: GreenTech Ventures";
       "            - Close Date: January 20, 2025";
       "            ";
       "            Wire received, thanks for your continued support!";
       "            ";
       "            Pat";
       "            "
     ]%string;
     from_address := txt "pat@chapul.com";
     message_id := txt "AAMkAGI2TG95CCC=";
     receivedDateTime := txt "2025-01-20T09:15:00Z" |}.

(** The extraction result built in [test_json_schema_validation]. *)
Definition sample_result : envelope :=
  {| company_id := Some (txt "brightwheel");
     source_ptr :=
       {| source_type := txt "email";
          source_id := txt "AAMkAGI2TG93AAA=";
          storage_url := txt "graph://messages/AAMkAGI2TG93AAA=" |};
     facts :=
       [(txt "updates",
         FList [[(txt "period_start", VStr (txt "2025-01-01"));
                 (txt "period_end", VStr (txt "2025-01-31"));
                 (txt "report_period", VStr (txt "2025-01"));
                 (txt "metrics", VMap [(txt "ARR", txt "15500000")]);
                 (txt "confidence", VNum (85 # 100))]])];
     confidence_overall := 85 # 100;
     spans := [];
     anomalies := [];
     assumptions := [txt "currency defaulted to USD"] |}.

Definition empty_store : store :=
  {| cashflow_table := []; ownership_table := []; update_table := [];
     ingestion_log := [] |}.

(** A date library for concrete runs: a date is a day number, every
    non-empty text parses, and dates print as their day number. *)
Definition day_numbers : DateLib :=
  {| datetime := Z;
     date_parse := fun s => if is_empty s then None else Some 45688%Z;
     now := 46328%Z;
     minus_days := fun d n => Some (d - n)%Z;
     from_1900 := fun n => Some n;
     jan_1990 := 32874%Z;
     dt_gt := fun a b => Some (Z.gtb a b);
     dt_lt := fun a b => Some (Z.ltb a b);
     isoformat := str_of_Z;
     strftime_Y_m := str_of_Z |}.


(* ===================================================================== *)
(** * Vocabulary of the properties                                        *)
(* ===================================================================== *)

(** The confidences of the items of one list. *)
Definition list_confidences (items : list fact) : list value :=
  flat_map (fun item => match item_confidence item with
                        | Some c => [c]
                        | None => []
                        end) items.

(** A confidence the extractor assigns: a number between 0.7 and 1. *)
Definition assigned (v : value) : Prop :=
  exists q, v = VNum q /\ (7 # 10 <= q)%Q /\ (q <= 1)%Q.

(** The kinds of fact that [facts] maps to a list. *)
Definition fact_kinds : list text :=
  map txt ["rounds"; "ownerships"; "cashflows"; "updates"; "contacts";
           "documents"]%string.

(** What every step of the extraction keeps. *)
Record well_formed (r : envelope) : Prop := {
  wf_assumptions : assumptions r = [txt "currency defaulted to USD"];
  wf_company : exists d, dict_get (txt "company") (facts r) = Some (FDict d);
  wf_lists : forall k, In k fact_kinds ->
             exists items, dict_get k (facts r) = Some (FList items);
  wf_confidences : Forall assigned (confidences (facts r))
}.



(* ===================================================================== *)
(** * Vocabulary of the row count                                         *)
(* ===================================================================== *)

Section RowCount.
Variable run_as_main : bool.
Context {L : DateLib}.
Variable company_lookup : list (text * text).






End RowCount.

(** A frame with a header and one data row whose amount is the text
    [NaNk]. *)
Definition nan_frame : list (list cell) :=
  [ [CStr (txt "Company"); CStr (txt "Amount"); CStr (txt "Distributions")];
    [CStr (txt "Acme"); CStr (txt "NaNk"); CStr (txt "5")] ].


(** The rational value of the finite decimal [(-1)^neg * c * 10^e]. *)
Definition fin_value (neg : bool) (c : N) (e : Z) : Q :=
  let a := (if neg then - Z.of_N c else Z.of_N c)%Z in
  if (0 <=? e)%Z then inject_Z (a * 10 ^ e)
  else Qmake a (Z.to_pos (10 ^ (- e))).


(* ===================================================================== *)
(** * Vocabulary of the currency values                                   *)
(* ===================================================================== *)

(** What a Python function returns here: [None], a [Decimal] or a [str]. *)
Inductive pyvalue : Type :=
| PyNone
| PyDecimal (d : dec)
| PyStr (s : text).

Definition returned (r : option dec) : pyvalue :=
  match r with
  | Some d => PyDecimal d
  | None => PyNone
  end.












(* ===================================================================== *)
(** * Vocabulary of the company names                                     *)
(* ===================================================================== *)



(** A character that every step of the normalization leaves in place. *)
Definition low (c : ascii) : bool :=
  is_word c && ascii_eqb (lower_char c) c.



(** The least number of characters a match of the pattern consumes. *)
Fixpoint min_len (r : regex) : nat :=
  match r with
  | Eps => 0
  | Chr _ => 1
  | Seq r1 r2 => min_len r1 + min_len r2
  | Alt r1 r2 => Nat.min (min_len r1) (min_len r2)
  | Star _ => 0
  | Grp _ r1 => min_len r1
  | WordB => 0
  end.


(* ===================================================================== *)
(** * azure-function-email-ingestion.py: class CompanyMatcher             *)
(* ===================================================================== *)

(** [s.split(sep)] for a one-character separator: the pieces between the
    separators, empty ones included.  [cur] is the piece being read,
    reversed. *)
Fixpoint split_on_go (sep : ascii) (cur : text) (s : text) : list text :=
  match s with
  | [] => [rev cur]
  | c :: s' =>
      if ascii_eqb c sep then rev cur :: split_on_go sep [] s'
      else split_on_go sep (c :: cur) s'
  end.

Definition split_on (sep : ascii) (s : text) : list text :=
  split_on_go sep [] s.

(** [(?:https?://)?(?:www\.)?([^/]+)] *)
Definition website_pattern : regex :=
  seqs [opt (seqs [word false "http"; opt (ch "s"); word false "://"]);
        opt (word false "www.");
        Grp 1 (plus (Chr (fun x => negb (ascii_eqb x "/"))))].

(** [re.findall(pattern, s)] for a pattern with one group *)
Definition findall (r : regex) (s : text) : list text :=
  map (m_group 1) (finditer r s).

(** A row of [portfolio.company] as the query returns it; a column that is
    [NULL] reads as [None]. *)
Record company_row : Type := {
  row_company_id : text;
  row_legal_name : option text;
  row_aka : option text;
  row_website : option text
}.

(** [if x:] for a column that holds a string or [None] *)
Definition column_truthy (o : option text) : bool := negb (falsy o).

(** The body of the loop of [_load_company_mappings]; [.lower()] on a
    legal name that is [None] raises [AttributeError]. *)
Definition load_row (mappings : list (text * text)) (row : company_row)
  : result (list (text * text)) :=
  let mappings :=
    if column_truthy (row_website row) then
      match findall website_pattern (or_else (row_website row) []) with
      | domain :: _ => dict_set (lower domain) (row_company_id row) mappings
      | [] => mappings
      end
    else mappings in
  match row_legal_name row with
  | None => Raise AttributeError
  | Some legal_name =>
      let mappings :=
        dict_set (lower legal_name) (row_company_id row) mappings in
      Ok (if column_truthy (row_aka row)
          then dict_set (lower (or_else (row_aka row) []))
                 (row_company_id row) mappings
          else mappings)
  end.

Fixpoint load_rows (mappings : list (text * text)) (rows : list company_row)
  : result (list (text * text)) :=
  match rows with
  | [] => Ok mappings
  | row :: rest => bind (load_row mappings row) (fun m => load_rows m rest)
  end.

(** [_load_company_mappings()] on the rows of the table *)
Definition _load_company_mappings (rows : list company_row)
  : result (list (text * text)) := load_rows [] rows.

(** [email_from.split('@')[1].lower() if '@' in email_from else None] *)
Definition sender_domain (email_from : text) : option text :=
  if existsb (fun c => ascii_eqb c "@") email_from
  then Some (lower (nth 1 (split_on "@" email_from) []))
  else None.

(** [match_company(email_from, subject, body)] with [self.company_cache] *)
Definition match_company (company_cache : list (text * text))
  (email_from subject body : text) : option text :=
  let by_domain :=
    match sender_domain email_from with
    | Some domain =>
        if is_empty domain then None else dict_get domain company_cache
    | None => None
    end in
  match by_domain with
  | Some company_id => Some company_id
  | None =>
      let t := lower (subject ++ txt " " ++ body) in
      option_map snd (find (fun p => contains (fst p) t) company_cache)
  end.

(* ===================================================================== *)
(** * csv-parser-backfill.py: persist_to_database                         *)
(* ===================================================================== *)

(** The four tables the backfill writes, as lists of rows, oldest first.
    A column holds the Python value passed for it. *)
Section CsvPersist.
Context {L : DateLib}.

(** [record.get('investment_date', datetime.now().date())]: the value under
    the key when the record has the key, be it [None], and today's date
    only when it has not. *)
Inductive sql_date : Type :=
| Given (v : rec_value)
| Today.

Record company_entry : Type := {
  co_company_id : rec_value;
  co_legal_name : rec_value;
  co_status : rec_value
}.

Inductive cashflow_kind : Type := Investment | Distribution.

(** [notes] is ['CSV import row {source_row}'], followed for a distribution
    by [' - cumulative distributions']; the row number is kept as it is. *)
Record csv_cashflow : Type := {
  ccf_company_id : rec_value;
  ccf_date : sql_date;
  ccf_kind : cashflow_kind;
  ccf_amount : rec_value;
  ccf_source_row : rec_value
}.

Record csv_ownership : Type := {
  cow_company_id : rec_value;
  cow_as_of_date : sql_date;
  cow_fully_diluted_pct : rec_value;
  cow_source_row : rec_value
}.

Record round_entry : Type := {
  rd_company_id : rec_value;
  rd_type : rec_value;
  rd_close_date : rec_value;
  rd_amount_invested_by_mcc : rec_value;
  rd_pre_money : rec_value
}.

Record csv_store : Type := {
  company_table : list company_entry;
  csv_cashflow_table : list csv_cashflow;
  csv_ownership_table : list csv_ownership;
  round_table : list round_entry
}.

(** The unique constraints the [ON CONFLICT] clauses name, (company_id),
    (company_id, date, amount, wire_ref) and (company_id, as_of_date,
    security_class): they are declared in the schema, which is not among
    the sources, and are parameters here. *)
Variable company_collides : company_entry -> company_entry -> bool.
Variable cashflow_collides : csv_cashflow -> csv_cashflow -> bool.
Variable ownership_collides : csv_ownership -> csv_ownership -> bool.

(** [record[k]]; [KeyError] when the key is missing *)
Definition rec_item (k : string) (rec : record) : result rec_value :=
  of_option KeyError (dict_get (txt k) rec).

(** [record.get(k, default)] *)
Definition rec_get_or (k : string) (default : rec_value) (rec : record)
  : rec_value := or_else (dict_get (txt k) rec) default.

Definition date_or_today (rec : record) : sql_date :=
  match dict_get (txt "investment_date") rec with
  | Some v => Given v
  | None => Today
  end.

(** [ON CONFLICT (company_id) DO UPDATE SET status =
    COALESCE(EXCLUDED.status, company.status)] *)
Fixpoint upsert_company (row : company_entry) (t : list company_entry)
  : list company_entry :=
  match t with
  | [] => [row]
  | old :: t' =>
      if company_collides row old
      then {| co_company_id := co_company_id old;
              co_legal_name := co_legal_name old;
              co_status := match co_status row with
                           | RNone => co_status old
                           | s => s
                           end |} :: t'
      else old :: upsert_company row t'
  end.

(** [ON CONFLICT (...) DO NOTHING RETURNING cashflow_id] *)
Definition insert_csv_cashflow (row : csv_cashflow) (t : list csv_cashflow)
  : list csv_cashflow * bool :=
  if existsb (cashflow_collides row) t then (t, false) else (t ++ [row], true).

(** [ON CONFLICT (...) DO UPDATE SET fully_diluted_pct =
    EXCLUDED.fully_diluted_pct] *)
Fixpoint upsert_csv_ownership (row : csv_ownership) (t : list csv_ownership)
  : list csv_ownership :=
  match t with
  | [] => [row]
  | old :: t' =>
      if ownership_collides row old
      then {| cow_company_id := cow_company_id old;
              cow_as_of_date := cow_as_of_date old;
              cow_fully_diluted_pct := cow_fully_diluted_pct row;
              cow_source_row := cow_source_row old |} :: t'
      else old :: upsert_csv_ownership row t'
  end.

(** The round of a record, which is inserted when the record has an
    amount and a date. *)
Definition round_of (company_id : rec_value) (rec : record) : round_entry :=
  {| rd_company_id := company_id;
     rd_type := rec_get_or "round_type" (RText (txt "Unknown")) rec;
     rd_close_date := rec_get_or "investment_date" RNone rec;
     rd_amount_invested_by_mcc := rec_get_or "amount_invested" RNone rec;
     rd_pre_money := rec_get_or "pre_money_valuation" RNone rec |}.

Definition has_round (rec : record) : bool :=
  truthy "amount_invested" rec && truthy "investment_date" rec.

(** The body of the loop over the records. *)
Definition persist_record (state : csv_store * list (text * Z))
  (rec : record) : result (csv_store * list (text * Z)) :=
  let (db, counts) := state in
  (company_id <- rec_item "company_id" rec ;;
   company_name <- rec_item "company_name" rec ;;
   let companies :=
     upsert_company
       {| co_company_id := company_id; co_legal_name := company_name;
          co_status := rec_get_or "status" (RText (txt "active")) rec |}
       (company_table db) in
   let counts := incr "companies" counts in
   '(cashflows, counts) <-
     (if truthy "amount_invested" rec then
        amount <- rec_item "amount_invested" rec ;;
        source_row <- rec_item "source_row" rec ;;
        let (t, returned) :=
          insert_csv_cashflow
            {| ccf_company_id := company_id; ccf_date := date_or_today rec;
               ccf_kind := Investment; ccf_amount := amount;
               ccf_source_row := source_row |} (csv_cashflow_table db) in
        Ok (t, if returned then incr "cashflows" counts else counts)
      else Ok (csv_cashflow_table db, counts)) ;;
   '(cashflows, counts) <-
     (if truthy "distributions" rec then
        amount <- rec_item "distributions" rec ;;
        source_row <- rec_item "source_row" rec ;;
        let (t, returned) :=
          insert_csv_cashflow
            {| ccf_company_id := company_id; ccf_date := Today;
               ccf_kind := Distribution; ccf_amount := amount;
               ccf_source_row := source_row |} cashflows in
        Ok (t, if returned then incr "cashflows" counts else counts)
      else Ok (cashflows, counts)) ;;
   '(ownerships, counts) <-
     (if truthy "ownership_pct" rec then
        pct <- rec_item "ownership_pct" rec ;;
        source_row <- rec_item "source_row" rec ;;
        Ok (upsert_csv_ownership
              {| cow_company_id := company_id;
                 cow_as_of_date := date_or_today rec;
                 cow_fully_diluted_pct := pct;
                 cow_source_row := source_row |} (csv_ownership_table db),
            incr "ownerships" counts)
      else Ok (csv_ownership_table db, counts)) ;;
   let (rounds, counts) :=
     if has_round rec
     then (round_table db ++ [round_of company_id rec], incr "rounds" counts)
     else (round_table db, counts) in
   Ok ({| company_table := companies; csv_cashflow_table := cashflows;
          csv_ownership_table := ownerships; round_table := rounds |},
       counts))%py.

Fixpoint persist_records (state : csv_store * list (text * Z))
  (extracted_data : list record) : result (csv_store * list (text * Z)) :=
  match extracted_data with
  | [] => Ok state
  | rec :: rest =>
      bind (persist_record state rec) (fun s => persist_records s rest)
  end.

(** [persist_to_database(extracted_data)] with a database connection: the
    database after the commit and the counters returned.  When the call
    raises, the transaction is rolled back. *)
Definition persist_to_database (db : csv_store) (extracted_data : list record)
  : result (csv_store * list (text * Z)) :=
  persist_records
    (db, [(txt "companies", 0); (txt "rounds", 0); (txt "cashflows", 0);
          (txt "ownerships", 0)]%Z)
    extracted_data.
End CsvPersist.

(* ===================================================================== *)
(** * Vocabulary of the further properties                                *)
(* ===================================================================== *)

(** Header variations of [COLUMN_MAPPINGS], each with the canonical name
    it is listed under, that contain a variation of an earlier entry. *)
Definition shadowed_variations : list (string * string) :=
  [ ("Company Status", "status"); ("Company Valuation", "valuation");
    ("Investment Date", "date"); ("First Investment Date", "date");
    ("Initial Investment", "date"); ("Investment Type", "round_type");
    ("Investment Round", "round_type"); ("Investment Status", "status")
  ]%string.

(** The keys every record starts from. *)
Definition identity_keys : list text :=
  [txt "company_id"; txt "company_name"; txt "source_row"].

(** The spreadsheet rows the records of a list come from. *)
Definition source_rows {L : DateLib} (records : list record) : list Z :=
  flat_map (fun rec => match dict_get (txt "source_row") rec with
                       | Some (RInt z) => [z]
                       | _ => []
                       end) records.

(** A small sheet: a title line, the header, two companies, an empty line
    and the totals. *)
Definition sample_frame : list (list cell) :=
  [ [CStr (txt "MCC holdings"); CNaN; CNaN; CNaN];
    [CStr (txt "Company"); CStr (txt "Amount"); CStr (txt "Equity %");
     CStr (txt "Date")];
    [CStr (txt "Acme, Inc."); CStr (txt "$1,500k"); CStr (txt "0.15");
     CStr (txt "2021-03-01")];
    [CStr (txt "Grand Rounds"); CStr (txt "250000"); CStr (txt "2%");
     CStr (txt "2022-07-15")];
    [CNaN; CNaN; CNaN; CNaN];
    [CStr (txt "Bolt Co"); CStr (txt "(1.2M)"); CStr (txt "n/a"); CNaN];
    [CStr (txt "Total"); CStr (txt "$1,750k"); CNaN; CNaN] ].

(** Whether the pattern matches at the start of the text. *)
Definition matches_here (r : regex) (pw : bool) (s : text) : bool :=
  match match_here r pw s with
  | Some _ => true
  | None => false
  end.

(** [result['facts'][kind]], read as a list. *)
Definition fact_list (kind : string) (r : envelope) : list fact :=
  match dict_get (txt kind) (facts r) with
  | Some (FList items) => items
  | _ => []
  end.

(** One field of every fact of a kind. *)
Definition field_of (kind field : string) (r : envelope) : list (option value) :=
  map (dict_get (txt field)) (fact_list kind r).

(** What [parse_file] returns for the small sheet, run as a script with an
    empty directory and an empty log. *)
Definition sample_parse : list (@record day_numbers) * list (@log_entry day_numbers) :=
  Eval vm_compute in
    match @parse_file true day_numbers [] sample_frame [] with
    | Ok p => p
    | Raise _ => ([], [])
    end.

(** The rounds [persist_to_database] inserts for a list of records. *)
Definition rounds_of {L : DateLib} (extracted_data : list record)
  : list round_entry :=
  flat_map (fun rec => if has_round rec
                       then [round_of (rec_get_or "company_id" RNone rec) rec]
                       else [])
           extracted_data.

Definition empty_csv_store {L : DateLib} : csv_store :=
  {| company_table := []; csv_cashflow_table := []; csv_ownership_table := [];
     round_table := [] |}.

(** Unique constraints for concrete runs: no two rows collide. *)
Definition never {A : Type} (a b : A) : bool := false.

(** The records that have an ownership percentage to write. *)
Definition with_ownership {L : DateLib} (extracted_data : list record)
  : list record :=
  filter (truthy "ownership_pct") extracted_data.

(** The four counters of a dictionary that holds them. *)
Definition counters (counts : list (text * Z)) (a b c d : Z) : Prop :=
  dict_get (txt "companies") counts = Some a
  /\ dict_get (txt "rounds") counts = Some b
  /\ dict_get (txt "cashflows") counts = Some c
  /\ dict_get (txt "ownerships") counts = Some d.


(** Whether a header has a column that is read as the date. *)
Definition has_date_column (columns : list cell) : bool :=
  existsb (fun m : text * string => String.eqb (snd m) "date")
          (map_columns columns).

(* ===================================================================== *)
(** * Part IV.  Properties                                                *)
(* ===================================================================== *)

Unset Implicit Arguments.

(** ** Amount extraction on the inputs of [test_amount_extraction] *)

(** C1.  The claim asks, for each of the five strings of
    [test_amount_extraction], that the first amount returned is the literal
    value with its magnitude suffix applied.  The code returns this for the
    first two strings only: for ["$450k"] the currency pattern is tried
    first and yields 450 before the suffix pattern yields 450000; for
    ["15 million dollars"] nothing matches and the list is empty; for
    ["$1.2B"] the currency pattern yields 1 first. *)
Theorem extract_amounts_test_cases :
  extract_amounts (txt "Revenue is $1,234,567.89 this quarter")
    = Ok [(DFin false 123456789 (-2), 90%Z)]
  /\ extract_amounts (txt "We raised 2.5M in funding")
    = Ok [(DFin false 25000000 (-1), 90%Z)]
  /\ extract_amounts (txt "Burn rate: $450k monthly")
    = Ok [(DFin false 450 0, 90%Z); (DFin false 450000 0, 90%Z)]
  /\ extract_amounts (txt "valuation of 15 million dollars") = Ok []
  /\ extract_amounts (txt "$1.2B market cap")
    = Ok [(DFin false 1 0, 90%Z); (DFin false 12000000000 (-1), 90%Z)].
Proof. repeat split; vm_compute; reflexivity. Qed.

(** The suffix pattern also takes a following currency word into the
    match, after which the last character is no longer the suffix and the
    multiplier is not applied. *)
Example extract_amounts_suffix_then_word :
  extract_amounts (txt "5k USD") = Ok [(DFin false 5 0, 90%Z)].
Proof. vm_compute; reflexivity. Qed.

(** ** The investment confirmation of the test suite *)

Lemma investment_email_run (L : DateLib) :
  extract_from_email investment_email
  = Ok (set_confidence_overall (1 # 2)
          (initial_result (message_id investment_email))).
Proof. vm_compute; reflexivity. Qed.

(** C3.  The investment email of the test suite contains
    ["$750,000 investment"] and ["3.75% on a fully diluted basis"], and
    extraction returns an envelope with no cash flow and no ownership: the
    text does not contain the word "invested", and no ownership pattern
    accepts a percentage that comes before "fully diluted". *)
Theorem investment_email_no_facts : forall L : DateLib,
  contains (txt "$750,000 investment") (full_text investment_email) = true
  /\ contains (txt "3.75% on a fully diluted basis")
       (full_text investment_email) = true
  /\ exists env,
       extract_from_email investment_email = Ok env
       /\ dict_get (txt "cashflows") (facts env) = Some (FList [])
       /\ dict_get (txt "ownerships") (facts env) = Some (FList []).
Proof.
  intro L. split; [vm_compute; reflexivity|].
  split; [vm_compute; reflexivity|].
  eexists. split; [apply investment_email_run|].
  split; vm_compute; reflexivity.
Qed.

(** ** The company update of the test suite *)

Lemma update_email_type :
  _classify_email (subject update_email) (body update_email) = UPDATE.
Proof. vm_compute; reflexivity. Qed.

Lemma update_email_metrics :
  extract_metrics (full_text update_email)
  = Ok [(txt "ARR", txt "15500000.0"); (txt "runway_months", txt "18");
        (txt "headcount", txt "52"); (txt "burn_rate", txt "455000.0");
        (txt "cash", txt "8199999.999999999")].
Proof. vm_compute; reflexivity. Qed.

Lemma update_email_not_invested :
  contains (txt "invested") (lower (full_text update_email)) = false.
Proof. vm_compute; reflexivity. Qed.

Lemma update_email_ownership :
  extract_ownership (full_text update_email) = Ok None.
Proof. vm_compute; reflexivity. Qed.

Lemma update_email_amounts :
  exists l, extract_amounts (full_text update_email) = Ok l.
Proof. eexists; vm_compute; reflexivity. Qed.

Lemma add_cashflows_not_invested (L : DateLib) t ds amounts r :
  contains (txt "invested") (lower t) = false ->
  add_cashflows t ds amounts r = Ok r.
Proof.
  intro H. revert r. induction amounts as [|[a c] rest IH]; intro r.
  - reflexivity.
  - cbn [add_cashflows]. rewrite H. cbn [bind]. apply IH.
Qed.

(** C4.  On the update email of the test suite, which is classified as
    UPDATE and contains ["ARR: $15.5M"], ["Runway: 18 months"] and
    ["Headcount: 52"], every envelope returned holds exactly one update
    whose metrics map runway_months to "18" and headcount to "52", but ARR
    to "15500000.0": the value goes through [float] and [str].  The claim
    and [test_extract_update_email] expect "15500000". *)
Theorem update_email_arr_metric : forall (L : DateLib) (env : envelope),
  extract_from_email update_email = Ok env ->
  exists update metrics,
    dict_get (txt "updates") (facts env) = Some (FList [update])
    /\ dict_get (txt "metrics") update = Some (VMap metrics)
    /\ dict_get (txt "ARR") metrics = Some (txt "15500000.0")
    /\ dict_get (txt "runway_months") metrics = Some (txt "18")
    /\ dict_get (txt "headcount") metrics = Some (txt "52").
Proof.
  intros L env. unfold extract_from_email.
  rewrite update_email_type. unfold extract_by_type, _extract_update.
  rewrite update_email_metrics. cbn [bind].
  destruct (date_parse (receivedDateTime update_email)) as [received|]; [|discriminate].
  cbn [bind].
  destruct (minus_days _ 30) as [start|]; [|discriminate].
  cbn [bind].
  match goal with |- context [facts_append ?k ?i ?r] => 
    change (facts_append k i r) with (Ok (set_facts (dict_set (txt k) (FList [i]) (facts r)) r)) end.
  cbn [bind].
  destruct update_email_amounts as [l Hl]. rewrite Hl. cbn [bind].
  rewrite update_email_ownership. cbn [bind].
  rewrite add_cashflows_not_invested by apply update_email_not_invested.
  cbn [bind add_ownership].
  match goal with |- context [overall_confidence ?f] => 
    change (overall_confidence f) with (Ok ((0 + (8 # 10)) / inject_Z 1)%Q) end.
  cbn [bind]. intro H. injection H as <-.
  eexists. eexists. split; [reflexivity|]. 
  repeat split; reflexivity.
Qed.

Lemma update_email_arr_metric_witness :
  exists env,
    @extract_from_email day_numbers update_email = Ok env
    /\ exists update metrics,
         dict_get (txt "updates") (facts env) = Some (FList [update])
         /\ dict_get (txt "metrics") update = Some (VMap metrics)
         /\ dict_get (txt "ARR") metrics = Some (txt "15500000.0")
         /\ dict_get (txt "runway_months") metrics = Some (txt "18")
         /\ dict_get (txt "headcount") metrics = Some (txt "52").
Proof.
  eexists. split.
  - vm_compute. reflexivity.
  - apply (@update_email_arr_metric day_numbers). vm_compute. reflexivity.
Defined.

(** ** Dictionaries *)

Lemma text_eqb_eq (a b : text) : text_eqb a b = true <-> a = b.
Proof.
  revert b. induction a as [|x a IH]; destruct b as [|y b]; cbn [text_eqb];
    try (split; [discriminate | discriminate]); [tauto|].
  unfold ascii_eqb. rewrite andb_true_iff, Ascii.eqb_eq, IH.
  split; [intros [-> ->]; reflexivity | intro H; injection H; auto].
Qed.

Lemma text_eqb_refl (a : text) : text_eqb a a = true.
Proof. apply text_eqb_eq. reflexivity. Qed.

Lemma text_eqb_neq (a b : text) : text_eqb a b = false <-> a <> b.
Proof.
  rewrite <- text_eqb_eq. destruct (text_eqb a b); split; congruence.
Qed.

Lemma dict_get_set_same {V : Type} (k : text) (v : V) d :
  dict_get k (dict_set k v d) = Some v.
Proof.
  induction d as [|[a w] d IH]; cbn [dict_set dict_get].
  - rewrite text_eqb_refl. reflexivity.
  - destruct (text_eqb k a) eqn:E; cbn [dict_get].
    + rewrite text_eqb_refl. reflexivity.
    + rewrite E. exact IH.
Qed.

Lemma dict_get_set_other {V : Type} (k k' : text) (v : V) d :
  k' <> k -> dict_get k' (dict_set k v d) = dict_get k' d.
Proof.
  intro N. apply text_eqb_neq in N.
  induction d as [|[a w] d IH]; cbn [dict_set dict_get].
  - rewrite N. reflexivity.
  - destruct (text_eqb k a) eqn:E; cbn [dict_get].
    + apply text_eqb_eq in E. subst a. rewrite N. reflexivity.
    + rewrite IH. reflexivity.
Qed.

(** ** Persistence *)

Lemma persist_updates_rows r cid ups : forall t counts,
  fst (persist_updates r cid ups t counts)
  = t ++ map (update_row_of r cid) ups.
Proof.
  induction ups as [|u rest IH]; intros t counts; cbn [persist_updates].
  - rewrite app_nil_r. reflexivity.
  - rewrite IH. unfold insert_update. rewrite <- app_assoc. reflexivity.
Qed.

Lemma incr_get (k : string) counts n :
  dict_get (txt k) counts = Some n ->
  dict_get (txt k) (incr k counts) = Some (n + 1)%Z.
Proof.
  intro H. unfold incr. rewrite H. apply dict_get_set_same.
Qed.

Lemma persist_updates_count r cid ups : forall t counts n,
  dict_get (txt "updates") counts = Some n ->
  dict_get (txt "updates") (snd (persist_updates r cid ups t counts))
  = Some (n + Z.of_nat (length ups))%Z.
Proof.
  induction ups as [|u rest IH]; intros t counts n H;
    cbn [persist_updates length].
  - rewrite Z.add_0_r. exact H.
  - rewrite (IH _ _ (n + 1)%Z) by (apply incr_get; exact H).
    f_equal. lia.
Qed.

Lemma incr_keeps (k k' : string) counts :
  txt k' <> txt k ->
  dict_get (txt k') (incr k counts) = dict_get (txt k') counts.
Proof.
  intro N. unfold incr. destruct (dict_get (txt k) counts); [|reflexivity].
  apply dict_get_set_other. exact N.
Qed.

Lemma persist_cashflows_keeps r cid cfs : forall t counts,
  dict_get (txt "updates") (snd (persist_cashflows r cid cfs t counts))
  = dict_get (txt "updates") counts.
Proof.
  induction cfs as [|cf rest IH]; intros t counts; cbn [persist_cashflows].
  - reflexivity.
  - destruct (insert_cashflow (cashflow_row_of r cid cf) t) as [t' [|]];
      rewrite IH; [apply incr_keeps; vm_compute; discriminate | reflexivity].
Qed.

Lemma persist_ownerships_keeps r cid owns : forall t counts,
  dict_get (txt "updates") (snd (persist_ownerships r cid owns t counts))
  = dict_get (txt "updates") counts.
Proof.
  induction owns as [|own rest IH]; intros t counts; cbn [persist_ownerships].
  - reflexivity.
  - rewrite IH. apply incr_keeps. vm_compute; discriminate.
Qed.

(** The effect of one successful call on the update table and on the
    update counter. *)
Lemma persist_extraction_updates db env db' status :
  persist_extraction db env = Ok (db', status) ->
  status <> Skipped ->
  exists ups counts,
    facts_items "updates" (facts env) = Ok ups
    /\ status = Success counts
    /\ length (update_table db') = length (update_table db) + length ups
    /\ dict_get (txt "updates") counts = Some (Z.of_nat (length ups)).
Proof.
  unfold persist_extraction.
  destruct (company_id env) as [cid|]; [|intros H; injection H as <- <-; congruence].
  destruct (is_empty cid); [intros H; injection H as <- <-; congruence|].
  destruct (facts_items "cashflows" (facts env)) as [cfs|]; [|discriminate].
  cbn [bind].
  destruct (persist_cashflows env cid cfs (cashflow_table db) _) as [cft c1] eqn:E1.
  destruct (facts_items "ownerships" (facts env)) as [owns|]; [|discriminate].
  cbn [bind].
  destruct (persist_ownerships env cid owns (ownership_table db) c1) as [owt c2] eqn:E2.
  destruct (facts_items "updates" (facts env)) as [ups|]; [|discriminate].
  cbn [bind].
  destruct (persist_updates env cid ups (update_table db) c2) as [upt c3] eqn:E3.
  intros H _. injection H as <- <-.
  exists ups, c3. split; [reflexivity|]. split; [reflexivity|].
  cbn [update_table].
  pose proof (persist_updates_rows env cid ups (update_table db) c2) as Hr.
  pose proof (persist_updates_count env cid ups (update_table db) c2 0%Z) as Hc.
  rewrite E3 in Hr, Hc. cbn [fst snd] in Hr, Hc.
  split.
  - rewrite Hr, length_app, length_map. reflexivity.
  - rewrite Hc; [reflexivity|].
    pose proof (persist_ownerships_keeps env cid owns (ownership_table db) c1) as H2.
    rewrite E2 in H2. cbn [snd] in H2. rewrite H2.
    pose proof (persist_cashflows_keeps env cid cfs (cashflow_table db)
                  [(txt "company", 0); (txt "rounds", 0); (txt "ownerships", 0);
                   (txt "cashflows", 0); (txt "updates", 0); (txt "contacts", 0);
                   (txt "documents", 0)]%Z) as H1.
    rewrite E1 in H1. cbn [snd] in H1. rewrite H1. vm_compute. reflexivity.
Qed.

(** C2.  Persisting an envelope a second time, on the store the first call
    left, inserts every update of the envelope again and counts it again:
    the statement for [portfolio.update] has no conflict clause.  The claim
    asks for the same stored facts and no double count. *)
Theorem persist_extraction_twice_repeats_updates :
  forall db env db1 db2 status1 status2,
    persist_extraction db env = Ok (db1, status1) ->
    persist_extraction db1 env = Ok (db2, status2) ->
    status1 <> Skipped ->
    exists ups counts1 counts2,
      facts_items "updates" (facts env) = Ok ups
      /\ status1 = Success counts1 /\ status2 = Success counts2
      /\ length (update_table db1) = length (update_table db) + length ups
      /\ length (update_table db2) = length (update_table db1) + length ups
      /\ dict_get (txt "updates") counts1 = Some (Z.of_nat (length ups))
      /\ dict_get (txt "updates") counts2 = Some (Z.of_nat (length ups)).
Proof.
  intros db env db1 db2 s1 s2 H1 H2 N1.
  destruct (persist_extraction_updates _ _ _ _ H1 N1) as (ups & c1 & Hu & E1 & L1 & C1).
  assert (N2 : s2 <> Skipped).
  { intro E. subst s2. revert H1 H2. unfold persist_extraction.
    destruct (company_id env) as [cid|]; [|intros H; injection H as _ <-; congruence].
    destruct (is_empty cid); [intros H; injection H as _ <-; congruence|].
    intros _.
    destruct (facts_items "cashflows" (facts env)); [|discriminate]. cbn [bind].
    destruct (persist_cashflows _ _ _ _ _).
    destruct (facts_items "ownerships" (facts env)); [|discriminate]. cbn [bind].
    destruct (persist_ownerships _ _ _ _ _).
    destruct (facts_items "updates" (facts env)); [|discriminate]. cbn [bind].
    destruct (persist_updates _ _ _ _ _). discriminate. }
  destruct (persist_extraction_updates _ _ _ _ H2 N2) as (ups' & c2 & Hu' & E2 & L2 & C2).
  rewrite Hu in Hu'. injection Hu' as <-.
  exists ups, c1, c2. repeat split; assumption.
Qed.

Lemma persist_extraction_twice_repeats_updates_witness :
  exists db1 db2 status1 status2,
    persist_extraction empty_store sample_result = Ok (db1, status1)
    /\ persist_extraction db1 sample_result = Ok (db2, status2)
    /\ status1 <> Skipped
    /\ length (update_table db1) = 1
    /\ length (update_table db2) = 2
    /\ exists ups counts1 counts2,
         facts_items "updates" (facts sample_result) = Ok ups
         /\ status1 = Success counts1 /\ status2 = Success counts2
         /\ length (update_table db1)
            = length (update_table empty_store) + length ups
         /\ length (update_table db2) = length (update_table db1) + length ups
         /\ dict_get (txt "updates") counts1 = Some (Z.of_nat (length ups))
         /\ dict_get (txt "updates") counts2 = Some (Z.of_nat (length ups)).
Proof.
  do 4 eexists.
  split; [vm_compute; reflexivity|].
  split; [vm_compute; reflexivity|].
  split; [discriminate|].
  split; [reflexivity|].
  split; [reflexivity|].
  apply (persist_extraction_twice_repeats_updates empty_store sample_result).
  - vm_compute; reflexivity.
  - vm_compute; reflexivity.
  - discriminate.
Defined.

(** ** The envelope built by [extract_from_email] *)


Lemma confidences_cons k v f :
  confidences ((k, v) :: f)
  = match v with
    | FList items => list_confidences items
    | FDict _ => []
    end ++ confidences f.
Proof. reflexivity. Qed.

Lemma list_confidences_app a b :
  list_confidences (a ++ b) = list_confidences a ++ list_confidences b.
Proof. unfold list_confidences. apply flat_map_app. Qed.

Section Invariant.
Variable P : value -> Prop.

Lemma confidences_set f : forall k items,
  Forall P (confidences f) ->
  Forall P (list_confidences items) ->
  Forall P (confidences (dict_set k (FList items) f)).
Proof.
  induction f as [|[a v] f IH]; intros k items Hf Hi; cbn [dict_set].
  - rewrite confidences_cons, app_nil_r. exact Hi.
  - rewrite confidences_cons in Hf. apply Forall_app in Hf as [Hv Hf].
    destruct (text_eqb k a); rewrite confidences_cons; apply Forall_app.
    + split; assumption.
    + split; [assumption | apply IH; assumption].
Qed.

Lemma confidences_get f : forall k items,
  Forall P (confidences f) ->
  dict_get k f = Some (FList items) ->
  Forall P (list_confidences items).
Proof.
  induction f as [|[a v] f IH]; intros k items Hf Hg; cbn [dict_get] in Hg.
  - discriminate.
  - rewrite confidences_cons in Hf. apply Forall_app in Hf as [Hv Hf].
    destruct (text_eqb k a).
    + injection Hg as ->. exact Hv.
    + apply (IH k); assumption.
Qed.
End Invariant.




Lemma text_eq_dec (a b : text) : {a = b} + {a <> b}.
Proof. apply (list_eq_dec Ascii.ascii_dec). Qed.

Lemma initial_result_well_formed id :
  well_formed (initial_result id).
Proof.
  split.
  - reflexivity.
  - eexists. reflexivity.
  - intros k Hk. cbn in Hk.
    repeat (destruct Hk as [<-|Hk]; [eexists; reflexivity|]). contradiction.
  - constructor.
Qed.

Lemma facts_append_well_formed (kind : string) item r r' q :
  In (txt kind) fact_kinds ->
  item_confidence item = Some (VNum q) -> (7 # 10 <= q)%Q -> (q <= 1)%Q ->
  well_formed r ->
  facts_append kind item r = Ok r' ->
  well_formed r'.
Proof.
  intros Hk Hc Hlo Hhi [Ha Hco Hl Hcf]. unfold facts_append.
  destruct (dict_get (txt kind) (facts r)) as [[d|items]|] eqn:G;
    try discriminate.
  intro H. injection H as <-. split; cbn [assumptions facts set_facts].
  - exact Ha.
  - destruct Hco as [d Hd]. exists d. rewrite dict_get_set_other; [exact Hd|].
    intro E. rewrite E in Hd. congruence.
  - intros k Hin. destruct (text_eq_dec k (txt kind)) as [->|N].
    + eexists. apply dict_get_set_same.
    + rewrite dict_get_set_other by exact N. apply Hl. exact Hin.
  - apply confidences_set; [exact Hcf|].
    rewrite list_confidences_app. apply Forall_app. split.
    + apply (confidences_get assigned (facts r) (txt kind)); assumption.
    + unfold list_confidences. cbn [flat_map]. rewrite Hc. cbn [app].
      constructor; [|constructor]. exists q. auto.
Qed.

Lemma comm_well_formed r item q :
  item_confidence item = Some (VNum q) -> (7 # 10 <= q)%Q -> (q <= 1)%Q ->
  well_formed r ->
  well_formed (set_facts (dict_set (txt "comm") (FList [item]) (facts r)) r).
Proof.
  intros Hc Hlo Hhi [Ha Hco Hl Hcf]. split; cbn [assumptions facts set_facts].
  - exact Ha.
  - destruct Hco as [d Hd]. exists d. rewrite dict_get_set_other; [exact Hd|].
    vm_compute. discriminate.
  - intros k Hin. rewrite dict_get_set_other; [apply Hl; exact Hin|].
    cbn in Hin. intro E. subst k.
    repeat (destruct Hin as [Hin|Hin]; [vm_compute in Hin; discriminate|]).
    contradiction.
  - apply confidences_set; [exact Hcf|].
    unfold list_confidences. cbn [flat_map]. rewrite Hc. cbn [app].
    constructor; [|constructor]. exists q. auto.
Qed.

Ltac kind_in := cbn; tauto.

Lemma extract_by_type_well_formed (L : DateLib) ty t r recv r' :
  well_formed r ->
  extract_by_type ty t r recv = Ok r' ->
  well_formed r'.
Proof.
  intros W. destruct ty; cbn [extract_by_type].
  - unfold _extract_update.
    destruct (extract_metrics t) as [metrics|]; [|discriminate]. cbn [bind].
    destruct (date_parse recv); [|discriminate]. cbn [bind].
    destruct (minus_days _ 30); [|discriminate]. cbn [bind].
    apply (facts_append_well_formed "updates" _ r r' (8 # 10));
      [kind_in | reflexivity | discriminate | discriminate | exact W].
  - intro H; injection H as <-; exact W.
  - intro H; injection H as <-; exact W.
  - unfold _extract_notebook_lm.
    destruct (extract_metrics t) as [fields|]; [|discriminate]. cbn [bind].
    intro H; injection H as <-.
    apply (comm_well_formed r _ (7 # 10));
      [reflexivity | discriminate | discriminate | exact W].
  - unfold _extract_cap_table.
    destruct (extract_ownership t) as [[pct|]|]; [| |discriminate]; cbn [bind].
    + apply (facts_append_well_formed "ownerships" _ r r' (85 # 100));
        [kind_in | reflexivity | discriminate | discriminate | exact W].
    + intro H; injection H as <-; exact W.
  - intro H; injection H as <-; exact W.
Qed.

(** The confidence of an amount is 85, 90 or 95. *)
Lemma amount_confidence_values t m :
  amount_confidence t m = 85%Z \/ amount_confidence t m = 90%Z
  \/ amount_confidence t m = 95%Z.
Proof.
  unfold amount_confidence.
  destruct (contains_any [txt "pre-money"; txt "post-money"; txt "valuation"] _);
    [auto|].
  destruct (contains_any [txt "invested"; txt "investment"; txt "amount"] _);
    auto.
Qed.

Lemma mapM_Forall {A B : Type} (f : A -> result B) (P : B -> Prop) :
  (forall a b, f a = Ok b -> P b) ->
  forall l bs, mapM f l = Ok bs -> Forall P bs.
Proof.
  intros Hf. induction l as [|a l IH]; intros bs; cbn [mapM].
  - intro H; injection H as <-. constructor.
  - destruct (f a) as [b|] eqn:E; [|discriminate]. cbn [bind].
    destruct (mapM f l) as [bs'|]; [|discriminate]. cbn [bind].
    intro H; injection H as <-. constructor; [eapply Hf; eassumption | auto].
Qed.

Lemma extract_amounts_confidences t amounts :
  extract_amounts t = Ok amounts ->
  Forall (fun p => snd p = 85%Z \/ snd p = 90%Z \/ snd p = 95%Z) amounts.
Proof.
  unfold extract_amounts. apply mapM_Forall. intros m [amount c].
  unfold amount_of_match.
  destruct (match multipliers _ with Some _ => _ | None => _ end);
    [|discriminate].
  cbn [bind]. intro H; injection H as _ <-. apply amount_confidence_values.
Qed.

Lemma add_cashflows_well_formed (L : DateLib) t ds amounts : forall r r',
  Forall (fun p => snd p = 85%Z \/ snd p = 90%Z \/ snd p = 95%Z) amounts ->
  well_formed r ->
  add_cashflows t ds amounts r = Ok r' ->
  well_formed r'.
Proof.
  induction amounts as [|[a c] rest IH]; intros r r' Hc W; cbn [add_cashflows].
  - intro H; injection H as <-; exact W.
  - inversion Hc as [|? ? Hc1 Hc2]; subst. cbn [snd] in Hc1.
    destruct (contains (txt "invested") (lower t)).
    + destruct (facts_append "cashflows" _ r) as [r1|] eqn:E; [|discriminate].
      cbn [bind]. apply IH; [exact Hc2|].
      apply (facts_append_well_formed "cashflows" _ r r1
               (inject_Z c / 100)%Q) in E;
        [exact E | kind_in | reflexivity | | | exact W];
        destruct Hc1 as [->|[->| ->]]; vm_compute; discriminate.
    + cbn [bind]. apply IH; assumption.
Qed.

Lemma add_ownership_well_formed (L : DateLib) ds ownership r r' :
  well_formed r ->
  add_ownership ds ownership r = Ok r' ->
  well_formed r'.
Proof.
  intro W. destruct ownership as [pct|]; cbn [add_ownership].
  - apply (facts_append_well_formed "ownerships" _ r r' (85 # 100));
      [kind_in | reflexivity | discriminate | discriminate | exact W].
  - intro H; injection H as <-; exact W.
Qed.

(** Every envelope returned is well formed, and its overall confidence is
    the one computed from its facts. *)
Lemma extract_from_email_well_formed (L : DateLib) e env :
  extract_from_email e = Ok env ->
  well_formed env
  /\ overall_confidence (facts env) = Ok (confidence_overall env).
Proof.
  unfold extract_from_email. cbv zeta.
  destruct (extract_by_type _ _ _ _) as [r1|] eqn:E1; [|discriminate].
  cbn [bind].
  destruct (extract_amounts _) as [amounts|] eqn:Ea; [|discriminate].
  cbn [bind].
  destruct (extract_ownership _) as [ownership|]; [|discriminate].
  cbn [bind].
  destruct (add_cashflows _ _ _ _) as [r2|] eqn:E2; [|discriminate].
  cbn [bind].
  destruct (add_ownership _ _ _) as [r3|] eqn:E3; [|discriminate].
  cbn [bind].
  destruct (overall_confidence (facts r3)) as [overall|] eqn:Eo; [|discriminate].
  cbn [bind]. intro H; injection H as <-.
  assert (W1 : well_formed r1).
  { eapply extract_by_type_well_formed;
      [apply initial_result_well_formed | exact E1]. }
  assert (W2 : well_formed r2).
  { eapply add_cashflows_well_formed;
      [apply (extract_amounts_confidences _ _ Ea) | exact W1 | exact E2]. }
  assert (W : well_formed r3).
  { eapply add_ownership_well_formed; [exact W2 | exact E3]. }
  split; [|exact Eo].
  destruct W as [Ha Hco Hl Hcf]. split; assumption.
Qed.









(** C10.  Every envelope returned carries the assumption
    ["currency defaulted to USD"], and its facts map the seven fact kinds
    it was initialised with: [company] to a dictionary and the six others
    to lists. *)
Theorem envelope_assumptions_and_kinds :
  forall (L : DateLib) (e : email) (env : envelope),
    extract_from_email e = Ok env ->
    In (txt "currency defaulted to USD") (assumptions env)
    /\ (forall k,
          In k (map txt ["company"; "rounds"; "ownerships"; "cashflows";
                         "updates"; "contacts"; "documents"]%string) ->
          In k (dict_keys (facts env)))
    /\ dict_keys (facts (initial_result (message_id e)))
       = map txt ["company"; "rounds"; "ownerships"; "cashflows";
                  "updates"; "contacts"; "documents"]%string.
Proof.
  intros L e env H.
  destruct (extract_from_email_well_formed L e env H) as [[Ha Hco Hl _] _].
  split; [rewrite Ha; left; reflexivity|].
  split; [|reflexivity].
  assert (K : forall {V : Type} k (d : list (text * V)) v,
             dict_get k d = Some v -> In k (dict_keys d)).
  { intros V k d. induction d as [|[a w] d IH]; intros v; cbn [dict_get].
    - discriminate.
    - destruct (text_eqb k a) eqn:E.
      + intros _. left. symmetry. apply text_eqb_eq. exact E.
      + intro G. right. apply (IH v G). }
  intros k [<-|Hk].
  - destruct Hco as [d Hd]. apply (K _ _ _ _ Hd).
  - destruct (Hl k Hk) as [items Hi]. apply (K _ _ _ _ Hi).
Qed.

Lemma envelope_assumptions_and_kinds_witness :
  exists env,
    @extract_from_email day_numbers update_email = Ok env
    /\ In (txt "currency defaulted to USD") (assumptions env)
    /\ (forall k,
          In k (map txt ["company"; "rounds"; "ownerships"; "cashflows";
                         "updates"; "contacts"; "documents"]%string) ->
          In k (dict_keys (facts env)))
    /\ dict_keys (facts (initial_result (message_id update_email)))
       = map txt ["company"; "rounds"; "ownerships"; "cashflows";
                  "updates"; "contacts"; "documents"]%string.
Proof.
  eexists. split.
  - vm_compute. reflexivity.
  - apply (envelope_assumptions_and_kinds day_numbers update_email).
    vm_compute. reflexivity.
Defined.

(** ** The rows of a parsed file *)

Section RowCountProofs.
Variable run_as_main : bool.
Context {L : DateLib}.
Variable company_lookup : list (text * text).









End RowCountProofs.




(** ** Decimal arithmetic *)

Local Open Scope Z_scope.





Lemma dec_value_fin neg c e : dec_value (DFin neg c e) = Some (fin_value neg c e).
Proof. reflexivity. Qed.









Local Close Scope Z_scope.

(** ** Percentages *)


(** The three values named in the claim. *)
Example clean_percentage_examples :
  clean_percentage true (CStr (txt "0.15")) = Ok (Some (DFin false 1500 (-2)))
  /\ clean_percentage true (CStr (txt "1")) = Ok (Some (DFin false 100 0))
  /\ clean_percentage true (CStr (txt "15")) = Ok (Some (DFin false 15 0)).
Proof. repeat split; vm_compute; reflexivity. Qed.


(** ** Texts *)

Lemma sub_class_go (p : ascii -> bool) : forall s pw,
  sub_go (Chr p) [] 0 pw s = filter (fun x => negb (p x)) s.
Proof.
  induction s as [|c s IH]; intro pw; cbn [sub_go filter].
  - reflexivity.
  - unfold match_here. cbn [run]. destruct (p c); cbn [negb app].
    + replace (length (c :: s) - length s) with 1 by (cbn [length]; lia).
      apply IH.
    + f_equal. apply IH.
Qed.

(** Substituting the empty string for a character class filters. *)
Lemma sub_class (p : ascii -> bool) (s : text) :
  sub (Chr p) [] s = filter (fun x => negb (p x)) s.
Proof. apply sub_class_go. Qed.








(** ** Numerals *)







Local Open Scope Z_scope.





Local Close Scope Z_scope.

(** ** Currency values *)







Lemma dec_mul_raises a b e :
  dec_mul a b = Raise e -> e = InvalidOperation \/ e = DecimalOverflow.
Proof.
  unfold dec_mul, dec_fix.
  repeat match goal with
         | |- context [match ?x with _ => _ end] => destruct x
         | |- context [if ?x then _ else _] => destruct x
         end;
    intro H; first [discriminate H | injection H as <-; auto].
Qed.





(** When the module is imported instead, [decimal] is an unbound name and
    the same input raises [NameError]. *)
Example clean_currency_imported :
  clean_currency false (CStr (txt "abc")) = Raise NameError.
Proof. vm_compute. reflexivity. Qed.

(** ** Company names *)



Ltac all_chars :=
  let c := fresh "c" in
  intro c; destruct c as [[] [] [] [] [] [] [] []]; vm_compute; reflexivity.



Lemma low_fixed (c : ascii) : low c = true -> lower_char c = c.
Proof.
  unfold low. intro H. apply andb_true_iff in H as [_ H].
  apply Ascii.eqb_eq. exact H.
Qed.



(** *** [split] and [join] *)







(** *** [strip] *)






(** *** The normal form *)



(** *** Lengths *)

Lemma run_min_len (A : Type) : forall (r : regex) pw s cs (k : kont A) a,
  run r pw s cs k = Some a ->
  exists pw' s' cs', k pw' s' cs' = Some a /\ length s' + min_len r <= length s.
Proof.
  induction r as [|p|r1 IH1 r2 IH2|r1 IH1 r2 IH2|r1 IH1|i r1 IH1|];
    intros pw s cs k a H.
  - exists pw, s, cs. split; [exact H | cbn [min_len]; lia].
  - cbn [run min_len] in *.
    destruct s as [|c s]; [discriminate|]. destruct (p c); [|discriminate].
    exists (is_word c), s, cs. split; [exact H | cbn [length]; lia].
  - cbn [run min_len] in *.
    apply IH1 in H as (pw1 & s1 & cs1 & H & L1).
    apply IH2 in H as (pw2 & s2 & cs2 & H & L2).
    exists pw2, s2, cs2. split; [exact H | lia].
  - cbn [run min_len] in *.
    destruct (run r1 pw s cs k) as [a1|] eqn:E1.
    + injection H as ->. apply IH1 in E1 as (pw1 & s1 & cs1 & H & L1).
      exists pw1, s1, cs1. split; [exact H | lia].
    + apply IH2 in H as (pw2 & s2 & cs2 & H & L2).
      exists pw2, s2, cs2. split; [exact H | lia].
  - cbn [min_len].
    assert (Loop : forall n pw s cs,
      (fix loop (n : nat) (pw : bool) (s : text) (cs : caps) : option A :=
         match n with
         | O => k pw s cs
         | S n' =>
             match run r1 pw s cs
                     (fun pw' s' cs' =>
                        if Nat.ltb (length s') (length s)
                        then loop n' pw' s' cs' else None) with
             | Some a => Some a
             | None => k pw s cs
             end
         end) n pw s cs = Some a ->
      exists pw' s' cs', k pw' s' cs' = Some a /\ length s' + 0 <= length s).
    { clear pw s cs H. induction n as [|n IHn]; intros pw s cs H.
      - exists pw, s, cs. split; [exact H | lia].
      - match type of H with
        | match ?m with _ => _ end = _ => destruct m as [a1|] eqn:E1
        end.
        + injection H as ->. apply IH1 in E1 as (pw1 & s1 & cs1 & H & L1).
          destruct (Nat.ltb (length s1) (length s)) eqn:El; [|discriminate].
          apply IHn in H as (pw2 & s2 & cs2 & H & L2).
          apply Nat.ltb_lt in El.
          exists pw2, s2, cs2. split; [exact H | lia].
        + exists pw, s, cs. split; [exact H | lia]. }
    exact (Loop (S (length s)) pw s cs H).
  - cbn [run min_len] in *.
    apply IH1 in H as (pw1 & s1 & cs1 & H & L1).
    exists pw1, s1, ((i, firstn (length s - length s1) s) :: cs1).
    split; [exact H | exact L1].
  - cbn [run min_len] in *.
    destruct (xorb pw (next_is_word s)); [|discriminate].
    exists pw, s, cs. split; [exact H | lia].
Qed.

Lemma match_here_min_len (r : regex) pw s pw' s' cs :
  match_here r pw s = Some (pw', s', cs) -> length s' + min_len r <= length s.
Proof.
  unfold match_here. intro H.
  apply run_min_len in H as (pw1 & s1 & cs1 & H & L).
  injection H as _ <- _. exact L.
Qed.











Example normalize_examples :
  _normalize_company_name (txt "Acme Widgets, Inc.") = txt "acme widgets"
  /\ _normalize_company_name (txt "L.L.C") = txt "llc"
  /\ _normalize_company_name (txt "llc") = []
  /\ _normalize_company_name (txt "Co-Op Inc") = txt "op".
Proof. vm_compute. repeat split; reflexivity. Qed.

(* ===================================================================== *)
(** * Part V.  Further properties of the tabular parser                   *)
(* ===================================================================== *)

(** ** The header row *)

Lemma find_header_row_go_spec : forall rows idx,
  (exists j row,
      find_header_row_go rows idx = idx + j
      /\ nth_error rows j = Some row
      /\ 3 <= header_matches row
      /\ idx + j <= 20
      /\ (forall j' row', j' < j -> nth_error rows j' = Some row' ->
                          header_matches row' < 3))
  \/ (find_header_row_go rows idx = 0
      /\ forall j row, nth_error rows j = Some row -> idx + j <= 20 ->
                       header_matches row < 3).
Proof.
  induction rows as [|row rest IH]; intro idx; cbn [find_header_row_go].
  - right. split; [reflexivity|]. intros [|j] r H; discriminate H.
  - destruct (Nat.ltb_spec 20 idx) as [Hfar|Hnear].
    + right. split; [reflexivity|]. intros j r _ Hj. lia.
    + destruct (Nat.leb_spec 3 (header_matches row)) as [Hm|Hm].
      * left. exists 0, row. repeat split; try lia; try reflexivity.
      * destruct (IH (S idx))
          as [(j & r & E & Hn & H3 & Hj & Hfirst)|(E & Hnone)].
        -- left. exists (S j), r. repeat split; try lia; try assumption.
           intros [|j'] r' Hlt Hr'.
           ++ cbn in Hr'. injection Hr' as <-. exact Hm.
           ++ apply (Hfirst j' r'); [lia | exact Hr'].
        -- right. split; [exact E|]. intros [|j] r Hr Hj.
           ++ cbn in Hr. injection Hr as <-. exact Hm.
           ++ apply (Hnone j r Hr). lia.
Qed.

Lemma find_header_row_inside (df : list (list cell)) :
  df <> [] -> find_header_row df < length df.
Proof.
  intro Hne. unfold find_header_row.
  destruct (find_header_row_go_spec df 0)
    as [(j & r & E & Hn & _)|(E & _)]; rewrite E.
  - cbn [Nat.add]. apply nth_error_Some. rewrite Hn. discriminate.
  - destruct df; [congruence | cbn [length]; lia].
Qed.

(** [find_header_row] returns the index of the first of the rows 0 to 20
    that names at least three of the expected columns, and 0 when there is
    none; the index is at most 20 and lies inside a non-empty frame. *)
Theorem find_header_row_first :
  forall df : list (list cell),
    find_header_row df <= 20
    /\ (df <> [] -> find_header_row df < length df)
    /\ (forall i row,
          i <= 20 -> nth_error df i = Some row -> 3 <= header_matches row ->
          exists hdr,
            nth_error df (find_header_row df) = Some hdr
            /\ 3 <= header_matches hdr
            /\ find_header_row df <= i
            /\ forall j r, j < find_header_row df -> nth_error df j = Some r ->
                           header_matches r < 3)
    /\ ((forall i row, i <= 20 -> nth_error df i = Some row ->
                       header_matches row < 3) ->
        find_header_row df = 0).
Proof.
  intro df. unfold find_header_row.
  destruct (find_header_row_go_spec df 0)
    as [(j & r & E & Hn & H3 & Hj & Hfirst)|(E & Hnone)];
    rewrite E; cbn [Nat.add] in *.
  - repeat split.
    + exact Hj.
    + intros _. apply nth_error_Some. rewrite Hn. discriminate.
    + intros i row Hi Hr Hm. exists r. repeat split; try assumption.
      destruct (Nat.le_gt_cases j i) as [H|H]; [exact H|].
      specialize (Hfirst i row H Hr). lia.
    + intro Hno. specialize (Hno j r Hj Hn). lia.
  - repeat split.
    + lia.
    + destruct df; [congruence | cbn [length]; lia].
    + intros i row Hi Hr Hm. specialize (Hnone i row Hr Hi). lia.
Qed.

Lemma find_header_row_first_witness :
  exists hdr,
    nth_error nan_frame (find_header_row nan_frame) = Some hdr
    /\ 3 <= header_matches hdr
    /\ find_header_row nan_frame <= 0
    /\ forall j r, j < find_header_row nan_frame ->
                   nth_error nan_frame j = Some r -> header_matches r < 3.
Proof.
  apply (proj1 (proj2 (proj2 (find_header_row_first nan_frame))) 0
           [CStr (txt "Company"); CStr (txt "Amount");
            CStr (txt "Distributions")]).
  - lia.
  - reflexivity.
  - vm_compute. lia.
Defined.

(** ** The frame as a whole *)

(** [parse_file] raises on the empty frame only, where there is no header
    row to read; on every other frame it returns, whatever the rows hold,
    and the reconciliation log it returns extends the log it started
    from. *)
Theorem parse_file_returns :
  forall (run_as_main : bool) (L : DateLib) (company_lookup : list (text * text))
         (df : list (list cell)) (reconciliation_log : list log_entry),
    (df = [] ->
     parse_file run_as_main company_lookup df reconciliation_log
     = Raise IndexError)
    /\ (df <> [] ->
        exists records added,
          parse_file run_as_main company_lookup df reconciliation_log
          = Ok (records, reconciliation_log ++ added)).
Proof.
  intros b L lookup df log. split.
  - intros ->. reflexivity.
  - intro Hne. unfold parse_file.
    pose proof (find_header_row_inside df Hne) as Hlt.
    apply nth_error_Some in Hlt.
    destruct (nth_error df (find_header_row df)) as [columns|];
      [|congruence].
    eexists. eexists. reflexivity.
Qed.

Lemma parse_file_returns_witness :
  exists records added,
    @parse_file true day_numbers [] nan_frame [] = Ok (records, [] ++ added).
Proof.
  apply (proj2 (parse_file_returns true day_numbers [] nan_frame [])).
  discriminate.
Defined.

(** ** The column mapping *)

Lemma dict_get_filter_other {V : Type} (k k0 : text) (m : list (text * V)) :
  text_eqb k k0 = false ->
  dict_get k (filter (fun p => negb (text_eqb (fst p) k0)) m) = dict_get k m.
Proof.
  intro N. induction m as [|[a w] m IH]; [reflexivity|].
  cbn [filter fst]. destruct (text_eqb a k0) eqn:E; cbn [negb dict_get].
  - apply text_eqb_eq in E. subst a. rewrite N. exact IH.
  - rewrite IH. reflexivity.
Qed.

Lemma filter_keys_NoDup {V : Type} (f : text * V -> bool) :
  forall m : list (text * V),
    NoDup (dict_keys m) -> NoDup (dict_keys (filter f m)).
Proof.
  unfold dict_keys. induction m as [|[a w] m IH]; intro H; [constructor|].
  cbn [map fst] in H. inversion H as [|x l Hnin Hnd]; subst.
  cbn [filter]. destruct (f (a, w)); [|exact (IH Hnd)].
  cbn [map fst]. constructor; [|exact (IH Hnd)].
  intro Hin. apply Hnin. apply in_map_iff in Hin as ([a' w'] & Ea & Hin).
  apply filter_In in Hin as [Hin _]. apply in_map_iff.
  exists (a', w'). split; [exact Ea | exact Hin].
Qed.

(** [map_columns] maps each header cell that contains a known variation,
    and no other name, to its canonical name; a name that heads several
    columns has one entry. *)
Theorem map_columns_lookup :
  forall (df_columns : list cell) (col : text),
    dict_get col (map_columns df_columns)
    = (if existsb (fun c => text_eqb col (str c)) df_columns
       then canonical_name col else None)
    /\ NoDup (dict_keys (map_columns df_columns)).
Proof.
  intros cols k. induction cols as [|c cols [IHg IHn]].
  - split; [reflexivity | constructor].
  - cbn [map_columns existsb].
    destruct (canonical_name (str c)) as [cn|] eqn:Ec.
    + split.
      * cbn [dict_get]. destruct (text_eqb k (str c)) eqn:E; cbn [orb].
        -- apply text_eqb_eq in E. subst k. symmetry. exact Ec.
        -- rewrite (dict_get_filter_other k (str c) _ E). exact IHg.
      * unfold dict_keys. cbn [map fst]. constructor.
        -- intro Hin. apply in_map_iff in Hin as ([a w] & Ea & Hin).
           apply filter_In in Hin as [_ Hf]. cbn [fst] in *. subst a.
           rewrite text_eqb_refl in Hf. discriminate Hf.
        -- apply filter_keys_NoDup. exact IHn.
    + split; [|exact IHn].
      destruct (text_eqb k (str c)) eqn:E; cbn [orb]; [|exact IHg].
      apply text_eqb_eq in E. subst k. rewrite IHg, Ec.
      destruct (existsb _ cols); reflexivity.
Qed.

(** *** Substrings *)

Lemma startswith_app (p s : text) :
  startswith p s = true <-> exists post, s = p ++ post.
Proof.
  revert s. induction p as [|x p IH]; intro s; cbn [startswith].
  - split; [intros _; exists s; reflexivity | reflexivity].
  - destruct s as [|y s].
    + split; [discriminate | intros [post H]; discriminate H].
    + unfold ascii_eqb. rewrite andb_true_iff, Ascii.eqb_eq, IH. split.
      * intros [-> [post ->]]. exists post. reflexivity.
      * intros [post H]. injection H as -> ->. split; [reflexivity|].
        exists post. reflexivity.
Qed.

Lemma contains_app (needle hay : text) :
  contains needle hay = true <-> exists pre post, hay = pre ++ needle ++ post.
Proof.
  induction hay as [|c hay IH]; cbn [contains];
    rewrite orb_true_iff, startswith_app.
  - split.
    + intros [[post H]|H]; [|discriminate]. exists [], post. exact H.
    + intros (pre & post & H). left. destruct pre; [|discriminate].
      exists post. exact H.
  - rewrite IH. split.
    + intros [[post H]|(pre & post & H)].
      * exists [], post. exact H.
      * exists (c :: pre), post. rewrite H. reflexivity.
    + intros ([|x pre] & post & H).
      * left. exists post. exact H.
      * right. injection H as -> H. exists pre, post. exact H.
Qed.

Lemma contains_trans (a b c : text) :
  contains a b = true -> contains b c = true -> contains a c = true.
Proof.
  rewrite !contains_app. intros (p1 & q1 & ->) (p2 & q2 & ->).
  exists (p2 ++ p1), (q1 ++ q2). rewrite <- !app_assoc. reflexivity.
Qed.

Lemma canonical_name_company (col : text) :
  contains (txt "company") (lower (strip col)) = true ->
  canonical_name col = Some "company"%string.
Proof.
  intro H. unfold canonical_name, COLUMN_MAPPINGS. cbn [find snd].
  match goal with
  | |- option_map _ (if ?b then _ else _) = _ =>
      assert (E : b = true); [|rewrite E; reflexivity]
  end.
  apply existsb_exists. exists "Company"%string. split; [|exact H].
  cbn [In]. auto 10.
Qed.

Lemma canonical_name_investment (col : text) :
  contains (txt "investment") (lower (strip col)) = true ->
  canonical_name col = Some "company"%string
  \/ canonical_name col = Some "amount_invested"%string.
Proof.
  intro H. unfold canonical_name, COLUMN_MAPPINGS. cbn [find snd].
  match goal with
  | |- option_map _ (if ?b then _ else _) = _ \/ _ =>
      destruct b; [left; reflexivity|]
  end.
  match goal with
  | |- _ \/ option_map _ (if ?b then _ else _) = _ =>
      assert (E : b = true); [|rewrite E; right; reflexivity]
  end.
  apply existsb_exists. exists "Investment"%string. split; [|exact H].
  cbn [In]. auto 10.
Qed.

(** Eight header variations listed in [COLUMN_MAPPINGS] never select the
    canonical name they are listed under: a header that contains one of
    them also contains [Company] or [Investment], which belong to entries
    tried before.  [Investment Date], for one, is read as an amount. *)
Theorem shadowed_variations_never_map :
  forall (variation canonical : string) (col : text),
    In (variation, canonical) shadowed_variations ->
    contains (lower (txt variation)) (lower (strip col)) = true ->
    (exists variations,
        In (canonical, variations) COLUMN_MAPPINGS /\ In variation variations)
    /\ (canonical_name col = Some "company"%string
        \/ canonical_name col = Some "amount_invested"%string)
    /\ canonical_name col <> Some canonical.
Proof.
  intros v cn col Hin Hc.
  assert (Hcases :
            (contains (txt "company") (lower (txt v)) = true
             \/ contains (txt "investment") (lower (txt v)) = true)
            /\ cn <> "company"%string /\ cn <> "amount_invested"%string
            /\ exists variations,
                In (cn, variations) COLUMN_MAPPINGS /\ In v variations).
  { unfold shadowed_variations in Hin. cbn [In] in Hin.
    repeat destruct Hin as [Hin|Hin]; try contradiction;
      injection Hin as <- <-;
      (split; [first [left; vm_compute; reflexivity
                     | right; vm_compute; reflexivity]|]);
      (split; [discriminate|]); (split; [discriminate|]);
      eexists; (split; [unfold COLUMN_MAPPINGS; cbn [In]; auto 20|]);
      cbn [In]; auto 20. }
  destruct Hcases as (Hsub & N1 & N2 & Hlisted).
  assert (Hcanon : canonical_name col = Some "company"%string
                   \/ canonical_name col = Some "amount_invested"%string).
  { destruct Hsub as [Hs|Hs].
    - left. apply canonical_name_company. exact (contains_trans _ _ _ Hs Hc).
    - apply canonical_name_investment. exact (contains_trans _ _ _ Hs Hc). }
  split; [exact Hlisted|]. split; [exact Hcanon|].
  destruct Hcanon as [E|E]; rewrite E; congruence.
Qed.

Lemma shadowed_variations_never_map_witness :
  (exists variations,
      In ("date"%string, variations) COLUMN_MAPPINGS
      /\ In "Investment Date"%string variations)
  /\ (canonical_name (txt " Investment Date ") = Some "company"%string
      \/ canonical_name (txt " Investment Date ")
         = Some "amount_invested"%string)
  /\ canonical_name (txt " Investment Date ") <> Some "date"%string.
Proof.
  apply (shadowed_variations_never_map "Investment Date" "date"
           (txt " Investment Date ")).
  - cbn [shadowed_variations In]. auto 10.
  - vm_compute. reflexivity.
Defined.

(** ** The company of a row *)

(** A name that normalizes to the empty string (["Inc."], ["LLC"]) is
    contained in every directory name, so that the row is given the id of
    the first company of the directory and nothing is logged. *)
Theorem empty_name_takes_first_entry :
  forall (L : DateLib) (lookup_name lookup_id : text)
         (others : list (text * text)) (rownum : Z) (company_name : text),
    _normalize_company_name company_name = [] ->
    lookup_id <> [] ->
    dict_get [] ((lookup_name, lookup_id) :: others) = None ->
    resolve_company ((lookup_name, lookup_id) :: others) rownum company_name
    = (lookup_id, []).
Proof.
  intros L k v rest rownum name Hn Hv Hg. unfold resolve_company.
  rewrite Hn, Hg. cbn [falsy]. unfold fuzzy_match. cbn [find fst].
  replace (contains [] k) with true by (destruct k; reflexivity).
  cbn [orb option_map snd falsy].
  destruct v as [|c v]; [contradiction|]. reflexivity.
Qed.

Lemma empty_name_takes_first_entry_witness :
  @resolve_company day_numbers [(txt "acme", txt "acme-id")] 2 (txt "Inc.")
  = (txt "acme-id", []).
Proof.
  apply (empty_name_takes_first_entry day_numbers (txt "acme")
           (txt "acme-id") [] 2 (txt "Inc.")).
  - vm_compute. reflexivity.
  - discriminate.
  - reflexivity.
Defined.

(** ** The records of a frame *)

Lemma set_cleaned_keeps (L : DateLib) value rec f (key : string) rec' k :
  k <> txt key ->
  set_cleaned value rec f key = Ok rec' ->
  dict_get k rec' = dict_get k rec.
Proof.
  intros N. unfold set_cleaned. destruct value as [c|]; [|discriminate].
  destruct (f c) as [v|e]; [|discriminate]. cbn [bind].
  intro H. injection H as <-. apply dict_get_set_other. exact N.
Qed.

Lemma clean_field_keeps b (L : DateLib) columns row rec m rec' k :
  In k identity_keys ->
  clean_field b columns row rec m = Ok rec' ->
  dict_get k rec' = dict_get k rec.
Proof.
  intros Hin. unfold clean_field. destruct m as [col mapped].
  assert (N : forall key : string,
             In key ["amount_invested"; "distributions"; "ownership_pct";
                     "investment_date"; "round_type"; "pre_money_valuation";
                     "status"]%string ->
             k <> txt key).
  { intros key Hk. unfold identity_keys in Hin. cbn [In] in Hin, Hk.
    repeat destruct Hin as [Hin|Hin]; try contradiction; subst k;
      repeat destruct Hk as [Hk|Hk]; try contradiction; subst key;
      discriminate. }
  repeat match goal with
         | |- (if ?b then _ else _) = _ -> _ => destruct b
         end;
    try (apply set_cleaned_keeps; apply N; cbn [In]; auto 10).
  intro H. injection H as <-. reflexivity.
Qed.

Lemma clean_fields_keeps b (L : DateLib) columns row k :
  In k identity_keys ->
  forall mapping rec rec',
    clean_fields b columns row rec mapping = Ok rec' ->
    dict_get k rec' = dict_get k rec.
Proof.
  intro Hin. induction mapping as [|m mapping IH]; intros rec rec';
    cbn [clean_fields].
  - intro H. injection H as <-. reflexivity.
  - destruct (clean_field b columns row rec m) as [rec1|e] eqn:E;
      [|discriminate].
    cbn [bind]. intro H. rewrite (IH _ _ H).
    exact (clean_field_keeps b L columns row rec m rec1 k Hin E).
Qed.

Lemma read_company_name_nonempty (L : DateLib) columns mapping row name :
  read_company_name columns mapping row = Ok (Some name) -> name <> [].
Proof.
  unfold read_company_name. destruct mapping as [|[first c0] mapping];
    [discriminate|].
  destruct (truth_isna (row_at columns row first)) as [[|]|]; cbn [bind];
    try discriminate.
  destruct (find _ _) as [[col c1]|]; [|discriminate].
  destruct (truth_isna (row_at columns row col)) as [blank|]; cbn [bind];
    [|discriminate].
  destruct (row_at columns row col) as [c|]; [|discriminate].
  destruct (blank || is_empty (strip (str c))) eqn:E; [discriminate|].
  intro H. injection H as <-. apply orb_false_iff in E as [_ E].
  destruct (strip (str c)); [discriminate | discriminate].
Qed.

(** What a row that is emitted leaves in its record. *)
Lemma process_row_emitted b (L : DateLib) lookup columns mapping h idx row
      entries rec :
  process_row b lookup columns mapping h idx row = (entries, Emitted rec) ->
  exists id name,
    read_company_name columns mapping row = Ok (Some name)
    /\ name <> []
    /\ dict_get (txt "company_id") rec = Some (RText id)
    /\ dict_get (txt "company_name") rec = Some (RText name)
    /\ dict_get (txt "source_row") rec
       = Some (RInt (Z.of_nat idx + Z.of_nat h + 2)).
Proof.
  unfold process_row.
  destruct (read_company_name columns mapping row) as [[name|]|e] eqn:En;
    try discriminate.
  destruct (resolve_company lookup _ name) as [id nf].
  match goal with
  | |- context [clean_fields b columns row ?r mapping] =>
      set (rec0 := r);
      destruct (clean_fields b columns row rec0 mapping) as [rec1|e] eqn:Ec
  end; cbn [bind]; [|discriminate].
  destruct (validate rec1) as [issues|e]; cbn [bind]; [|discriminate].
  intro H. injection H as _ <-. exists id, name.
  split; [reflexivity|]. split; [exact (read_company_name_nonempty _ _ _ _ _ En)|].
  assert (K : forall k, In k identity_keys ->
                        dict_get k rec1 = dict_get k rec0).
  { intros k Hk. exact (clean_fields_keeps b L columns row k Hk _ _ _ Ec). }
  rewrite !K by (unfold identity_keys; cbn [In]; auto).
  repeat split; reflexivity.
Qed.

Lemma indexed_nth {A : Type} (l : list A) (i : nat) (a : A) :
  In (i, a) (indexed l) -> nth_error l i = Some a.
Proof.
  unfold indexed.
  assert (G : forall n, In (i, a) (combine (seq n (length l)) l) ->
                        n <= i /\ nth_error l (i - n) = Some a).
  { induction l as [|x l IH]; intros n H; [contradiction|].
    cbn [length seq combine In] in H. destruct H as [H|H].
    - injection H as -> ->. split; [lia|]. rewrite Nat.sub_diag. reflexivity.
    - apply IH in H as [Hle Hn]. split; [lia|].
      replace (i - n) with (S (i - S n)) by lia. exact Hn. }
  intro H. apply G in H as [_ H]. rewrite Nat.sub_0_r in H. exact H.
Qed.

(** Every record [parse_file] returns comes from a data row that is not an
    aggregate row; it holds a company id, the company name read from the
    row, which is not empty, and the number of the row in the spreadsheet:
    no cleaning step overwrites these three. *)
Theorem emitted_records_identified :
  forall (run_as_main : bool) (L : DateLib) (company_lookup : list (text * text))
         (df : list (list cell)) (log log' : list log_entry)
         (records : list record),
    parse_file run_as_main company_lookup df log = Ok (records, log') ->
    Forall (fun rec =>
              exists i row columns id name,
                nth_error (data_rows df (find_header_row df)) i = Some row
                /\ is_aggregate row = false
                /\ nth_error df (find_header_row df) = Some columns
                /\ read_company_name columns (map_columns columns) row
                   = Ok (Some name)
                /\ name <> []
                /\ dict_get (txt "company_id") rec = Some (RText id)
                /\ dict_get (txt "company_name") rec = Some (RText name)
                /\ dict_get (txt "source_row") rec
                   = Some (RInt (Z.of_nat i
                                 + Z.of_nat (find_header_row df) + 2)))
           records.
Proof.
  intros b L lookup df log log' records. unfold parse_file.
  destruct (nth_error df (find_header_row df)) as [columns|] eqn:Eh;
    [|discriminate].
  intro H. injection H as <- _. apply Forall_forall. intros rec Hin.
  apply in_flat_map in Hin as ([entries o] & Ho & Hrec).
  unfold outcomes in Ho. apply in_map_iff in Ho as ([i row] & Ep & Hk).
  unfold kept_rows in Hk. apply filter_In in Hk as [Hk Hagg].
  cbn [fst snd] in *. unfold emitted in Hrec. cbn [snd] in Hrec.
  destruct o as [|rec'|e]; try contradiction.
  destruct Hrec as [<-|[]].
  destruct (process_row_emitted _ _ _ _ _ _ _ _ _ _ Ep)
    as (id & name & Hn & Hne & H1 & H2 & H3).
  exists i, row, columns, id, name.
  repeat split; try assumption.
  - apply indexed_nth. exact Hk.
  - apply negb_true_iff. exact Hagg.
Qed.

Lemma emitted_records_identified_witness :
  @parse_file true day_numbers [] sample_frame [] = Ok sample_parse
  /\ length (fst sample_parse) = 2
  /\ Forall (fun rec =>
               exists i row columns id name,
                 nth_error (data_rows sample_frame
                              (find_header_row sample_frame)) i = Some row
                 /\ is_aggregate row = false
                 /\ nth_error sample_frame (find_header_row sample_frame)
                    = Some columns
                 /\ read_company_name columns (map_columns columns) row
                    = Ok (Some name)
                 /\ name <> []
                 /\ dict_get (txt "company_id") rec = Some (RText id)
                 /\ dict_get (txt "company_name") rec = Some (RText name)
                 /\ dict_get (txt "source_row") rec
                    = Some (RInt (Z.of_nat i
                                  + Z.of_nat (find_header_row sample_frame)
                                  + 2)))
            (fst sample_parse).
Proof.
  split; [vm_compute; reflexivity|].
  split; [reflexivity|].
  apply (emitted_records_identified true day_numbers [] sample_frame []
           (snd sample_parse) (fst sample_parse)).
  vm_compute. reflexivity.
Defined.

Lemma seq_sorted : forall n a, StronglySorted lt (seq a n).
Proof.
  induction n as [|n IH]; intro a; cbn [seq]; constructor.
  - apply IH.
  - apply Forall_forall. intros x Hx. apply in_seq in Hx. lia.
Qed.

Lemma indexed_fst {A : Type} (l : list A) :
  map fst (indexed l) = seq 0 (length l).
Proof.
  unfold indexed. generalize 0. induction l as [|a l IH]; intro n;
    [reflexivity|].
  cbn [length seq combine map fst]. rewrite IH. reflexivity.
Qed.

Lemma filter_fst_sorted {A : Type} (p : nat * A -> bool) :
  forall l : list (nat * A),
    StronglySorted lt (map fst l) ->
    StronglySorted lt (map fst (filter p l)).
Proof.
  induction l as [|x l IH]; intro H; [constructor|].
  cbn [map] in H. inversion H as [|a m Hs Hf]; subst.
  cbn [filter]. destruct (p x); [|exact (IH Hs)].
  cbn [map]. constructor; [exact (IH Hs)|].
  rewrite Forall_forall in *. intros y Hy. apply Hf.
  apply in_map_iff in Hy as (z & <- & Hz). apply filter_In in Hz as [Hz _].
  apply in_map. exact Hz.
Qed.

Lemma source_rows_cons (L : DateLib) (rec : record) (l : list record) z :
  dict_get (txt "source_row") rec = Some (RInt z) ->
  source_rows (rec :: l) = z :: source_rows l.
Proof. intro H. unfold source_rows. cbn [flat_map]. rewrite H. reflexivity. Qed.

Lemma source_rows_outcomes b (L : DateLib) lookup columns h :
  forall rows : list (nat * list cell),
    StronglySorted lt (map fst rows) ->
    let records :=
      flat_map emitted
        (map (fun p => process_row b lookup columns (map_columns columns) h
                         (fst p) (snd p)) rows) in
    length (source_rows records) = length records
    /\ StronglySorted Z.lt (source_rows records)
    /\ Forall (fun z => exists i, In i (map fst rows)
                                  /\ z = (Z.of_nat i + Z.of_nat h + 2)%Z)
              (source_rows records).
Proof.
  induction rows as [|[i row] rows IH]; intro Hs.
  - repeat split; constructor.
  - cbn [map fst] in Hs. inversion Hs as [|a m Hs' Hlt]; subst.
    destruct (IH Hs') as (Hl & Hsorted & Hall). clear IH.
    cbn [map flat_map fst snd].
    assert (Hall' : Forall (fun z => exists i0, In i0 (i :: map fst rows)
                                  /\ z = (Z.of_nat i0 + Z.of_nat h + 2)%Z)
                      (source_rows
                         (flat_map emitted
                            (map (fun p => process_row b lookup columns
                                             (map_columns columns) h
                                             (fst p) (snd p)) rows)))).
    { eapply Forall_impl; [|exact Hall]. cbn beta.
      intros z (i0 & Hi0 & ->). exists i0. split; [right; exact Hi0|].
      reflexivity. }
    destruct (process_row b lookup columns (map_columns columns) h i row)
      as [entries o] eqn:Ep.
    set (rest := flat_map emitted _) in *.
    cbv [emitted snd].
    destruct o as [|rec|e]; cbn [app map]; try (repeat split; assumption).
    destruct (process_row_emitted _ _ _ _ _ _ _ _ _ _ Ep)
      as (id & name & _ & _ & _ & _ & Hrow).
    rewrite (source_rows_cons L rec _ _ Hrow). cbn [length].
    repeat split.
    + rewrite Hl. reflexivity.
    + constructor; [exact Hsorted|].
      eapply Forall_impl; [|exact Hall]. cbn beta.
      intros z (i0 & Hi0 & ->). rewrite Forall_forall in Hlt.
      specialize (Hlt i0 Hi0). lia.
    + constructor; [|exact Hall'].
      exists i. split; [left; reflexivity | reflexivity].
Qed.

(** The records come out in the order of the sheet: each holds the number
    of its row, and these numbers increase strictly, so that no row gives
    two records. *)
Theorem records_in_row_order :
  forall (run_as_main : bool) (L : DateLib) (company_lookup : list (text * text))
         (df : list (list cell)) (log log' : list log_entry)
         (records : list record),
    parse_file run_as_main company_lookup df log = Ok (records, log') ->
    length (source_rows records) = length records
    /\ StronglySorted Z.lt (source_rows records)
    /\ Forall (fun z => (Z.of_nat (find_header_row df) + 2 <= z
                         < Z.of_nat (length df) + 1)%Z)
              (source_rows records).
Proof.
  intros b L lookup df log log' records. unfold parse_file.
  destruct (nth_error df (find_header_row df)) as [columns|] eqn:Eh;
    [|discriminate].
  intro H. injection H as <- _. unfold outcomes.
  assert (Hs : StronglySorted lt
                 (map fst (kept_rows df (find_header_row df)))).
  { unfold kept_rows. apply filter_fst_sorted. rewrite indexed_fst.
    apply seq_sorted. }
  destruct (source_rows_outcomes b L lookup columns (find_header_row df)
              _ Hs) as (Hl & Hsorted & Hall).
  split; [exact Hl|]. split; [exact Hsorted|].
  eapply Forall_impl; [|exact Hall]. cbn beta. intros z (i & Hi & ->).
  apply in_map_iff in Hi as ([i' row] & Ei & Hi). cbn [fst] in Ei. subst i'.
  unfold kept_rows in Hi. apply filter_In in Hi as [Hi _].
  apply indexed_nth in Hi.
  assert (Hlen : i < length (data_rows df (find_header_row df))).
  { apply nth_error_Some. rewrite Hi. discriminate. }
  unfold data_rows in Hlen. rewrite length_skipn in Hlen. lia.
Qed.

Lemma records_in_row_order_witness :
  @parse_file true day_numbers [] sample_frame [] = Ok sample_parse
  /\ source_rows (fst sample_parse) = [3; 6]%Z
  /\ length (source_rows (fst sample_parse)) = length (fst sample_parse)
  /\ StronglySorted Z.lt (source_rows (fst sample_parse))
  /\ Forall (fun z => (Z.of_nat (find_header_row sample_frame) + 2 <= z
                       < Z.of_nat (length sample_frame) + 1)%Z)
            (source_rows (fst sample_parse)).
Proof.
  split; [vm_compute; reflexivity|].
  split; [vm_compute; reflexivity|].
  apply (records_in_row_order true day_numbers [] sample_frame []
           (snd sample_parse) (fst sample_parse)).
  vm_compute. reflexivity.
Defined.

(** ** Aggregate rows *)

(** A literal word, compiled with [re.IGNORECASE], matches where the
    lower-cased text starts with the lower-cased word. *)
Lemma run_lits (A : Type) (k : kont A) : forall w pw s cs,
  (startswith (lower w) (lower s) = true
   /\ exists pw', run (lits true w) pw s cs k = k pw' (skipn (length w) s) cs)
  \/ (startswith (lower w) (lower s) = false
      /\ run (lits true w) pw s cs k = None).
Proof.
  induction w as [|c w IH]; intros pw s cs.
  - left. split; [reflexivity|]. exists pw. reflexivity.
  - assert (Hchr : forall (k' : kont A),
               run (lit true c) pw s cs k'
               = match s with
                 | x :: s' =>
                     if ascii_eqb (lower_char c) (lower_char x)
                     then k' (is_word x) s' cs else None
                 | [] => None
                 end).
    { intro k'. unfold lit. cbn [run]. destruct s as [|x s']; [reflexivity|].
      unfold ascii_eqb. rewrite (Ascii.eqb_sym (lower_char x)). reflexivity. }
    destruct w as [|c' w'].
    + cbn [lits]. rewrite Hchr. destruct s as [|x s'].
      * right. split; reflexivity.
      * cbn [lower map startswith length skipn].
        destruct (ascii_eqb (lower_char c) (lower_char x)).
        -- left. split; [reflexivity|]. exists (is_word x). reflexivity.
        -- right. split; reflexivity.
    + change (lits true (c :: c' :: w'))
        with (Seq (lit true c) (lits true (c' :: w'))).
      cbn [run]. rewrite Hchr. destruct s as [|x s'].
      * right. split; reflexivity.
      * change (lower (c :: c' :: w'))
          with (lower_char c :: lower (c' :: w')).
        change (lower (x :: s')) with (lower_char x :: lower s').
        cbn [startswith].
        destruct (ascii_eqb (lower_char c) (lower_char x)); cbn [andb].
        -- destruct (IH (is_word x) s' cs) as [[Hs [pw' E]]|[Hs E]].
           ++ left. split; [exact Hs|]. exists pw'. exact E.
           ++ right. split; [exact Hs | exact E].
        -- right. split; reflexivity.
Qed.

Lemma match_here_aggregate (pw : bool) (s : text) :
  matches_here aggregate_pattern pw s
  = startswith (txt "total") (lower s)
    || startswith (txt "summary") (lower s)
    || startswith (txt "grand") (lower s).
Proof.
  unfold matches_here, match_here, aggregate_pattern, word.
  cbn [alts run].
  set (K := fun (pw' : bool) (s' : text) (cs' : caps) => Some (pw', s', cs')).
  destruct (run_lits _ K (txt "Total") pw s []) as [[H1 [p1 E1]]|[H1 E1]];
    rewrite E1; change (lower (txt "Total")) with (txt "total") in H1;
    rewrite H1; [reflexivity|].
  destruct (run_lits _ K (txt "Summary") pw s []) as [[H2 [p2 E2]]|[H2 E2]];
    rewrite E2; change (lower (txt "Summary")) with (txt "summary") in H2;
    rewrite H2; [reflexivity|].
  destruct (run_lits _ K (txt "Grand") pw s []) as [[H3 [p3 E3]]|[H3 E3]];
    rewrite E3; change (lower (txt "Grand")) with (txt "grand") in H3;
    rewrite H3; reflexivity.
Qed.

Lemma finditer_aggregate : forall s pos pw,
  (match finditer_go aggregate_pattern 0 pos pw s with
   | [] => false
   | _ :: _ => true
   end)
  = contains (txt "total") (lower s)
    || contains (txt "summary") (lower s)
    || contains (txt "grand") (lower s).
Proof.
  induction s as [|c s IH]; intros pos pw;
    pose proof (match_here_aggregate pw) as M; unfold matches_here in M.
  - specialize (M []). cbn [finditer_go].
    destruct (match_here aggregate_pattern pw []) as [[[p t] cs]|];
      [discriminate M | reflexivity].
  - specialize (M (c :: s)). cbn [finditer_go].
    change (lower (c :: s)) with (lower_char c :: lower s) in *.
    cbn [contains].
    destruct (match_here aggregate_pattern pw (c :: s)) as [[[p t] cs]|].
    + destruct (startswith (txt "total") _); [reflexivity|].
      destruct (startswith (txt "summary") _);
        [rewrite orb_true_r; reflexivity|].
      destruct (startswith (txt "grand") _); [|discriminate M].
      rewrite !orb_true_r. reflexivity.
    + symmetry in M. apply orb_false_iff in M as [M M3].
      apply orb_false_iff in M as [M1 M2].
      rewrite M1, M2, M3. cbn [orb]. apply IH.
Qed.

(** A row is taken for an aggregate row exactly when the text of its first
    cell contains [total], [summary] or [grand] in any case and at any
    place: the name of a company (["Grand Rounds"], ["TotalEnergies"]) is
    enough, and such a row gives no record. *)
Theorem is_aggregate_substring :
  forall row : list cell,
    is_aggregate row
    = (let first := lower (str (nth 0 row CNaN)) in
       contains (txt "total") first || contains (txt "summary") first
       || contains (txt "grand") first).
Proof.
  intro row. unfold is_aggregate, search, finditer. cbv zeta.
  rewrite <- (finditer_aggregate (str (nth 0 row CNaN)) 0 false).
  destruct (finditer_go _ _ _ _ _); reflexivity.
Qed.

(** ** Generated company ids *)

Lemma sub_go_chars (r : regex) (repl : text) :
  0 < min_len r ->
  forall s skip pw c,
    In c (sub_go r repl skip pw s) ->
    In c repl \/ (In c s /\ exists pw' t, match_here r pw' (c :: t) = None).
Proof.
  intro Hr. induction s as [|c0 t IH]; intros skip pw c;
    destruct skip as [|n]; cbn [sub_go].
  - destruct (match_here r pw []) as [[[pw' s'] cs]|]; [|contradiction].
    rewrite app_nil_r. intro H. left. exact H.
  - contradiction.
  - destruct (match_here r pw (c0 :: t)) as [[[pw' s'] cs]|] eqn:E.
    + apply match_here_min_len in E. cbv zeta.
      destruct (length (c0 :: t) - length s') as [|m] eqn:El; [lia|].
      intro H. apply in_app_or in H as [H|H]; [left; exact H|].
      apply IH in H as [H|[H X]]; [left; exact H|].
      right. split; [right; exact H | exact X].
    + intros [<-|H].
      * right. split; [left; reflexivity|]. exists pw, t. exact E.
      * apply IH in H as [H|[H X]]; [left; exact H|].
        right. split; [right; exact H | exact X].
  - intro H. apply IH in H as [H|[H X]]; [left; exact H|].
    right. split; [right; exact H | exact X].
Qed.

Lemma run_star_total (A : Type) (r1 : regex) pw s cs (k : kont A) :
  (forall pw s cs, k pw s cs <> None) -> run (Star r1) pw s cs k <> None.
Proof.
  intro Hk. cbn [run].
  match goal with
  | |- match ?m with _ => _ end <> None => destruct m
  end; [discriminate | apply Hk].
Qed.

(** A run of one or more characters of a class matches wherever the text
    starts with such a character. *)
Lemma match_here_plus_class (p : ascii -> bool) pw c t :
  match_here (plus (Chr p)) pw (c :: t) = None -> p c = false.
Proof.
  unfold match_here, plus.
  change (run (Seq (Chr p) (Star (Chr p))) pw (c :: t) []
            (fun pw' s' cs' => Some (pw', s', cs')))
    with (if p c
          then run (Star (Chr p)) (is_word c) t []
                 (fun pw' s' cs' => Some (pw', s', cs'))
          else None).
  destruct (p c); [|reflexivity].
  intro H. exfalso. revert H. apply run_star_total. discriminate.
Qed.

Lemma lstrip_by_clean (p : ascii -> bool) : forall s c t,
  lstrip_by p s = c :: t -> p c = false.
Proof.
  induction s as [|x s IH]; intros c t; cbn [lstrip_by]; [discriminate|].
  destruct (p x) eqn:E; [apply IH|]. intro H. injection H as <- _. exact E.
Qed.

Lemma lstrip_by_suffix (p : ascii -> bool) : forall s,
  exists pre, s = pre ++ lstrip_by p s.
Proof.
  induction s as [|x s [pre IH]]; cbn [lstrip_by]; [exists []; reflexivity|].
  destruct (p x).
  - exists (x :: pre). cbn [app]. rewrite <- IH. reflexivity.
  - exists []. reflexivity.
Qed.

Lemma strip_by_clean (p : ascii -> bool) (s : text) :
  (forall c t, strip_by p s = c :: t -> p c = false)
  /\ (forall l c, strip_by p s = l ++ [c] -> p c = false).
Proof.
  unfold strip_by. set (u := lstrip_by p s).
  set (v := lstrip_by p (rev u)). split.
  - intros c t H.
    assert (Ev : v = rev t ++ [c]).
    { rewrite <- (rev_involutive v), H. reflexivity. }
    destruct (lstrip_by_suffix p (rev u)) as [pre Hp]. fold v in Hp.
    rewrite Ev in Hp.
    assert (Eu : u = c :: rev (pre ++ rev t)).
    { rewrite <- (rev_involutive u), Hp, app_assoc, rev_unit. reflexivity. }
    exact (lstrip_by_clean p s c _ Eu).
  - intros l c H.
    assert (Ev : v = c :: rev l).
    { rewrite <- (rev_involutive v), H, rev_unit. reflexivity. }
    exact (lstrip_by_clean p (rev u) c _ Ev).
Qed.

Lemma strip_by_chars (p : ascii -> bool) (s : text) (c : ascii) :
  In c (strip_by p s) -> In c s.
Proof.
  unfold strip_by. intro H. apply in_rev in H.
  destruct (lstrip_by_suffix p (rev (lstrip_by p s))) as [pre Hp].
  assert (H1 : In c (rev (lstrip_by p s))).
  { rewrite Hp. apply in_or_app. right. exact H. }
  apply in_rev in H1. destruct (lstrip_by_suffix p s) as [pre' Hp'].
  rewrite Hp'. apply in_or_app. right. exact H1.
Qed.

Lemma lower_char_idem : forall c, lower_char (lower_char c) = lower_char c.
Proof. all_chars. Qed.

(** A generated company id consists of hyphens and of word characters in
    lower case, and neither starts nor ends with a hyphen; white space and
    punctuation are gone. *)
Theorem generate_slug_shape :
  forall company_name : text,
    Forall (fun c => c = "-"%char
                     \/ (is_word c = true /\ lower_char c = c))
           (generate_slug company_name)
    /\ (forall t, generate_slug company_name <> "-"%char :: t)
    /\ (forall l, generate_slug company_name <> l ++ ["-"%char]).
Proof.
  intro name. unfold generate_slug. cbv zeta.
  set (z := sub slug_noise [] (lower name)).
  set (y := sub slug_separators (txt "-") z).
  destruct (strip_by_clean (fun x => ascii_eqb x "-") y) as [Hfirst Hlast].
  split; [|split].
  - apply Forall_forall. intros c Hc. apply strip_by_chars in Hc.
    unfold y, sub in Hc. apply sub_go_chars in Hc; [|vm_compute; lia].
    destruct Hc as [Hc|[Hc (pw' & t & Hm)]].
    + left. destruct Hc as [Hc|[]]. symmetry. exact Hc.
    + right. apply match_here_plus_class in Hm.
      apply orb_false_iff in Hm as [Hh Hsp].
      unfold z, slug_noise in Hc. rewrite sub_class in Hc.
      apply filter_In in Hc as [Hc Hk]. rewrite negb_involutive in Hk.
      rewrite Hh, Hsp, !orb_false_r in Hk. split; [exact Hk|].
      unfold lower in Hc. apply in_map_iff in Hc as (c0 & <- & _).
      apply lower_char_idem.
  - intros t H. specialize (Hfirst _ _ H). discriminate Hfirst.
  - intros l H. specialize (Hlast _ _ H). discriminate Hlast.
Qed.

(* ===================================================================== *)
(** * Part VI.  Further properties of the email pipeline                  *)
(* ===================================================================== *)

(** ** The facts of an envelope, kind by kind *)

Lemma facts_append_list (kind : string) item r r' :
  facts_append kind item r = Ok r' ->
  fact_list kind r' = fact_list kind r ++ [item]
  /\ (forall k : string, txt k <> txt kind -> fact_list k r' = fact_list k r)
  /\ company_id r' = company_id r.
Proof.
  unfold facts_append, fact_list.
  destruct (dict_get (txt kind) (facts r)) as [[d|items]|] eqn:G;
    try discriminate.
  intro H. injection H as <-. cbn [facts set_facts company_id].
  split; [|split].
  - rewrite dict_get_set_same. reflexivity.
  - intros k N. rewrite dict_get_set_other by exact N. reflexivity.
  - reflexivity.
Qed.

Lemma set_comm_list (r : envelope) (v : fact_value) (k : string) :
  txt k <> txt "comm" ->
  fact_list k (set_facts (dict_set (txt "comm") v (facts r)) r)
  = fact_list k r.
Proof.
  intro N. unfold fact_list. cbn [facts set_facts].
  rewrite dict_get_set_other by exact N. reflexivity.
Qed.

Ltac keys_differ :=
  let H := fresh in intro H; vm_compute in H; discriminate H.

(** What the extraction by type adds. *)
Lemma extract_by_type_lists (L : DateLib) ty t r recv r' :
  extract_by_type ty t r recv = Ok r' ->
  company_id r' = company_id r
  /\ fact_list "cashflows" r' = fact_list "cashflows" r
  /\ length (fact_list "updates" r')
     = length (fact_list "updates" r)
       + (match ty with UPDATE => 1 | _ => 0 end)
  /\ exists own,
       extract_ownership t = Ok own
       /\ field_of "ownerships" "fully_diluted_pct" r'
          = field_of "ownerships" "fully_diluted_pct" r
            ++ match ty, own with
               | CAPTABLE, Some pct => [Some (VStr (dec_to_text pct))]
               | _, _ => []
               end
       \/ ty <> CAPTABLE
          /\ field_of "ownerships" "fully_diluted_pct" r'
             = field_of "ownerships" "fully_diluted_pct" r.
Proof.
  unfold field_of.
  destruct ty; cbn [extract_by_type];
    try (intro H; injection H as <-;
         repeat split; try lia;
         exists None; right; split; [discriminate | reflexivity]).
  - unfold _extract_update.
    destruct (extract_metrics t) as [metrics|]; [|discriminate]. cbn [bind].
    destruct (date_parse recv); [|discriminate]. cbn [bind].
    destruct (minus_days _ 30); [|discriminate]. cbn [bind].
    intro H. apply facts_append_list in H as (Hsame & Hother & Hid).
    split; [exact Hid|]. split; [apply Hother; keys_differ|].
    split; [rewrite Hsame, length_app; reflexivity|].
    exists None. right. split; [discriminate|].
    rewrite Hother by keys_differ. reflexivity.
  - unfold _extract_notebook_lm.
    destruct (extract_metrics t) as [fields|]; [|discriminate]. cbn [bind].
    intro H. injection H as <-. cbn [company_id set_facts].
    rewrite !set_comm_list by keys_differ.
    repeat split; try lia.
    exists None. right. split; [discriminate | reflexivity].
  - unfold _extract_cap_table.
    destruct (extract_ownership t) as [[pct|]|] eqn:Eo; [| |discriminate];
      cbn [bind].
    + intro H. apply facts_append_list in H as (Hsame & Hother & Hid).
      split; [exact Hid|]. split; [apply Hother; keys_differ|].
      split; [rewrite Hother by keys_differ; lia|].
      exists (Some pct). left. split; [reflexivity|].
      rewrite Hsame, map_app. reflexivity.
    + intro H. injection H as <-. repeat split; try lia.
      exists None. left. split; [reflexivity|]. rewrite app_nil_r.
      reflexivity.
Qed.

(** What the loop over the amounts adds. *)
Lemma add_cashflows_lists (L : DateLib) t ds : forall amounts r r',
  add_cashflows t ds amounts r = Ok r' ->
  company_id r' = company_id r
  /\ fact_list "updates" r' = fact_list "updates" r
  /\ fact_list "ownerships" r' = fact_list "ownerships" r
  /\ field_of "cashflows" "amount" r'
     = field_of "cashflows" "amount" r
       ++ (if contains (txt "invested") (lower t)
           then map (fun a => Some (VStr (dec_to_text (fst a)))) amounts
           else [])
  /\ field_of "cashflows" "kind" r'
     = field_of "cashflows" "kind" r
       ++ (if contains (txt "invested") (lower t)
           then map (fun _ => Some (VStr (txt "Investment"))) amounts
           else []).
Proof.
  unfold field_of.
  induction amounts as [|[a c] rest IH]; intros r r'; cbn [add_cashflows].
  - intro H. injection H as <-.
    destruct (contains _ _); cbn [map]; rewrite !app_nil_r;
      repeat split; reflexivity.
  - destruct (contains (txt "invested") (lower t)) eqn:Ei.
    + destruct (facts_append "cashflows" _ r) as [r1|] eqn:E; [|discriminate].
      cbn [bind]. intro H. apply IH in H as (H1 & H2 & H3 & H4 & H5).
      apply facts_append_list in E as (Hsame & Hother & Hid).
      rewrite H1, H2, H3, H4, H5, Hid, Hsame.
      rewrite !(Hother _) by keys_differ.
      rewrite !map_app, <- !app_assoc. cbn [map app fst].
      repeat split; reflexivity.
    + cbn [bind]. intro H. apply IH in H as (H1 & H2 & H3 & H4 & H5).
      rewrite H1, H2, H3, H4, H5, !app_nil_r. repeat split; reflexivity.
Qed.

Lemma add_ownership_lists (L : DateLib) ds own r r' :
  add_ownership ds own r = Ok r' ->
  company_id r' = company_id r
  /\ fact_list "updates" r' = fact_list "updates" r
  /\ fact_list "cashflows" r' = fact_list "cashflows" r
  /\ field_of "ownerships" "fully_diluted_pct" r'
     = field_of "ownerships" "fully_diluted_pct" r
       ++ match own with
          | Some pct => [Some (VStr (dec_to_text pct))]
          | None => []
          end.
Proof.
  unfold field_of. destruct own as [pct|]; cbn [add_ownership].
  - intro H. apply facts_append_list in H as (Hsame & Hother & Hid).
    rewrite Hsame, !(Hother _) by keys_differ. rewrite map_app.
    repeat split; try assumption; reflexivity.
  - intro H. injection H as <-. rewrite app_nil_r.
    repeat split; reflexivity.
Qed.

(** The steps of [extract_from_email]. *)
Lemma extract_from_email_steps (L : DateLib) e r :
  extract_from_email e = Ok r ->
  exists r1 amounts own r2 r3 overall,
    extract_by_type (_classify_email (subject e) (body e)) (full_text e)
      (initial_result (message_id e)) (receivedDateTime e) = Ok r1
    /\ extract_amounts (full_text e) = Ok amounts
    /\ extract_ownership (full_text e) = Ok own
    /\ add_cashflows (full_text e) (extract_dates (full_text e)) amounts r1
       = Ok r2
    /\ add_ownership (extract_dates (full_text e)) own r2 = Ok r3
    /\ r = set_confidence_overall overall r3.
Proof.
  unfold extract_from_email. cbv zeta.
  destruct (extract_by_type _ _ _ _) as [r1|] eqn:E1; [|discriminate].
  cbn [bind].
  destruct (extract_amounts _) as [amounts|] eqn:Ea; [|discriminate].
  cbn [bind].
  destruct (extract_ownership _) as [own|] eqn:Eo; [|discriminate].
  cbn [bind].
  destruct (add_cashflows _ _ _ _) as [r2|] eqn:E2; [|discriminate].
  cbn [bind].
  destruct (add_ownership _ _ _) as [r3|] eqn:E3; [|discriminate].
  cbn [bind].
  destruct (overall_confidence (facts r3)) as [overall|]; [|discriminate].
  cbn [bind]. intro H. injection H as <-.
  exists r1, amounts, own, r2, r3, overall. repeat split; assumption.
Qed.

(** ** Cash flows *)

(** Every amount [extract_amounts] finds in a message that contains the
    word [invested] becomes a cash flow of kind [Investment], in the order
    found, whatever it stands for (a valuation, a revenue figure); a
    message without that word gives no cash flow at all. *)
Theorem every_amount_is_an_investment :
  forall (L : DateLib) (e : email) (r : envelope),
    extract_from_email e = Ok r ->
    exists amounts,
      extract_amounts (full_text e) = Ok amounts
      /\ field_of "cashflows" "amount" r
         = (if contains (txt "invested") (lower (full_text e))
            then map (fun a => Some (VStr (dec_to_text (fst a)))) amounts
            else [])
      /\ field_of "cashflows" "kind" r
         = (if contains (txt "invested") (lower (full_text e))
            then map (fun _ => Some (VStr (txt "Investment"))) amounts
            else []).
Proof.
  intros L e r H.
  apply extract_from_email_steps in H
    as (r1 & amounts & own & r2 & r3 & overall & E1 & Ea & Eo & E2 & E3 & ->).
  apply extract_by_type_lists in E1 as (_ & C1 & _).
  apply add_cashflows_lists in E2 as (_ & _ & _ & A2 & K2).
  apply add_ownership_lists in E3 as (_ & _ & C3 & _).
  exists amounts. split; [exact Ea|].
  unfold field_of in *.
  change (fact_list "cashflows" (set_confidence_overall overall r3))
    with (fact_list "cashflows" r3).
  rewrite C3, A2, K2, C1. split; reflexivity.
Qed.

Lemma every_amount_is_an_investment_witness :
  exists (r : envelope) (amounts : list (dec * Z)),
    @extract_from_email day_numbers
      {| subject := txt "Series B closed";
         body := txt "We invested $2,000,000 at a $50,000,000 valuation.";
         from_address := []; message_id := txt "m1";
         receivedDateTime := [] |} = Ok r
    /\ map fst amounts = [DFin false 2000000 0; DFin false 50000000 0]
    /\ field_of "cashflows" "amount" r
       = [Some (VStr (txt "2000000")); Some (VStr (txt "50000000"))]
    /\ field_of "cashflows" "kind" r
       = [Some (VStr (txt "Investment")); Some (VStr (txt "Investment"))].
Proof.
  set (e := {| subject := txt "Series B closed";
               body := txt "We invested $2,000,000 at a $50,000,000 valuation.";
               from_address := []; message_id := txt "m1";
               receivedDateTime := [] |}).
  destruct (@extract_from_email day_numbers e) as [r|] eqn:E;
    [|vm_compute in E; discriminate E].
  destruct (every_amount_is_an_investment day_numbers e r E)
    as (amounts & Ea & Ha & Hk).
  exists r, amounts. split; [reflexivity|].
  vm_compute in Ea. injection Ea as <-.
  split; [reflexivity|]. split; [exact Ha | exact Hk].
Defined.

(** ** Ownerships and updates *)

(** The ownership percentage found in the text is recorded once, and twice
    for a cap-table message: [_extract_cap_table] appends it and the common
    part of [extract_from_email] appends it again.  An update fact is
    written for a message classified [UPDATE], one per message, and for no
    other. *)
Theorem ownership_and_update_counts :
  forall (L : DateLib) (e : email) (r : envelope),
    extract_from_email e = Ok r ->
    exists own,
      extract_ownership (full_text e) = Ok own
      /\ field_of "ownerships" "fully_diluted_pct" r
         = match own with
           | None => []
           | Some pct =>
               match _classify_email (subject e) (body e) with
               | CAPTABLE => [Some (VStr (dec_to_text pct));
                              Some (VStr (dec_to_text pct))]
               | _ => [Some (VStr (dec_to_text pct))]
               end
           end
      /\ length (fact_list "updates" r)
         = match _classify_email (subject e) (body e) with
           | UPDATE => 1
           | _ => 0
           end.
Proof.
  intros L e r H.
  apply extract_from_email_steps in H
    as (r1 & amounts & own & r2 & r3 & overall & E1 & Ea & Eo & E2 & E3 & ->).
  apply extract_by_type_lists in E1 as (_ & _ & U1 & own' & O1).
  apply add_cashflows_lists in E2 as (_ & U2 & O2 & _).
  apply add_ownership_lists in E3 as (_ & U3 & _ & O3).
  exists own. split; [exact Eo|].
  unfold field_of in *.
  change (fact_list "ownerships" (set_confidence_overall overall r3))
    with (fact_list "ownerships" r3).
  change (fact_list "updates" (set_confidence_overall overall r3))
    with (fact_list "updates" r3).
  rewrite O3, O2, U3, U2, U1. split; [|reflexivity].
  destruct O1 as [[Eo' ->]|[N ->]].
  - rewrite Eo in Eo'. injection Eo' as <-.
    destruct own as [pct|];
      destruct (_classify_email (subject e) (body e)); reflexivity.
  - destruct own as [pct|];
      destruct (_classify_email (subject e) (body e));
      try reflexivity; congruence.
Qed.

Lemma ownership_and_update_counts_witness :
  exists r,
    @extract_from_email day_numbers
      {| subject := txt "[CAPTABLE] Acme";
         body := txt "MCC owns 12.5% after the round.";
         from_address := []; message_id := txt "m2";
         receivedDateTime := [] |} = Ok r
    /\ field_of "ownerships" "fully_diluted_pct" r
       = [Some (VStr (txt "12.5")); Some (VStr (txt "12.5"))]
    /\ length (fact_list "updates" r) = 0.
Proof.
  set (e := {| subject := txt "[CAPTABLE] Acme";
               body := txt "MCC owns 12.5% after the round.";
               from_address := []; message_id := txt "m2";
               receivedDateTime := [] |}).
  destruct (@extract_from_email day_numbers e) as [r|] eqn:E;
    [|vm_compute in E; discriminate E].
  destruct (ownership_and_update_counts day_numbers e r E)
    as (own & Eo & Ho & Hu).
  exists r. split; [reflexivity|].
  vm_compute in Eo. injection Eo as <-.
  split; [exact Ho | exact Hu].
Defined.

(** ** The company of an envelope *)

(** [extract_from_email] never names the company: the envelope it returns
    has no [company_id], and handed to [persist_extraction] as it is, it is
    skipped and the database is left alone.  Only the caller's assignment
    of [match_company]'s answer lets anything be stored. *)
Theorem extracted_envelope_is_skipped :
  forall (L : DateLib) (e : email) (r : envelope) (db : store),
    extract_from_email e = Ok r ->
    company_id r = None
    /\ persist_extraction db r = Ok (db, Skipped)
    /\ source_id (source_ptr r) = message_id e.
Proof.
  intros L e r db H.
  pose proof (extract_from_email_steps L e r H)
    as (r1 & amounts & own & r2 & r3 & overall & E1 & Ea & Eo & E2 & E3 & ->).
  pose proof (extract_by_type_lists L _ _ _ _ _ E1) as (I1 & _).
  pose proof (add_cashflows_lists L _ _ _ _ _ E2) as (I2 & _).
  pose proof (add_ownership_lists L _ _ _ _ E3) as (I3 & _).
  assert (Hid : company_id (set_confidence_overall overall r3) = None).
  { cbn [company_id set_confidence_overall]. rewrite I3, I2, I1. reflexivity. }
  split; [exact Hid|]. split.
  - unfold persist_extraction. rewrite Hid. reflexivity.
  - cbn [source_ptr set_confidence_overall].
    clear - E1 E2 E3.
    assert (S1 : source_ptr r1 = source_ptr (initial_result (message_id e))).
    { revert E1. generalize (initial_result (message_id e)). intros r0.
      destruct (_classify_email _ _); cbn [extract_by_type];
        try (intro X; injection X as <-; reflexivity).
      - unfold _extract_update.
        destruct (extract_metrics _); [|discriminate]. cbn [bind].
        destruct (date_parse _); [|discriminate]. cbn [bind].
        destruct (minus_days _ 30); [|discriminate]. cbn [bind].
        unfold facts_append. destruct (dict_get _ _) as [[|]|];
          try discriminate. intro X; injection X as <-. reflexivity.
      - unfold _extract_notebook_lm.
        destruct (extract_metrics _); [|discriminate]. cbn [bind].
        intro X; injection X as <-. reflexivity.
      - unfold _extract_cap_table.
        destruct (extract_ownership _) as [[|]|]; [| |discriminate];
          cbn [bind].
        + unfold facts_append. destruct (dict_get _ _) as [[|]|];
            try discriminate. intro X; injection X as <-. reflexivity.
        + intro X; injection X as <-. reflexivity. }
    assert (S2 : source_ptr r2 = source_ptr r1).
    { revert E2. generalize r1. clear.
      induction amounts as [|[a c] rest IH]; intro r0; cbn [add_cashflows].
      - intro X; injection X as <-. reflexivity.
      - destruct (contains _ _); cbn [bind].
        + unfold facts_append at 1. destruct (dict_get _ _) as [[|]|];
            try discriminate. cbn [bind]. intro X. rewrite (IH _ X).
          reflexivity.
        + apply IH. }
    assert (S3 : source_ptr r3 = source_ptr r2).
    { revert E3. destruct own; cbn [add_ownership].
      - unfold facts_append. destruct (dict_get _ _) as [[|]|];
          try discriminate. intro X; injection X as <-. reflexivity.
      - intro X; injection X as <-. reflexivity. }
    rewrite S3, S2, S1. reflexivity.
Qed.

Lemma extracted_envelope_is_skipped_witness :
  exists r,
    @extract_from_email day_numbers update_email = Ok r
    /\ company_id r = None
    /\ persist_extraction empty_store r = Ok (empty_store, Skipped)
    /\ source_id (source_ptr r) = message_id update_email.
Proof.
  destruct (@extract_from_email day_numbers update_email) as [r|] eqn:E;
    [|vm_compute in E; discriminate E].
  exists r. split; [reflexivity|].
  exact (extracted_envelope_is_skipped day_numbers update_email r
           empty_store E).
Defined.

(** ** Update messages without a date of receipt *)

(** For a message classified [UPDATE], [receivedDateTime] is parsed before
    the period found in the text is looked at: when it does not parse (the
    key is missing, say), the extraction raises, even if the text names
    the period. *)
Theorem update_needs_received_date :
  forall (L : DateLib) (e : email),
    _classify_email (subject e) (body e) = UPDATE ->
    date_parse (receivedDateTime e) = None ->
    exists err,
      extract_from_email e = Raise err
      /\ (err = ParserError \/ extract_metrics (full_text e) = Raise err).
Proof.
  intros L e Hty Hd. unfold extract_from_email. cbv zeta. rewrite Hty.
  cbn [extract_by_type]. unfold _extract_update.
  destruct (extract_metrics (full_text e)) as [metrics|err]; cbn [bind].
  - rewrite Hd. cbn [bind]. exists ParserError. split; [reflexivity|].
    left. reflexivity.
  - exists err. split; [reflexivity|]. right. reflexivity.
Qed.

Lemma update_needs_received_date_witness :
  exists err,
    @extract_from_email day_numbers
      {| subject := txt "[UPDATE] Acme, quarter ending March 31, 2025";
         body := txt "ARR: $2M";
         from_address := []; message_id := txt "m3";
         receivedDateTime := [] |} = Raise err
    /\ (err = ParserError
        \/ extract_metrics
             (full_text
                {| subject := txt "[UPDATE] Acme, quarter ending March 31, 2025";
                   body := txt "ARR: $2M";
                   from_address := []; message_id := txt "m3";
                   receivedDateTime := [] |}) = Raise err).
Proof.
  apply (update_needs_received_date day_numbers
           {| subject := txt "[UPDATE] Acme, quarter ending March 31, 2025";
              body := txt "ARR: $2M";
              from_address := []; message_id := txt "m3";
              receivedDateTime := [] |}).
  - vm_compute. reflexivity.
  - reflexivity.
Defined.

(** ** What one call of [persist_extraction] writes *)

Lemma persist_cashflows_spec r cid cfs : forall t counts n,
  dict_get (txt "cashflows") counts = Some n ->
  exists added,
    fst (persist_cashflows r cid cfs t counts) = t ++ added
    /\ length added <= length cfs
    /\ dict_get (txt "cashflows") (snd (persist_cashflows r cid cfs t counts))
       = Some (n + Z.of_nat (length added))%Z
    /\ forall k : string,
         txt k <> txt "cashflows" ->
         dict_get (txt k) (snd (persist_cashflows r cid cfs t counts))
         = dict_get (txt k) counts.
Proof.
  induction cfs as [|cf rest IH]; intros t counts n Hn;
    cbn [persist_cashflows].
  - exists []. rewrite app_nil_r, Z.add_0_r. cbn [fst snd length].
    repeat split; auto.
  - unfold insert_cashflow.
    destruct (existsb (cashflow_conflict (cashflow_row_of r cid cf)) t).
    + destruct (IH t counts n Hn) as (added & Ht & Hl & Hc & Hk).
      exists added. cbn [length]. repeat split; auto.
    + destruct (IH (t ++ [cashflow_row_of r cid cf]) (incr "cashflows" counts)
                  (n + 1)%Z (incr_get "cashflows" counts n Hn))
        as (added & Ht & Hl & Hc & Hk).
      exists (cashflow_row_of r cid cf :: added).
      rewrite Ht, Hc, <- app_assoc. cbn [app length].
      repeat split; [lia | f_equal; lia |].
      intros k N. rewrite (Hk k N). apply incr_keeps. exact N.
Qed.

Lemma upsert_ownership_length row : forall t,
  length t <= length (upsert_ownership row t) <= S (length t).
Proof.
  induction t as [|old t IH]; cbn [upsert_ownership length]; [lia|].
  destruct (ownership_conflict row old); cbn [length]; lia.
Qed.

Lemma persist_ownerships_spec r cid owns : forall t counts n,
  dict_get (txt "ownerships") counts = Some n ->
  length t <= length (fst (persist_ownerships r cid owns t counts))
           <= length t + length owns
  /\ dict_get (txt "ownerships") (snd (persist_ownerships r cid owns t counts))
     = Some (n + Z.of_nat (length owns))%Z
  /\ forall k : string,
       txt k <> txt "ownerships" ->
       dict_get (txt k) (snd (persist_ownerships r cid owns t counts))
       = dict_get (txt k) counts.
Proof.
  induction owns as [|own rest IH]; intros t counts n Hn;
    cbn [persist_ownerships].
  - cbn [fst snd length]. rewrite Z.add_0_r. repeat split; auto; lia.
  - destruct (IH (upsert_ownership (ownership_row_of r cid own) t)
                (incr "ownerships" counts) (n + 1)%Z
                (incr_get "ownerships" counts n Hn)) as (Hl & Hc & Hk).
    pose proof (upsert_ownership_length (ownership_row_of r cid own) t).
    cbn [length]. repeat split; try lia.
    + rewrite Hc. f_equal. lia.
    + intros k N. rewrite (Hk k N). apply incr_keeps. exact N.
Qed.

Lemma persist_updates_others r cid ups : forall t counts (k : string),
  txt k <> txt "updates" ->
  dict_get (txt k) (snd (persist_updates r cid ups t counts))
  = dict_get (txt k) counts.
Proof.
  induction ups as [|u rest IH]; intros t counts k N; cbn [persist_updates].
  - reflexivity.
  - rewrite (IH _ _ k N). apply incr_keeps. exact N.
Qed.

(** One successful call of [persist_extraction] only adds: cash flows and
    updates are appended, no ownership row is lost, and the ingestion log
    gets one entry that holds the counters returned.  The cash-flow and
    update counters are the numbers of rows added; the ownership counter is
    the number of ownership facts, whether they made a new row or updated
    an old one; and the counters of companies, rounds, contacts and
    documents stay at 0, since these facts are never written. *)
Theorem persist_extraction_accounting :
  forall (db db' : store) (env : envelope) (counts : list (text * Z)),
    persist_extraction db env = Ok (db', Success counts) ->
    exists cfs owns ups added entry,
      facts_items "cashflows" (facts env) = Ok cfs
      /\ facts_items "ownerships" (facts env) = Ok owns
      /\ facts_items "updates" (facts env) = Ok ups
      /\ cashflow_table db' = cashflow_table db ++ added
      /\ length added <= length cfs
      /\ dict_get (txt "cashflows") counts = Some (Z.of_nat (length added))
      /\ length (ownership_table db) <= length (ownership_table db')
                                     <= length (ownership_table db) + length owns
      /\ dict_get (txt "ownerships") counts = Some (Z.of_nat (length owns))
      /\ length (update_table db') = length (update_table db) + length ups
      /\ dict_get (txt "updates") counts = Some (Z.of_nat (length ups))
      /\ dict_get (txt "company") counts = Some 0%Z
      /\ dict_get (txt "rounds") counts = Some 0%Z
      /\ dict_get (txt "contacts") counts = Some 0%Z
      /\ dict_get (txt "documents") counts = Some 0%Z
      /\ ingestion_log db' = ingestion_log db ++ [entry]
      /\ log_records_created entry = counts
      /\ log_status entry = txt "success".
Proof.
  intros db db' env counts. unfold persist_extraction.
  destruct (company_id env) as [cid|]; [|discriminate].
  destruct (is_empty cid); [discriminate|].
  set (c0 := [(txt "company", 0); (txt "rounds", 0); (txt "ownerships", 0);
              (txt "cashflows", 0); (txt "updates", 0); (txt "contacts", 0);
              (txt "documents", 0)]%Z).
  destruct (facts_items "cashflows" (facts env)) as [cfs|]; [|discriminate].
  cbn [bind].
  destruct (persist_cashflows_spec env cid cfs (cashflow_table db) c0 0%Z
              eq_refl) as (added & Ht1 & Hl1 & Hc1 & Hk1).
  destruct (persist_cashflows env cid cfs (cashflow_table db) c0)
    as [cft c1].
  cbn [fst snd] in *.
  destruct (facts_items "ownerships" (facts env)) as [owns|]; [|discriminate].
  cbn [bind].
  destruct (persist_ownerships_spec env cid owns (ownership_table db) c1 0%Z)
    as (Hl2 & Hc2 & Hk2).
  { rewrite Hk1 by keys_differ. reflexivity. }
  destruct (persist_ownerships env cid owns (ownership_table db) c1)
    as [owt c2].
  cbn [fst snd] in *.
  destruct (facts_items "updates" (facts env)) as [ups|]; [|discriminate].
  cbn [bind].
  pose proof (persist_updates_rows env cid ups (update_table db) c2) as Hr3.
  pose proof (persist_updates_count env cid ups (update_table db) c2 0%Z)
    as Hc3.
  pose proof (persist_updates_others env cid ups (update_table db) c2) as Hk3.
  destruct (persist_updates env cid ups (update_table db) c2) as [upt c3].
  cbn [fst snd] in *.
  intro H. injection H as <- <-.
  eexists cfs, owns, ups, added, _.
  cbn [cashflow_table ownership_table update_table ingestion_log].
  repeat match goal with |- _ /\ _ => split end;
    try reflexivity; try assumption; try lia.
  - rewrite Hk3, Hk2 by keys_differ. exact Hc1.
  - rewrite Hk3 by keys_differ. exact Hc2.
  - rewrite Hr3, length_app, length_map. reflexivity.
  - apply Hc3. rewrite Hk2, Hk1 by keys_differ. reflexivity.
  - rewrite Hk3, Hk2, Hk1 by keys_differ. reflexivity.
  - rewrite Hk3, Hk2, Hk1 by keys_differ. reflexivity.
  - rewrite Hk3, Hk2, Hk1 by keys_differ. reflexivity.
  - rewrite Hk3, Hk2, Hk1 by keys_differ. reflexivity.
Qed.

Lemma persist_extraction_accounting_witness :
  exists db' counts cfs owns ups added entry,
    persist_extraction empty_store sample_result = Ok (db', Success counts)
    /\ facts_items "cashflows" (facts sample_result) = Ok cfs
    /\ facts_items "ownerships" (facts sample_result) = Ok owns
    /\ facts_items "updates" (facts sample_result) = Ok ups
    /\ cashflow_table db' = cashflow_table empty_store ++ added
    /\ length added <= length cfs
    /\ dict_get (txt "cashflows") counts = Some (Z.of_nat (length added))
    /\ length (ownership_table empty_store) <= length (ownership_table db')
       <= length (ownership_table empty_store) + length owns
    /\ dict_get (txt "ownerships") counts = Some (Z.of_nat (length owns))
    /\ length (update_table db')
       = length (update_table empty_store) + length ups
    /\ dict_get (txt "updates") counts = Some (Z.of_nat (length ups))
    /\ dict_get (txt "company") counts = Some 0%Z
    /\ dict_get (txt "rounds") counts = Some 0%Z
    /\ dict_get (txt "contacts") counts = Some 0%Z
    /\ dict_get (txt "documents") counts = Some 0%Z
    /\ ingestion_log db' = ingestion_log empty_store ++ [entry]
    /\ log_records_created entry = counts
    /\ log_status entry = txt "success".
Proof.
  destruct (persist_extraction empty_store sample_result)
    as [[db' [|counts]]|] eqn:E;
    [vm_compute in E; discriminate E | | vm_compute in E; discriminate E].
  destruct (persist_extraction_accounting empty_store db' sample_result
              counts E) as (cfs & owns & ups & added & entry & H).
  exists db', counts, cfs, owns, ups, added, entry.
  split; [reflexivity | exact H].
Defined.

(** ** Percentages that are not numbers *)

Lemma dec_fix_fin neg c e d : dec_fix neg c e = Ok d -> dec_is_nan d = false.
Proof.
  unfold dec_fix.
  repeat match goal with
         | |- context [match ?x with _ => _ end] => destruct x
         | |- context [if ?x then _ else _] => destruct x
         end;
    intro H; first [discriminate H | injection H as <-; reflexivity].
Qed.

Lemma dec_mul_int_not_nan a k d :
  dec_is_nan a = false -> dec_mul_int a k = Ok d -> dec_is_nan d = false.
Proof.
  unfold dec_mul_int, dec_of_Z, dec_mul. destruct a as [n c e|n|n s p];
    [| |discriminate]; intros _.
  - apply dec_fix_fin.
  - destruct (dec_is_zero _); [discriminate|].
    intro H. injection H as <-. reflexivity.
Qed.

(** Run as a script, [clean_percentage] lets one exception escape, the
    overflow of the product by 100; a text that does not parse, and a NaN,
    whose comparison with 1 is an invalid operation, give [None], so that
    a percentage returned is never a NaN.  Imported as a module, the same
    failures reach an [except] clause that names the unbound [decimal], and
    the only exception that escapes is [NameError]. *)
Theorem clean_percentage_outcomes :
  forall value : cell,
    (forall e, clean_percentage true value = Raise e -> e = DecimalOverflow)
    /\ (forall d, clean_percentage true value = Ok (Some d) ->
                  dec_is_nan d = false)
    /\ (is_missing value = false ->
        match dec_of_text (percentage_text value) with
        | None | Some (DNaN _ _ _) => clean_percentage true value = Ok None
        | _ => True
        end)
    /\ (forall e, clean_percentage false value = Raise e -> e = NameError)
    /\ (is_missing value = false ->
        match dec_of_text (percentage_text value) with
        | None | Some (DNaN _ _ _) =>
            clean_percentage false value = Raise NameError
        | _ => True
        end).
Proof.
  intro value.
  assert (Hbody : forall b,
             clean_percentage b value
             = if is_missing value then Ok None
               else
                 match dec_of_text (percentage_text value) with
                 | None => except_decimal b InvalidOperation (Ok None)
                 | Some pct =>
                     if dec_is_nan pct
                     then except_decimal b InvalidOperation (Ok None)
                     else
                       match dec_cmp_num pct (dec_of_Z 1) with
                       | Gt => Ok (Some pct)
                       | _ =>
                           match dec_mul_int pct 100 with
                           | Ok d => Ok (Some d)
                           | Raise e => except_decimal b e (Ok None)
                           end
                       end
                 end).
  { intro b. unfold clean_percentage. destruct (is_missing value);
      [reflexivity|].
    cbv zeta. unfold Decimal, try_decimal.
    destruct (dec_of_text (percentage_text value)) as [pct|]; [|reflexivity].
    cbn [bind]. unfold dec_le, dec_cmp.
    replace (dec_is_nan (dec_of_Z 1)) with false by reflexivity.
    rewrite orb_false_r. destruct (dec_is_nan pct); [reflexivity|].
    cbn [bind].
    destruct (dec_cmp_num pct (dec_of_Z 1)); cbn [bind];
      try reflexivity;
      destruct (dec_mul_int pct 100); reflexivity. }
  repeat split.
  - intros e. rewrite Hbody. destruct (is_missing value); [discriminate|].
    destruct (dec_of_text (percentage_text value)) as [pct|];
      [|discriminate].
    destruct (dec_is_nan pct); [discriminate|].
    destruct (dec_cmp_num pct (dec_of_Z 1)); try discriminate;
      destruct (dec_mul_int pct 100) as [d|e'] eqn:Em; try discriminate;
      destruct (dec_mul_raises _ _ _ Em) as [->| ->]; cbn;
      first [discriminate | intro H; injection H as <-; reflexivity].
  - intros d. rewrite Hbody. destruct (is_missing value); [discriminate|].
    destruct (dec_of_text (percentage_text value)) as [pct|];
      [|discriminate].
    destruct (dec_is_nan pct) eqn:En; [discriminate|].
    destruct (dec_cmp_num pct (dec_of_Z 1));
      try (intro H; injection H as <-; exact En);
      destruct (dec_mul_int pct 100) as [d'|e'] eqn:Em;
      try (intro H; injection H as <-;
           exact (dec_mul_int_not_nan _ _ _ En Em));
      destruct (dec_mul_raises _ _ _ Em) as [->| ->]; cbn; discriminate.
  - intro Hm. rewrite Hbody, Hm.
    destruct (dec_of_text (percentage_text value)) as [[| |]|];
      first [exact I | reflexivity].
  - intros e. rewrite Hbody. destruct (is_missing value); [discriminate|].
    destruct (dec_of_text (percentage_text value)) as [pct|];
      [|cbn; intro H; injection H as <-; reflexivity].
    destruct (dec_is_nan pct);
      [cbn; intro H; injection H as <-; reflexivity|].
    destruct (dec_cmp_num pct (dec_of_Z 1)); try discriminate;
      destruct (dec_mul_int pct 100) as [d|e'] eqn:Em; try discriminate;
      cbn; intro H; injection H as <-; reflexivity.
  - intro Hm. rewrite Hbody, Hm.
    destruct (dec_of_text (percentage_text value)) as [[| |]|];
      first [exact I | reflexivity].
Qed.

Lemma clean_percentage_outcomes_witness :
  clean_percentage true (CStr (txt "NaN%")) = Ok None
  /\ clean_percentage false (CStr (txt "n/a")) = Raise NameError.
Proof.
  split.
  - apply (proj1 (proj2 (proj2 (clean_percentage_outcomes
                                  (CStr (txt "NaN%")))))).
    reflexivity.
  - apply (proj2 (proj2 (proj2 (proj2 (clean_percentage_outcomes
                                         (CStr (txt "n/a"))))))).
    reflexivity.
Defined.

(** ** Matching a message to a company *)

Lemma split_on_go_run (sep : ascii) : forall (w cur rest : text),
  existsb (fun c => ascii_eqb c sep) w = false ->
  split_on_go sep cur (w ++ rest) = split_on_go sep (rev w ++ cur) rest.
Proof.
  induction w as [|c w IH]; intros cur rest H; [reflexivity|].
  cbn [existsb] in H. apply orb_false_iff in H as [Hc H].
  cbn [app split_on_go rev]. rewrite Hc, (IH _ _ H), <- app_assoc.
  reflexivity.
Qed.

Lemma split_on_two (sep : ascii) (a b : text) :
  existsb (fun c => ascii_eqb c sep) a = false ->
  existsb (fun c => ascii_eqb c sep) b = false ->
  split_on sep (a ++ sep :: b) = [a; b].
Proof.
  intros Ha Hb. unfold split_on.
  rewrite (split_on_go_run sep a [] _ Ha), app_nil_r. cbn [split_on_go].
  unfold ascii_eqb at 1. rewrite Ascii.eqb_refl, rev_involutive.
  pose proof (split_on_go_run sep b [] [] Hb) as E.
  rewrite !app_nil_r in E. rewrite E.
  cbn [split_on_go]. rewrite rev_involutive. reflexivity.
Qed.

Lemma dict_get_In {V : Type} (k : text) (v : V) (d : list (text * V)) :
  dict_get k d = Some v -> In (k, v) d.
Proof.
  induction d as [|[a w] d IH]; cbn [dict_get]; [discriminate|].
  destruct (text_eqb k a) eqn:E.
  - apply text_eqb_eq in E. subst a. intro H. injection H as <-.
    left. reflexivity.
  - intro H. right. exact (IH H).
Qed.

(** The sender's domain decides first: when the address is [local@domain]
    and the domain, in lower case, is a key of the cache, its company is
    the answer whatever the subject and the body say. *)
Theorem match_company_domain_first :
  forall (company_cache : list (text * text))
         (local domain subject body company_id : text),
    existsb (fun c => ascii_eqb c "@") local = false ->
    existsb (fun c => ascii_eqb c "@") domain = false ->
    domain <> [] ->
    dict_get (lower domain) company_cache = Some company_id ->
    match_company company_cache (local ++ "@"%char :: domain) subject body
    = Some company_id.
Proof.
  intros cache local domain subject body id Hl Hd Hne Hg.
  unfold match_company, sender_domain.
  assert (Hat : existsb (fun c => ascii_eqb c "@") (local ++ "@"%char :: domain)
                = true).
  { rewrite existsb_app. cbn [existsb]. rewrite orb_true_r. reflexivity. }
  rewrite Hat, (split_on_two "@" local domain Hl Hd). cbn [nth].
  destruct domain as [|c domain]; [contradiction|].
  cbn [lower map is_empty]. cbn [lower map] in Hg. rewrite Hg. reflexivity.
Qed.

Lemma match_company_domain_first_witness :
  match_company [(txt "acme", txt "c-1"); (txt "bolt.io", txt "c-2")]
    (txt "cfo@Bolt.io") (txt "Acme quarterly numbers") []
  = Some (txt "c-2").
Proof.
  apply (match_company_domain_first
           [(txt "acme", txt "c-1"); (txt "bolt.io", txt "c-2")]
           (txt "cfo") (txt "Bolt.io") (txt "Acme quarterly numbers") []
           (txt "c-2")); try reflexivity.
  discriminate.
Defined.

Lemma match_company_cases :
  forall (company_cache : list (text * text)) (email_from subject body : text),
    (forall company_id,
        match_company company_cache email_from subject body = Some company_id ->
        In company_id (dict_values company_cache))
    /\ (match_company company_cache email_from subject body = None ->
        forall name company_id,
          In (name, company_id) company_cache ->
          contains name (lower (subject ++ txt " " ++ body)) = false).
Proof.
  intros cache from subject body. unfold match_company.
  set (by_domain := match sender_domain from with
                    | Some domain =>
                        if is_empty domain then None
                        else dict_get domain cache
                    | None => None
                    end).
  assert (Hd : forall id, by_domain = Some id -> In id (dict_values cache)).
  { unfold by_domain. intros id. destruct (sender_domain from) as [d|];
      [|discriminate].
    destruct (is_empty d); [discriminate|]. intro H.
    apply dict_get_In in H. unfold dict_values.
    apply in_map_iff. exists (d, id). split; [reflexivity | exact H]. }
  destruct by_domain as [id0|]; split.
  - intros id H. injection H as <-. apply Hd. reflexivity.
  - discriminate.
  - intros id H. destruct (find _ cache) as [[k v]|] eqn:Ef; [|discriminate].
    injection H as <-. apply find_some in Ef as [Hin _].
    unfold dict_values. apply in_map_iff. exists (k, v).
    split; [reflexivity | exact Hin].
  - intros H name id Hin.
    destruct (find _ cache) as [[k v]|] eqn:Ef; [discriminate|].
    exact (find_none _ _ Ef (name, id) Hin).
Qed.

(** The answer of [match_company] is an id of the cache; there is none
    only if no key of the cache occurs in the lower-cased subject and
    body. *)
Theorem match_company_result :
  forall (company_cache : list (text * text)) (email_from subject body : text),
    (forall company_id,
        match_company company_cache email_from subject body = Some company_id ->
        In company_id (dict_values company_cache))
    /\ (match_company company_cache email_from subject body = None ->
        forall name company_id,
          In (name, company_id) company_cache ->
          contains name (lower (subject ++ txt " " ++ body)) = false).
Proof. exact match_company_cases. Qed.

Lemma match_company_result_witness :
  In (txt "c-1")
     (dict_values [(txt "acme", txt "c-1"); (txt "bolt.io", txt "c-2")]).
Proof.
  apply (proj1 (match_company_result
                  [(txt "acme", txt "c-1"); (txt "bolt.io", txt "c-2")]
                  (txt "noreply") (txt "ACME: board deck") [])
           (txt "c-1")).
  reflexivity.
Defined.

(** *** The cache and the table it is loaded from *)

Lemma dict_set_keeps {V : Type} (k k' : text) (v : V) (d : list (text * V)) :
  dict_get k d <> None -> dict_get k (dict_set k' v d) <> None.
Proof.
  intro H. destruct (text_eqb k k') eqn:E.
  - apply text_eqb_eq in E. subst k'. rewrite dict_get_set_same. discriminate.
  - apply text_eqb_neq in E. rewrite dict_get_set_other by exact E. exact H.
Qed.

Lemma dict_set_values {V : Type} (k : text) (v v' : V) (d : list (text * V)) :
  In v' (dict_values (dict_set k v d)) -> v' = v \/ In v' (dict_values d).
Proof.
  unfold dict_values. induction d as [|[a w] d IH]; cbn [dict_set map snd In].
  - intros [H|[]]. left. symmetry. exact H.
  - destruct (text_eqb k a); cbn [map snd In].
    + intros [H|H]; [left; symmetry; exact H | right; right; exact H].
    + intros [H|H]; [right; left; exact H|].
      destruct (IH H) as [E|E]; [left; exact E | right; right; exact E].
Qed.

(** One row adds the key of its legal name, keeps the keys there were,
    and writes no id but its own. *)
Lemma load_row_spec mappings row mappings' :
  load_row mappings row = Ok mappings' ->
  (forall k, dict_get k mappings <> None -> dict_get k mappings' <> None)
  /\ (forall name, row_legal_name row = Some name ->
                   dict_get (lower name) mappings' <> None)
  /\ (forall id, In id (dict_values mappings') ->
                 id = row_company_id row \/ In id (dict_values mappings)).
Proof.
  unfold load_row.
  set (m1 := if column_truthy (row_website row) then _ else mappings).
  assert (K1 : forall k, dict_get k mappings <> None -> dict_get k m1 <> None).
  { intros k H. unfold m1. destruct (column_truthy _); [|exact H].
    destruct (findall _ _); [exact H | apply dict_set_keeps; exact H]. }
  assert (V1 : forall id, In id (dict_values m1) ->
                          id = row_company_id row \/ In id (dict_values mappings)).
  { intros id H. unfold m1 in H. destruct (column_truthy _); [|right; exact H].
    destruct (findall _ _); [right; exact H|].
    apply dict_set_values in H. exact H. }
  clearbody m1.
  destruct (row_legal_name row) as [legal|]; [|discriminate].
  intro H. injection H as <-. split; [|split].
  - intros k Hk. destruct (column_truthy (row_aka row));
      repeat apply dict_set_keeps; apply K1; exact Hk.
  - intros name E. injection E as <-.
    assert (G : dict_get (lower legal)
                  (dict_set (lower legal) (row_company_id row) m1) <> None).
    { rewrite dict_get_set_same. discriminate. }
    destruct (column_truthy (row_aka row));
      [apply dict_set_keeps; exact G | exact G].
  - intros id Hid. destruct (column_truthy (row_aka row)).
    + apply dict_set_values in Hid as [E|Hid]; [left; exact E|].
      apply dict_set_values in Hid as [E|Hid]; [left; exact E|].
      apply V1. exact Hid.
    + apply dict_set_values in Hid as [E|Hid]; [left; exact E|].
      apply V1. exact Hid.
Qed.

Lemma load_rows_spec : forall rows mappings cache,
  load_rows mappings rows = Ok cache ->
  (forall k, dict_get k mappings <> None -> dict_get k cache <> None)
  /\ (forall row name, In row rows -> row_legal_name row = Some name ->
                       dict_get (lower name) cache <> None)
  /\ (forall id, In id (dict_values cache) ->
                 In id (map row_company_id rows)
                 \/ In id (dict_values mappings)).
Proof.
  induction rows as [|row rows IH]; intros mappings cache; cbn [load_rows].
  - intro H. injection H as <-. repeat split; auto; try (intros r n []).
  - destruct (load_row mappings row) as [m1|] eqn:E1; [|discriminate].
    cbn [bind]. intro H.
    destruct (load_row_spec _ _ _ E1) as (K1 & N1 & V1).
    destruct (IH _ _ H) as (K2 & N2 & V2).
    split; [|split].
    + intros k Hk. apply K2, K1, Hk.
    + intros r name [<-|Hin] Hn; [apply K2, (N1 name Hn)|].
      exact (N2 r name Hin Hn).
    + intros id Hid. cbn [map In]. destruct (V2 id Hid) as [Hr|Hm].
      * left. right. exact Hr.
      * destruct (V1 id Hm) as [->|Hm']; [left; left; reflexivity|].
        right. exact Hm'.
Qed.

(** With the cache loaded from the company table, a message whose subject
    or body contains the legal name of a company of the table, in any
    case, is matched, and the answer is an id of the table; it need not be
    the id of that company, since the domain and earlier keys come
    first. *)
Theorem known_name_is_matched :
  forall (rows : list company_row) (company_cache : list (text * text))
         (row : company_row) (legal_name email_from subject body : text),
    _load_company_mappings rows = Ok company_cache ->
    In row rows ->
    row_legal_name row = Some legal_name ->
    contains (lower legal_name) (lower (subject ++ txt " " ++ body)) = true ->
    exists company_id,
      match_company company_cache email_from subject body = Some company_id
      /\ In company_id (map row_company_id rows).
Proof.
  intros rows cache row name from subject body Hload Hin Hname Hc.
  destruct (load_rows_spec rows [] cache Hload) as (_ & Hkey & Hval).
  destruct (match_company_cases cache from subject body) as [Hsome Hnone].
  destruct (match_company cache from subject body) as [id|] eqn:Em.
  - exists id. split; [reflexivity|].
    destruct (Hval id (Hsome id eq_refl)) as [H|[]]. exact H.
  - exfalso. specialize (Hkey row name Hin Hname).
    destruct (dict_get (lower name) cache) as [v|] eqn:Eg; [|congruence].
    apply dict_get_In in Eg. rewrite (Hnone eq_refl _ _ Eg) in Hc.
    discriminate Hc.
Qed.

Lemma known_name_is_matched_witness :
  exists company_id,
    match_company [(txt "acme.com", txt "c-1"); (txt "acme labs", txt "c-1");
                   (txt "bolt", txt "c-2")]
      (txt "partner@fund.vc") (txt "Intro: BOLT <> MCC") [] = Some company_id
    /\ In company_id (map row_company_id
                        [ {| row_company_id := txt "c-1";
                             row_legal_name := Some (txt "Acme Labs");
                             row_aka := None;
                             row_website := Some (txt "https://www.acme.com/") |};
                          {| row_company_id := txt "c-2";
                             row_legal_name := Some (txt "Bolt");
                             row_aka := Some [];
                             row_website := None |} ]).
Proof.
  apply (known_name_is_matched
           [ {| row_company_id := txt "c-1";
                row_legal_name := Some (txt "Acme Labs");
                row_aka := None;
                row_website := Some (txt "https://www.acme.com/") |};
             {| row_company_id := txt "c-2";
                row_legal_name := Some (txt "Bolt");
                row_aka := Some [];
                row_website := None |} ]
           _
           {| row_company_id := txt "c-2";
              row_legal_name := Some (txt "Bolt");
              row_aka := Some [];
              row_website := None |}
           (txt "Bolt")).
  - vm_compute. reflexivity.
  - right. left. reflexivity.
  - reflexivity.
  - vm_compute. reflexivity.
Defined.

(* ===================================================================== *)
(** * Part VII.  Further properties of the backfill                       *)
(* ===================================================================== *)

Section CsvPersistProofs.
Context {L : DateLib}.
Variable company_collides : company_entry -> company_entry -> bool.
Variable cashflow_collides : csv_cashflow -> csv_cashflow -> bool.
Variable ownership_collides : csv_ownership -> csv_ownership -> bool.

Lemma upsert_company_length row : forall t,
  length t <= length (upsert_company company_collides row t) <= S (length t).
Proof.
  induction t as [|old t IH]; cbn [upsert_company length]; [lia|].
  destruct (company_collides row old); cbn [length]; lia.
Qed.

Lemma insert_csv_cashflow_spec row t :
  let (t', returned) := insert_csv_cashflow cashflow_collides row t in
  length t' = length t + (if returned then 1 else 0).
Proof.
  unfold insert_csv_cashflow. destruct (existsb _ t).
  - lia.
  - rewrite length_app. reflexivity.
Qed.

Lemma counters_incr (k : string) counts a b c d :
  counters counts a b c d ->
  counters (incr k counts)
    (if text_eqb (txt k) (txt "companies") then a + 1 else a)
    (if text_eqb (txt k) (txt "rounds") then b + 1 else b)
    (if text_eqb (txt k) (txt "cashflows") then c + 1 else c)
    (if text_eqb (txt k) (txt "ownerships") then d + 1 else d).
Proof.
  intros (Ha & Hb & Hc & Hd). unfold counters.
  repeat split;
    match goal with
    | |- dict_get (txt ?key) _ = Some (if text_eqb _ _ then _ else _) =>
        destruct (text_eqb (txt k) (txt key)) eqn:E;
        [apply text_eqb_eq in E; unfold incr; rewrite E;
         first [rewrite Ha | rewrite Hb | rewrite Hc | rewrite Hd];
         apply dict_get_set_same
        |apply text_eqb_neq in E; unfold incr;
         destruct (dict_get (txt k) counts);
         [rewrite dict_get_set_other by congruence|]; assumption]
    end.
Qed.

(** What one record adds. *)
Lemma persist_record_spec db counts rec db' counts' a b c d :
  counters counts a b c d ->
  persist_record company_collides cashflow_collides ownership_collides
    (db, counts) rec = Ok (db', counts') ->
  exists c',
    counters counts' (a + 1)
      (b + (if has_round rec then 1 else 0)) c'
      (d + (if truthy "ownership_pct" rec then 1 else 0))
    /\ (c' - c = Z.of_nat (length (csv_cashflow_table db'))
                 - Z.of_nat (length (csv_cashflow_table db)))%Z
    /\ length (csv_cashflow_table db) <= length (csv_cashflow_table db')
    /\ round_table db'
       = round_table db
         ++ (if has_round rec
             then [round_of (rec_get_or "company_id" RNone rec) rec] else [])
    /\ length (company_table db) <= length (company_table db')
                                 <= S (length (company_table db)).
Proof.
  intros Hc. unfold persist_record, rec_item, rec_get_or.
  destruct (dict_get (txt "company_id") rec) as [cid|]; [|discriminate].
  cbn [of_option bind or_else].
  destruct (dict_get (txt "company_name") rec) as [cname|]; [|discriminate].
  cbn [of_option bind].
  apply (counters_incr "companies") in Hc.
  change (text_eqb (txt "companies") (txt "companies")) with true in Hc.
  change (text_eqb (txt "companies") (txt "rounds")) with false in Hc.
  change (text_eqb (txt "companies") (txt "cashflows")) with false in Hc.
  change (text_eqb (txt "companies") (txt "ownerships")) with false in Hc.
  cbv iota in Hc. revert Hc. generalize (incr "companies" counts).
  intros k0 Hc.
  (* the investment *)
  assert (S1 : forall r : result (list csv_cashflow * list (text * Z)),
             r = (if truthy "amount_invested" rec
                  then
                    bind (of_option KeyError
                            (dict_get (txt "amount_invested") rec))
                      (fun amount =>
                         bind (of_option KeyError
                                 (dict_get (txt "source_row") rec))
                           (fun source_row =>
                              let (t, returned) :=
                                insert_csv_cashflow cashflow_collides
                                  {| ccf_company_id := cid;
                                     ccf_date := date_or_today rec;
                                     ccf_kind := Investment;
                                     ccf_amount := amount;
                                     ccf_source_row := source_row |}
                                  (csv_cashflow_table db) in
                              Ok (t, if returned then incr "cashflows" k0
                                     else k0)))
                  else Ok (csv_cashflow_table db, k0)) ->
             forall t1 k1, r = Ok (t1, k1) ->
             exists c1,
               counters k1 (a + 1) b c1 d
               /\ (c1 - c = Z.of_nat (length t1)
                            - Z.of_nat (length (csv_cashflow_table db)))%Z
               /\ length (csv_cashflow_table db) <= length t1).
  { intros r -> t1 k1. destruct (truthy "amount_invested" rec).
    - destruct (dict_get (txt "amount_invested") rec); [|discriminate].
      cbn [of_option bind].
      destruct (dict_get (txt "source_row") rec); [|discriminate].
      cbn [of_option bind].
      match goal with
      | |- context [insert_csv_cashflow cashflow_collides ?row ?t] =>
          pose proof (insert_csv_cashflow_spec row t) as Hi;
          destruct (insert_csv_cashflow cashflow_collides row t)
            as [t' [|]]
      end; intro H; injection H as <- <-.
      + apply (counters_incr "cashflows") in Hc. exists (c + 1)%Z.
        split; [exact Hc|]. split; lia.
      + exists c. split; [exact Hc|]. split; lia.
    - intro H. injection H as <- <-. exists c. split; [exact Hc|].
      split; lia. }
  match goal with
  | |- bind ?r _ = _ -> _ => destruct r as [[t1 k1]|] eqn:E1; [|discriminate]
  end.
  destruct (S1 _ eq_refl t1 k1 eq_refl) as (c1 & Hc1 & Hd1 & Hl1).
  clear S1 E1 Hc. cbn [bind].
  (* the distributions *)
  assert (S2 : forall r : result (list csv_cashflow * list (text * Z)),
             r = (if truthy "distributions" rec
                  then
                    bind (of_option KeyError
                            (dict_get (txt "distributions") rec))
                      (fun amount =>
                         bind (of_option KeyError
                                 (dict_get (txt "source_row") rec))
                           (fun source_row =>
                              let (t, returned) :=
                                insert_csv_cashflow cashflow_collides
                                  {| ccf_company_id := cid;
                                     ccf_date := Today;
                                     ccf_kind := Distribution;
                                     ccf_amount := amount;
                                     ccf_source_row := source_row |} t1 in
                              Ok (t, if returned then incr "cashflows" k1
                                     else k1)))
                  else Ok (t1, k1)) ->
             forall t2 k2, r = Ok (t2, k2) ->
             exists c2,
               counters k2 (a + 1) b c2 d
               /\ (c2 - c1 = Z.of_nat (length t2) - Z.of_nat (length t1))%Z
               /\ length t1 <= length t2).
  { intros r -> t2 k2. destruct (truthy "distributions" rec).
    - destruct (dict_get (txt "distributions") rec); [|discriminate].
      cbn [of_option bind].
      destruct (dict_get (txt "source_row") rec); [|discriminate].
      cbn [of_option bind].
      match goal with
      | |- context [insert_csv_cashflow cashflow_collides ?row ?t] =>
          pose proof (insert_csv_cashflow_spec row t) as Hi;
          destruct (insert_csv_cashflow cashflow_collides row t)
            as [t' [|]]
      end; intro H; injection H as <- <-.
      + apply (counters_incr "cashflows") in Hc1. exists (c1 + 1)%Z.
        split; [exact Hc1|]. split; lia.
      + exists c1. split; [exact Hc1|]. split; lia.
    - intro H. injection H as <- <-. exists c1. split; [exact Hc1|].
      split; lia. }
  match goal with
  | |- bind ?r _ = _ -> _ => destruct r as [[t2 k2]|] eqn:E2; [|discriminate]
  end.
  destruct (S2 _ eq_refl t2 k2 eq_refl) as (c2 & Hc2 & Hd2 & Hl2).
  clear S2 E2 Hc1. cbn [bind].
  (* the ownership *)
  assert (S3 : exists k3 owt,
             (if truthy "ownership_pct" rec
              then
                bind (of_option KeyError (dict_get (txt "ownership_pct") rec))
                  (fun pct =>
                     bind (of_option KeyError
                             (dict_get (txt "source_row") rec))
                       (fun source_row =>
                          Ok (upsert_csv_ownership ownership_collides
                                {| cow_company_id := cid;
                                   cow_as_of_date := date_or_today rec;
                                   cow_fully_diluted_pct := pct;
                                   cow_source_row := source_row |}
                                (csv_ownership_table db),
                              incr "ownerships" k2)))
              else Ok (csv_ownership_table db, k2)) = Ok (owt, k3)
             /\ counters k3 (a + 1) b c2
                  (d + (if truthy "ownership_pct" rec then 1 else 0))
             \/ exists e,
               (if truthy "ownership_pct" rec
                then
                  bind (of_option KeyError
                          (dict_get (txt "ownership_pct") rec))
                    (fun pct =>
                       bind (of_option KeyError
                               (dict_get (txt "source_row") rec))
                         (fun source_row =>
                            Ok (upsert_csv_ownership ownership_collides
                                  {| cow_company_id := cid;
                                     cow_as_of_date := date_or_today rec;
                                     cow_fully_diluted_pct := pct;
                                     cow_source_row := source_row |}
                                  (csv_ownership_table db),
                                incr "ownerships" k2)))
                else Ok (csv_ownership_table db, k2)) = Raise e).
  { destruct (truthy "ownership_pct" rec).
    - destruct (dict_get (txt "ownership_pct") rec);
        [|exists k2, []; right; exists KeyError; reflexivity].
      cbn [of_option bind].
      destruct (dict_get (txt "source_row") rec);
        [|exists k2, []; right; exists KeyError; reflexivity].
      cbn [of_option bind]. eexists. eexists. left.
      split; [reflexivity|].
      apply (counters_incr "ownerships") in Hc2. exact Hc2.
    - exists k2, (csv_ownership_table db). left. split; [reflexivity|].
      rewrite Z.add_0_r. exact Hc2. }
  destruct S3 as (k3 & owt & [[E3 Hc3]|[e E3]]); rewrite E3;
    [|discriminate].
  cbn [bind].
  destruct (has_round rec); intro H; injection H as <- <-;
    cbn [csv_cashflow_table round_table company_table];
    exists c2; rewrite ?Z.add_0_r, ?app_nil_r;
    (split;
     [first [exact Hc3 | exact (counters_incr "rounds" _ _ _ _ _ Hc3)]|]);
    (split; [lia|]); (split; [lia|]); (split; [reflexivity|]);
    apply upsert_company_length.
Qed.

Lemma persist_records_spec : forall records db counts db' counts' a b c d,
  counters counts a b c d ->
  persist_records company_collides cashflow_collides ownership_collides
    (db, counts) records = Ok (db', counts') ->
  exists c',
    counters counts' (a + Z.of_nat (length records))
      (b + Z.of_nat (length (rounds_of records))) c'
      (d + Z.of_nat (length (with_ownership records)))
    /\ (c' - c = Z.of_nat (length (csv_cashflow_table db'))
                 - Z.of_nat (length (csv_cashflow_table db)))%Z
    /\ length (csv_cashflow_table db) <= length (csv_cashflow_table db')
    /\ round_table db' = round_table db ++ rounds_of records
    /\ length (company_table db) <= length (company_table db')
                                 <= length (company_table db) + length records.
Proof.
  induction records as [|rec rest IH]; intros db counts db' counts' a b c d Hc;
    cbn [persist_records].
  - intro H. injection H as <- <-. exists c. cbn [length rounds_of flat_map
      with_ownership filter]. rewrite !Z.add_0_r, app_nil_r.
    split; [exact Hc|]. repeat split; lia.
  - destruct (persist_record company_collides cashflow_collides
                ownership_collides (db, counts) rec) as [[db1 k1]|] eqn:E1;
      [|discriminate].
    cbn [bind]. intro H.
    destruct (persist_record_spec _ _ _ _ _ _ _ _ _ Hc E1)
      as (c1 & Hc1 & Hd1 & Hl1 & Hr1 & Hco1).
    destruct (IH _ _ _ _ _ _ _ _ Hc1 H) as (c2 & Hc2 & Hd2 & Hl2 & Hr2 & Hco2).
    exists c2. unfold rounds_of, with_ownership in *.
    cbn [flat_map filter length]. rewrite Hr2, Hr1, <- app_assoc.
    split.
    + destruct Hc2 as (H1 & H2 & H3 & H4). unfold counters.
      rewrite H1, H2, H3, H4. rewrite length_app.
      destruct (has_round rec), (truthy "ownership_pct" rec);
        cbn [length]; repeat split; f_equal; lia.
    + repeat split; try lia.
Qed.

(** [persist_to_database] counts a company for every record, whether the
    company is new, known or met twice in the list, and an ownership for
    every record with a percentage; the cash-flow counter is the number of
    rows the cash-flow table grew by.  A round is appended for every record
    that has an amount and a date: this insert has no conflict clause. *)
Theorem csv_persist_accounting :
  forall (db db' : csv_store) (extracted_data : list record)
         (counts : list (text * Z)),
    persist_to_database company_collides cashflow_collides ownership_collides
      db extracted_data = Ok (db', counts) ->
    dict_get (txt "companies") counts
    = Some (Z.of_nat (length extracted_data))
    /\ dict_get (txt "ownerships") counts
       = Some (Z.of_nat (length (with_ownership extracted_data)))
    /\ dict_get (txt "rounds") counts
       = Some (Z.of_nat (length (rounds_of extracted_data)))
    /\ round_table db' = round_table db ++ rounds_of extracted_data
    /\ dict_get (txt "cashflows") counts
       = Some (Z.of_nat (length (csv_cashflow_table db'))
               - Z.of_nat (length (csv_cashflow_table db)))%Z
    /\ length (company_table db) <= length (company_table db')
                                 <= length (company_table db)
                                    + length extracted_data.
Proof.
  intros db db' records counts H. unfold persist_to_database in H.
  assert (C0 : counters [(txt "companies", 0); (txt "rounds", 0);
                         (txt "cashflows", 0); (txt "ownerships", 0)]%Z
                 0 0 0 0) by (repeat split; reflexivity).
  destruct (persist_records_spec records _ _ _ _ _ _ _ _ C0 H)
    as (c' & (H1 & H2 & H3 & H4) & Hd & Hl & Hr & Hco).
  rewrite H1, H2, H3, H4. repeat split; try (f_equal; lia); assumption.
Qed.

(** Running the same backfill a second time inserts every round again, and
    counts it again, whatever the unique constraints of the other tables
    are. *)
Theorem csv_persist_twice_repeats_rounds :
  forall (db db1 db2 : csv_store) (extracted_data : list record)
         (counts1 counts2 : list (text * Z)),
    persist_to_database company_collides cashflow_collides ownership_collides
      db extracted_data = Ok (db1, counts1) ->
    persist_to_database company_collides cashflow_collides ownership_collides
      db1 extracted_data = Ok (db2, counts2) ->
    round_table db2
    = round_table db ++ rounds_of extracted_data ++ rounds_of extracted_data
    /\ dict_get (txt "rounds") counts1
       = Some (Z.of_nat (length (rounds_of extracted_data)))
    /\ dict_get (txt "rounds") counts2
       = Some (Z.of_nat (length (rounds_of extracted_data))).
Proof.
  intros db db1 db2 records counts1 counts2 H1 H2.
  unfold persist_to_database in H1, H2.
  assert (C0 : counters [(txt "companies", 0); (txt "rounds", 0);
                         (txt "cashflows", 0); (txt "ownerships", 0)]%Z
                 0 0 0 0) by (repeat split; reflexivity).
  destruct (persist_records_spec records _ _ _ _ _ _ _ _ C0 H1)
    as (c1 & (_ & R1 & _) & _ & _ & Hr1 & _).
  destruct (persist_records_spec records _ _ _ _ _ _ _ _ C0 H2)
    as (c2 & (_ & R2 & _) & _ & _ & Hr2 & _).
  rewrite Hr2, Hr1, <- app_assoc, R1, R2. repeat split.
Qed.
End CsvPersistProofs.

Lemma csv_persist_accounting_witness :
  exists db' counts,
    @persist_to_database day_numbers never never never (@empty_csv_store day_numbers)
      (fst sample_parse) = Ok (db', counts)
    /\ dict_get (txt "companies") counts = Some 2%Z
    /\ dict_get (txt "companies") counts
       = Some (Z.of_nat (length (fst sample_parse)))
    /\ dict_get (txt "ownerships") counts
       = Some (Z.of_nat (length (@with_ownership day_numbers (fst sample_parse))))
    /\ dict_get (txt "rounds") counts
       = Some (Z.of_nat (length (@rounds_of day_numbers (fst sample_parse))))
    /\ round_table db'
       = round_table (@empty_csv_store day_numbers) ++ @rounds_of day_numbers (fst sample_parse)
    /\ dict_get (txt "cashflows") counts
       = Some (Z.of_nat (length (csv_cashflow_table db'))
               - Z.of_nat (length (csv_cashflow_table (@empty_csv_store day_numbers))))%Z
    /\ length (company_table (@empty_csv_store day_numbers)) <= length (company_table db')
       <= length (company_table (@empty_csv_store day_numbers))
          + length (fst sample_parse).
Proof.
  destruct (@persist_to_database day_numbers never never never (@empty_csv_store day_numbers)
              (fst sample_parse)) as [[db' counts]|] eqn:E;
    [|vm_compute in E; discriminate E].
  exists db', counts. split; [reflexivity|].
  pose proof (@csv_persist_accounting day_numbers never never never (@empty_csv_store day_numbers) db'
                (fst sample_parse) counts E) as H.
  split; [|exact H]. destruct H as (H & _). rewrite H. reflexivity.
Defined.

Lemma csv_persist_twice_repeats_rounds_witness :
  exists db1 db2 counts1 counts2,
    @persist_to_database day_numbers never never never (@empty_csv_store day_numbers)
      (fst sample_parse) = Ok (db1, counts1)
    /\ @persist_to_database day_numbers never never never db1
         (fst sample_parse) = Ok (db2, counts2)
    /\ round_table db2
       = round_table (@empty_csv_store day_numbers)
         ++ @rounds_of day_numbers (fst sample_parse) ++ @rounds_of day_numbers (fst sample_parse)
    /\ dict_get (txt "rounds") counts1
       = Some (Z.of_nat (length (@rounds_of day_numbers (fst sample_parse))))
    /\ dict_get (txt "rounds") counts2
       = Some (Z.of_nat (length (@rounds_of day_numbers (fst sample_parse)))).
Proof.
  destruct (@persist_to_database day_numbers never never never (@empty_csv_store day_numbers)
              (fst sample_parse)) as [[db1 counts1]|] eqn:E1;
    [|vm_compute in E1; discriminate E1].
  destruct (@persist_to_database day_numbers never never never db1
              (fst sample_parse)) as [[db2 counts2]|] eqn:E2.
  - exists db1, db2, counts1, counts2.
    split; [reflexivity|]. split; [exact E2|].
    exact (@csv_persist_twice_repeats_rounds day_numbers never never never
             (@empty_csv_store day_numbers) db1 db2 (fst sample_parse) counts1 counts2
             E1 E2).
  - exfalso. vm_compute in E1. injection E1 as <- <-.
    vm_compute in E2. discriminate E2.
Defined.

(** ** The date of a cash flow *)

Lemma set_cleaned_sets (L : DateLib) value rec f (key : string) rec' :
  set_cleaned value rec f key = Ok rec' ->
  dict_get (txt key) rec' <> None
  /\ (forall k, dict_get k rec <> None -> dict_get k rec' <> None)
  /\ (forall k, k <> txt key -> dict_get k rec' = dict_get k rec).
Proof.
  unfold set_cleaned. destruct value as [c|]; [|discriminate].
  destruct (f c) as [v|e]; [|discriminate]. cbn [bind].
  intro H. injection H as <-. split; [|split].
  - rewrite dict_get_set_same. discriminate.
  - intros k Hk. apply dict_set_keeps. exact Hk.
  - intros k N. apply dict_get_set_other. exact N.
Qed.

Lemma clean_field_date b (L : DateLib) columns row rec col mapped rec' :
  clean_field b columns row rec (col, mapped) = Ok rec' ->
  (forall k, dict_get k rec <> None -> dict_get k rec' <> None)
  /\ (mapped = "date"%string ->
      dict_get (txt "investment_date") rec' <> None)
  /\ (mapped <> "date"%string ->
      dict_get (txt "investment_date") rec'
      = dict_get (txt "investment_date") rec).
Proof.
  unfold clean_field.
  destruct (String.eqb_spec mapped "amount_invested") as [->|N1];
    [intro H; apply set_cleaned_sets in H as (_ & K & O);
     repeat split; [exact K | discriminate | intros _; apply O; discriminate]|].
  destruct (String.eqb_spec mapped "distributions") as [->|N2];
    [intro H; apply set_cleaned_sets in H as (_ & K & O);
     repeat split; [exact K | discriminate | intros _; apply O; discriminate]|].
  destruct (String.eqb_spec mapped "ownership") as [->|N3];
    [intro H; apply set_cleaned_sets in H as (_ & K & O);
     repeat split; [exact K | discriminate | intros _; apply O; discriminate]|].
  destruct (String.eqb_spec mapped "date") as [->|N4];
    [intro H; apply set_cleaned_sets in H as (S & K & O);
     repeat split; [exact K | intros _; exact S | congruence]|].
  destruct (String.eqb_spec mapped "round_type") as [->|N5];
    [intro H; apply set_cleaned_sets in H as (_ & K & O);
     repeat split; [exact K | discriminate | intros _; apply O; discriminate]|].
  destruct (String.eqb_spec mapped "valuation") as [->|N6];
    [intro H; apply set_cleaned_sets in H as (_ & K & O);
     repeat split; [exact K | discriminate | intros _; apply O; discriminate]|].
  destruct (String.eqb_spec mapped "status") as [->|N7];
    [intro H; apply set_cleaned_sets in H as (_ & K & O);
     repeat split; [exact K | discriminate | intros _; apply O; discriminate]|].
  intro H. injection H as <-. repeat split; [auto | congruence].
Qed.

Lemma clean_fields_date b (L : DateLib) columns row :
  forall mapping rec rec',
    clean_fields b columns row rec mapping = Ok rec' ->
    (forall k, dict_get k rec <> None -> dict_get k rec' <> None)
    /\ (existsb (fun m : text * string => String.eqb (snd m) "date") mapping
        = true ->
        dict_get (txt "investment_date") rec' <> None)
    /\ (existsb (fun m : text * string => String.eqb (snd m) "date") mapping
        = false ->
        dict_get (txt "investment_date") rec'
        = dict_get (txt "investment_date") rec).
Proof.
  induction mapping as [|[col mapped] mapping IH]; intros rec rec';
    cbn [clean_fields existsb snd].
  - intro H. injection H as <-. repeat split; [auto | discriminate].
  - destruct (clean_field b columns row rec (col, mapped)) as [rec1|e] eqn:E;
      [|discriminate].
    cbn [bind]. intro H.
    destruct (clean_field_date _ _ _ _ _ _ _ _ E) as (K1 & D1 & O1).
    destruct (IH _ _ H) as (K2 & D2 & O2).
    split; [|split].
    + intros k Hk. apply K2, K1, Hk.
    + destruct (String.eqb_spec mapped "date") as [->|N]; cbn [orb].
      * intros _. apply K2, D1. reflexivity.
      * exact D2.
    + destruct (String.eqb_spec mapped "date") as [->|N]; cbn [orb];
        [discriminate|].
      intro Hn. rewrite (O2 Hn). apply O1. exact N.
Qed.

(** The date [persist_to_database] gives to an investment and to an
    ownership is today's date only for a sheet without a date column.
    With a date column every record carries the key [investment_date],
    and a row whose date is missing or unreadable is stored with the date
    [None], not with today's date. *)
Theorem backfill_date_default :
  forall (run_as_main : bool) (L : DateLib) (company_lookup : list (text * text))
         (df : list (list cell)) (log log' : list log_entry)
         (records : list record) (columns : list cell),
    parse_file run_as_main company_lookup df log = Ok (records, log') ->
    nth_error df (find_header_row df) = Some columns ->
    Forall (fun rec =>
              if has_date_column columns
              then date_or_today rec
                   = Given (rec_get_or "investment_date" RNone rec)
              else date_or_today rec = Today)
           records.
Proof.
  intros b L lookup df log log' records columns. unfold parse_file.
  intros H Eh. rewrite Eh in H. injection H as <- _.
  apply Forall_forall. intros rec Hin.
  apply in_flat_map in Hin as ([entries o] & Ho & Hrec).
  unfold outcomes in Ho. apply in_map_iff in Ho as ([i row] & Ep & _).
  cbn [fst snd] in Ep. unfold emitted in Hrec. cbn [snd] in Hrec.
  destruct o as [|rec'|e]; try contradiction. destruct Hrec as [<-|[]].
  revert Ep. unfold process_row.
  destruct (read_company_name columns (map_columns columns) row)
    as [[name|]|e]; try discriminate.
  destruct (resolve_company lookup _ name) as [id nf].
  match goal with
  | |- context [clean_fields b columns row ?r (map_columns columns)] =>
      set (rec0 := r);
      destruct (clean_fields b columns row rec0 (map_columns columns))
        as [rec1|e] eqn:Ec
  end; cbn [bind]; [|discriminate].
  destruct (validate rec1) as [issues|e]; cbn [bind]; [|discriminate].
  intro H. injection H as _ <-.
  destruct (clean_fields_date _ _ _ _ _ _ _ Ec) as (_ & Hd & Hn).
  unfold has_date_column, date_or_today, rec_get_or.
  destruct (existsb _ (map_columns columns)).
  - specialize (Hd eq_refl).
    destruct (dict_get (txt "investment_date") rec1); [reflexivity|congruence].
  - rewrite (Hn eq_refl). reflexivity.
Qed.

Lemma backfill_date_default_witness :
  Forall (fun rec =>
            if has_date_column [CStr (txt "Company"); CStr (txt "Amount");
                                CStr (txt "Equity %"); CStr (txt "Date")]
            then @date_or_today day_numbers rec
                 = Given (rec_get_or "investment_date" RNone rec)
            else @date_or_today day_numbers rec = Today)
         (fst sample_parse)
  /\ map (@date_or_today day_numbers) (fst sample_parse)
     = [Given (@RDate day_numbers 45688%Z); Given RNone].
Proof.
  split; [|vm_compute; reflexivity].
  apply (backfill_date_default true day_numbers []
           sample_frame [] (snd sample_parse) (fst sample_parse)).
  - vm_compute. reflexivity.
  - reflexivity.
Defined.
